(** * A JSON content store behind a promise-chained write queue

    Shallow embedding of [server.js]: the file store ([readJson],
    [writeJsonAtomic] and its module-level promise chain), the submission
    log ([appendSubmission], [patchSubmission]), the text micro-grammars
    ([splitLines], [splitCsv], [parseIconLabelLines], ...) and the admin
    routes that normalise a form and merge it into [data/site.json].

    Conventions.
    - A JavaScript string is a [string]; its [length] is [String.length]
      (characters are modelled as single code units).
    - A JSON document is a [value]; an object is a finite map from keys to
      values, so equality of [value]s is deep equality.
    - A form body as produced by the urlencoded parser is a [raw].
    - The file system is a [disk]: file contents plus a table of injected
      faults; every [fs] call is a total function returning [inl error] or
      [inr disk'].
    - [JSON.stringify], [JSON.parse] and [Number] belong to the runtime and
      are taken as an interface ([JsNumber], [JsonCodec]). *)

From Stdlib Require Import ZArith Ascii String.
From Stdlib Require Import DecimalString DecimalPos DecimalN.
From stdpp Require Import gmap strings list fin_maps relations pretty.

Set Warnings "-register-all,-notation-for-abbreviation".

Open Scope string_scope.

(* ================================================================== *)
(** ** JavaScript string primitives *)
(* ================================================================== *)

Module Js.

(** White space as recognised by [String.prototype.trim] and by [\s],
    among the code units below 256: TAB, LF, VT, FF, CR, SPACE and the
    no-break space. *)
Definition is_space (a : ascii) : bool :=
  let n := nat_of_ascii a in
  Nat.eqb n 32 || (Nat.leb 9 n && Nat.leb n 13) || Nat.eqb n 160.

Definition LF : ascii := ascii_of_nat 10.

(** The one-character string ['\n']. *)
Definition NL : string := String LF EmptyString.

Fixpoint trimStart (s : string) : string :=
  match s with
  | EmptyString => EmptyString
  | String a s' => if is_space a then trimStart s' else s
  end.

Fixpoint trimEnd (s : string) : string :=
  match s with
  | EmptyString => EmptyString
  | String a s' =>
      match trimEnd s' with
      | EmptyString => if is_space a then EmptyString else String a EmptyString
      | r => String a r
      end
  end.

(** [s.trim()] *)
Definition trim (s : string) : string := trimEnd (trimStart s).

(** [!s] for a string: only the empty string is falsy. *)
Definition is_empty (s : string) : bool :=
  match s with EmptyString => true | _ => false end.

(** [s.split(c)] for a one-character separator; never returns [[]]. *)
Fixpoint split (c : ascii) (s : string) : list string :=
  match s with
  | EmptyString => [EmptyString]
  | String a s' =>
      if Ascii.eqb a c then EmptyString :: split c s'
      else match split c s' with
           | h :: t => String a h :: t
           | [] => [String a EmptyString]
           end
  end.

(** [l.join(sep)] *)
Definition join (sep : string) (l : list string) : string := String.concat sep l.

(** [l.filter(Boolean)] on an array of strings. *)
Definition filter_nonempty (l : list string) : list string :=
  List.filter (fun s => negb (is_empty s)) l.

(** [l.slice(0, max)] when [typeof max === 'number'], [l] otherwise. *)
Definition slice_max {A} (max : option nat) (l : list A) : list A :=
  match max with Some n => take n l | None => l end.

(** [s.startsWith(p)] and [s.endsWith(p)]. *)
Fixpoint startsWith (p s : string) : bool :=
  match p, s with
  | EmptyString, _ => true
  | String a p', String b s' => Ascii.eqb a b && startsWith p' s'
  | _, EmptyString => false
  end.

Definition endsWith (p s : string) : bool :=
  startsWith (String.rev p) (String.rev s).

(** Splitting on the pattern [/\n\s*\n/g]: a separator starts at a line
    feed and, the star being greedy, extends to the last line feed of the
    white-space run that follows it. [after_blank s] looks at what follows
    a line feed: [Some rest] when the run of white space at the head of [s]
    contains a line feed, [rest] being what follows the last one. *)
Fixpoint after_blank (s : string) : option string :=
  match s with
  | EmptyString => None
  | String a s' =>
      if is_space a then
        match after_blank s' with
        | Some rest => Some rest
        | None => if Ascii.eqb a LF then Some s' else None
        end
      else None
  end.

Fixpoint split_blank_fuel (fuel : nat) (s : string) : list string :=
  match fuel with
  | 0 => [s]
  | S fuel' =>
      match s with
      | EmptyString => [EmptyString]
      | String a s' =>
          match (if Ascii.eqb a LF then after_blank s' else None) with
          | Some rest => EmptyString :: split_blank_fuel fuel' rest
          | None =>
              match split_blank_fuel fuel' s' with
              | h :: t => String a h :: t
              | [] => [String a EmptyString]
              end
          end
      end
  end.

(** [s.split(/\n\s*\n/g)]; every step consumes a character, so the length
    of [s] is enough fuel. *)
Definition split_blank (s : string) : list string :=
  split_blank_fuel (S (String.length s)) s.

End Js.

(* ================================================================== *)
(** ** Errors and the file system *)
(* ================================================================== *)

(** What the code can catch: a system error carrying [err.code], or the
    [SyntaxError] of [JSON.parse]. *)
Inductive error : Type :=
| FsError (code : string)
| SyntaxError.

Definition error_eqb (e1 e2 : error) : bool :=
  match e1, e2 with
  | FsError c1, FsError c2 => String.eqb c1 c2
  | SyntaxError, SyntaxError => true
  | _, _ => false
  end.

(** The four [fs/promises] entry points the server uses. *)
Inductive fs_kind : Type := KRead | KMkdir | KWriteFile | KRename.

Definition fs_kind_code (k : fs_kind) : nat :=
  match k with KRead => 0 | KMkdir => 1 | KWriteFile => 2 | KRename => 3 end.

(** A disk: the contents of the regular files, and a fault table: the call
    of kind [k] on path [p] fails with code [c] when
    [faults !! (fs_kind_code k, p) = Some c] (a permission, a full device,
    a directory in the way). *)
Record disk : Type := Disk {
  files : gmap string string;
  faults : gmap (nat * string) string;
}.

Definition fault (d : disk) (k : fs_kind) (p : string) : option string :=
  faults d !! (fs_kind_code k, p).

(** [fs.readFile(p, 'utf8')] *)
Definition fs_readFile (d : disk) (p : string) : error + string :=
  match fault d KRead p with
  | Some c => inl (FsError c)
  | None =>
      match files d !! p with
      | Some raw => inr raw
      | None => inl (FsError "ENOENT")
      end
  end.

(** [fs.mkdir(dir, { recursive: true })]: idempotent; directories are not
    tracked, so all it can do is fail. *)
Definition fs_mkdir (d : disk) (dir : string) : error + disk :=
  match fault d KMkdir dir with
  | Some c => inl (FsError c)
  | None => inr d
  end.

(** [fs.writeFile(p, data, 'utf8')] *)
Definition fs_writeFile (d : disk) (p data : string) : error + disk :=
  match fault d KWriteFile p with
  | Some c => inl (FsError c)
  | None => inr (Disk (<[p := data]> (files d)) (faults d))
  end.

(** [fs.rename(src, dst)]: replaces [dst] in one step. The fault table is
    looked up at the destination. *)
Definition fs_rename (d : disk) (src dst : string) : error + disk :=
  match fault d KRename dst with
  | Some c => inl (FsError c)
  | None =>
      match files d !! src with
      | Some data => inr (Disk (<[dst := data]> (delete src (files d))) (faults d))
      | None => inl (FsError "ENOENT")
      end
  end.

(** [path.dirname(p)] for a path without trailing separator. *)
Definition dirname (p : string) : string :=
  match Js.join "/" (removelast (Js.split "/" p)) with
  | EmptyString => if Js.startsWith "/" p then "/" else "."
  | dir => dir
  end.

(** A disk on which none of the three calls of a write to [p] is set to
    fail. *)
Definition healthy (d : disk) (p : string) : bool :=
  match fault d KMkdir (dirname p), fault d KWriteFile (p +:+ ".tmp"),
        fault d KRename p with
  | None, None, None => true
  | _, _, _ => false
  end.

Definition DATA_DIR : string := "data".
Definition SITE_JSON_PATH : string := "data/site.json".
Definition USERS_JSON_PATH : string := "data/users.json".
Definition SUBMISSIONS_JSON_PATH : string := "data/submissions.json".

(* ================================================================== *)
(** ** JSON values and form bodies *)
(* ================================================================== *)

(** The numbers of the runtime: [number] stands for the finite numbers, the
    only ones a JSON text can denote; [num_is_zero] recognises the falsy
    numbers. *)
Class JsNumber : Type := {
  number : Type;
  num_zero : number;
  num_is_zero : number -> bool;
}.

Section Values.
Context `{JsNumber}.

(** A JSON value. [JObj] is a finite map: keys are unique and their order
    is not observable. *)
Inductive value : Type :=
| JNull
| JBool (b : bool)
| JNum (n : number)
| JStr (s : string)
| JArr (l : list value)
| JObj (o : gmap string value).

(** A parsed form body: absent, a string, a repeated field, a nested
    field set. *)
Inductive raw : Type :=
| RUndef
| RStr (s : string)
| RArr (l : list raw)
| RObj (o : gmap string raw).

(** Truthiness of a value; [None] is [undefined]. *)
Definition truthy (v : value) : bool :=
  match v with
  | JNull => false
  | JBool b => b
  | JNum n => negb (num_is_zero n)
  | JStr s => negb (Js.is_empty s)
  | JArr _ | JObj _ => true
  end.

Definition truthy_opt (v : option value) : bool :=
  match v with Some v => truthy v | None => false end.

(** [typeof v === 'object'] *)
Definition is_object_type (v : value) : bool :=
  match v with JNull | JArr _ | JObj _ => true | _ => false end.

(** [v[k]] for a key that is neither an index nor a built-in property name:
    only an object has it. *)
Definition get (k : string) (v : value) : option value :=
  match v with JObj o => o !! k | _ => None end.

(** [v[k] = x; ... JSON.stringify(v)]: a named property set on an array is
    not serialised, and a primitive cannot hold one. *)
Definition set_prop (k : string) (x : value) (v : value) : value :=
  match v with JObj o => JObj (<[k := x]> o) | _ => v end.

Definition index_key (i : nat) : string := pretty i.

Definition indexed {A} (l : list A) : gmap string A :=
  list_to_map (imap (fun i x => (index_key i, x)) l).

Definition chars (s : string) : list value :=
  map (fun a => JStr (String a EmptyString)) (list_ascii_of_string s).

(** The own enumerable properties [Object.assign({}, v)] copies; [None] is
    [undefined]. *)
Definition own_props (v : option value) : gmap string value :=
  match v with
  | Some (JObj o) => o
  | Some (JArr l) => indexed l
  | Some (JStr s) => indexed (chars s)
  | _ => ∅
  end.

(** [Object.assign({}, a, b)] on property maps: [b] wins. *)
Definition assign (a b : gmap string value) : gmap string value := b ∪ a.

(** An object literal [{ k1: v1, ..., kn: vn }]. *)
Definition obj (fields : list (string * value)) : value :=
  JObj (list_to_map fields).

(** [next.k1 = v1; ...; next.kn = vn], in order. *)
Definition set_fields (fields : list (string * value)) (o : gmap string value)
  : gmap string value :=
  foldl (fun acc kv => <[kv.1 := kv.2]> acc) o fields.

Definition strs (l : list string) : value := JArr (map JStr l).

(** Truthiness of a form field. *)
Definition raw_truthy (r : raw) : bool :=
  match r with
  | RUndef => false
  | RStr s => negb (Js.is_empty s)
  | RArr _ | RObj _ => true
  end.

(** [String(r)]; inside an array [undefined] prints as the empty string. *)
Fixpoint to_String (r : raw) : string :=
  match r with
  | RUndef => "undefined"
  | RStr s => s
  | RArr l =>
      Js.join "," (map (fun x => match x with RUndef => "" | _ => to_String x end) l)
  | RObj _ => "[object Object]"
  end.

(** [r && r[k]] followed by a use as a string source: the field [k] of a
    nested field set, [undefined] on anything else. *)
Definition field (k : string) (r : raw) : raw :=
  match r with RObj o => default RUndef (o !! k) | _ => RUndef end.

End Values.

(** The conversions of the runtime between texts and values:
    [JSON.stringify(v, null, 2)]; [JSON.parse(s)], where [None] is the
    [SyntaxError]; and [Number_finite s], which is [Number(s)] when
    [Number.isFinite] holds of it and [None] otherwise. *)
Class JsonCodec `{JsNumber} : Type := {
  JSON_stringify : value -> string;
  JSON_parse : string -> option value;
  Number_finite : string -> option number;
}.

(** What the runtime guarantees of a serialised value followed by a line
    feed: it parses back to a deep-equal value. *)
Class JsonLawful `{JsonCodec} : Prop :=
  parse_stringify : forall v : value, JSON_parse (JSON_stringify v +:+ Js.NL) = Some v.

(* ================================================================== *)
(** ** The store: [readJson] and the write queue *)
(* ================================================================== *)

(** The last [n] elements of a list. *)
Definition lastn {A} (n : nat) (l : list A) : list A := drop (length l - n) l.

(** A settled promise. *)
Inductive promise : Type :=
| Fulfilled
| Rejected (e : error).

(** The server between two requests: the disk and the module-level
    [writeQueue], every operation chained so far having settled. *)
Record world : Type := World {
  w_disk : disk;
  writeQueue : promise;
}.

(** One awaited [fs] call of the queued operation. *)
Inductive fs_call : Type :=
| Mkdir (dir : string)
| WriteFile (p data : string)
| Rename (src dst : string).

Definition exec_call (c : fs_call) (d : disk) : error + disk :=
  match c with
  | Mkdir dir => fs_mkdir d dir
  | WriteFile p data => fs_writeFile d p data
  | Rename src dst => fs_rename d src dst
  end.

(** The calls are awaited one after the other; the first failure rejects. *)
Fixpoint run_calls (cs : list fs_call) (d : disk) : promise * disk :=
  match cs with
  | [] => (Fulfilled, d)
  | c :: cs' =>
      match exec_call c d with
      | inl e => (Rejected e, d)
      | inr d' => run_calls cs' d'
      end
  end.

Section Store.
Context `{JsonCodec}.

(** [readJson(filePath, fallbackValue)] *)
Definition readJson (d : disk) (filePath : string) (fallbackValue : value)
  : error + value :=
  match fs_readFile d filePath with
  | inr raw =>
      match JSON_parse raw with
      | Some v => inr v
      | None => inr fallbackValue          (* err.name === 'SyntaxError' *)
      end
  | inl (FsError code) =>
      if String.eqb code "ENOENT" then inr fallbackValue else inl (FsError code)
  | inl SyntaxError => inr fallbackValue
  end.

(** The body of the function [writeJsonAtomic] chains on the queue. *)
Definition write_body (filePath : string) (v : value) : list fs_call :=
  let tmpPath := filePath +:+ ".tmp" in
  let raw := JSON_stringify v +:+ Js.NL in
  [Mkdir (dirname filePath); WriteFile tmpPath raw; Rename tmpPath filePath].

(** [writeQueue = writeQueue.then(body); return writeQueue], awaited: [then]
    is given no rejection handler, so on a rejected queue the body does not
    run and the new promise is rejected with the same error. *)
Definition writeJsonAtomic (filePath : string) (v : value) (w : world)
  : promise * world :=
  match writeQueue w with
  | Rejected e => (Rejected e, w)
  | Fulfilled =>
      let '(r, d') := run_calls (write_body filePath v) (w_disk w) in
      (r, World d' r)
  end.

(** [appendSubmission(submission)], awaited. *)
Definition appendSubmission (submission : value) (w : world) : promise * world :=
  match readJson (w_disk w) SUBMISSIONS_JSON_PATH (JArr []) with
  | inl e => (Rejected e, w)
  | inr current =>
      let next := match current with JArr l => l | _ => [] end in
      let next := (next ++ [submission])%list in
      let MAX := 250 in
      let next :=
        if Nat.ltb MAX (length next) then drop (length next - MAX) next else next in
      writeJsonAtomic SUBMISSIONS_JSON_PATH (JArr next) w
  end.

(** [(s) => s && s.id === id] for a string [id]. *)
Definition has_id (id : string) (s : value) : bool :=
  truthy s &&
  match get "id" s with
  | Some (JStr x) => String.eqb x id
  | _ => false
  end.

(** [next.findIndex(p)]; [None] is [-1]. *)
Fixpoint findIndex {A} (p : A -> bool) (l : list A) : option nat :=
  match l with
  | [] => None
  | x :: l' => if p x then Some 0 else S <$> findIndex p l'
  end.

(** [patchSubmission(id, patch)], awaited; [patch] is an object literal. *)
Definition patchSubmission (id : string) (patch : gmap string value) (w : world)
  : promise * world :=
  match readJson (w_disk w) SUBMISSIONS_JSON_PATH (JArr []) with
  | inl e => (Rejected e, w)
  | inr current =>
      let next := match current with JArr l => l | _ => [] end in
      match findIndex (has_id id) next with
      | None => (Fulfilled, w)
      | Some idx =>
          let next :=
            <[idx := JObj (assign (own_props (next !! idx)) patch)]> next in
          writeJsonAtomic SUBMISSIONS_JSON_PATH (JArr next) w
      end
  end.

(** The log as both functions load it:
    [Array.isArray(current) ? current.slice() : []]. *)
Definition load_log (d : disk) : error + list value :=
  match readJson d SUBMISSIONS_JSON_PATH (JArr []) with
  | inl e => inl e
  | inr (JArr l) => inr l
  | inr _ => inr []
  end.

(** [for (const s of subs) await appendSubmission(s);] *)
Fixpoint appendAll (subs : list value) (w : world) : promise * world :=
  match subs with
  | [] => (Fulfilled, w)
  | s :: rest =>
      match appendSubmission s w with
      | (Fulfilled, w') => appendAll rest w'
      | (Rejected e, w') => (Rejected e, w')
      end
  end.

End Store.

(* ================================================================== *)
(** ** The promise chain, one step at a time *)
(* ================================================================== *)

(** Callers do not have to await each other: between two awaited [fs] calls
    of a queued operation, other requests may call [writeJsonAtomic]. A
    [sys] is the disk and the chain of operations in the order they were
    chained; each operation is waiting for the promise before it, running
    (with the calls it still has to make), or settled. *)
Section Chain.
Context `{JsonCodec}.

Inductive tstate : Type :=
| Waiting
| Running (rest : list fs_call)
| Done (r : promise).

Record task : Type := Task {
  t_path : string;
  t_value : value;
  t_state : tstate;
}.













(** The promise an operation settles with once the promise [q] before it
    has settled, and the disk it leaves. *)
Definition settle (q : promise) (t : task) (d : disk) : promise * disk :=
  match q with
  | Fulfilled => run_calls (write_body (t_path t) (t_value t)) d
  | Rejected e => (Rejected e, d)
  end.


(** [consistent q d ts d']: starting on disk [d] behind a promise settled
    as [q], the chain [ts] is made of operations that ran to completion one
    after the other, then at most one that is part-way through its calls,
    then operations that have not started; [d'] is the disk they left. *)
Inductive consistent : promise -> disk -> list task -> disk -> Prop :=
| consistent_idle q d ts :
    Forall (fun t => t_state t = Waiting) ts ->
    consistent q d ts d
| consistent_done q d t ts r d1 d' :
    t_state t = Done r ->
    settle q t d = (r, d1) ->
    consistent r d1 ts d' ->
    consistent q d (t :: ts) d'
| consistent_running d t ts pre rest d' :
    t_state t = Running rest ->
    write_body (t_path t) (t_value t) = (pre ++ rest)%list ->
    run_calls pre d = (Fulfilled, d') ->
    Forall (fun t => t_state t = Waiting) ts ->
    consistent Fulfilled d (t :: ts) d'.

End Chain.

(* ================================================================== *)
(** ** The text micro-grammars *)
(* ================================================================== *)

(** [asTrimmedString(v)] *)
Definition asTrimmedString (v : raw) : string :=
  Js.trim (match v with RUndef => "" | _ => to_String v end).

(** [String(v || '').trim()] *)
Definition trimmedOrEmpty (v : raw) : string :=
  Js.trim (if raw_truthy v then to_String v else "").

(** [x && x[k]] *)
Definition and_field (k : string) (x : raw) : raw :=
  if raw_truthy x then field k x else x.

(** [normalizeArray(v)] *)
Definition normalizeArray (v : raw) : list raw :=
  match v with
  | RUndef => []
  | RArr l => l
  | _ => [v]
  end.

(** [parseEnabled(v)] *)
Definition parseEnabled (v : raw) : bool :=
  let values := map (fun x => Js.trim (to_String x)) (normalizeArray v) in
  existsb (String.eqb "1") values.

(** [splitLines(v, max)] *)
Definition splitLines (v : raw) (max : option nat) : list string :=
  let raw := asTrimmedString v in
  if Js.is_empty raw then []
  else
    let lines := Js.filter_nonempty (map Js.trim (Js.split Js.LF raw)) in
    Js.slice_max max lines.

(** [splitBlankParagraphs(v, max)] *)
Definition splitBlankParagraphs (v : raw) (max : option nat) : list string :=
  let raw := asTrimmedString v in
  if Js.is_empty raw then []
  else
    let parts := Js.filter_nonempty (map Js.trim (Js.split_blank raw)) in
    Js.slice_max max parts.

(** [splitCsv(v, max)] *)
Definition splitCsv (v : raw) (max : option nat) : list string :=
  let raw := asTrimmedString v in
  if Js.is_empty raw then []
  else
    let parts := Js.filter_nonempty (map Js.trim (Js.split "," raw)) in
    Js.slice_max max parts.

(** The object literal [{ icon, label }]. *)
Record IconLabel : Type := mkIconLabel {
  icon : string;
  label : string;
}.

(** The callback [parseIconLabelLines] maps over the lines; [None] is
    [null]. *)
Definition iconLabelOfLine (line : string) : option IconLabel :=
  let parts := map Js.trim (Js.split "|" line) in
  let icon := hd "" parts in                      (* parts[0] || '' *)
  let label := Js.trim (Js.join " | " (tl parts)) in
  if Js.is_empty label && Js.is_empty icon then None
  else Some (mkIconLabel icon label).

(** The text before the first [c], and what follows it when [c] occurs. *)
Fixpoint split_first (c : ascii) (s : string) : string * option string :=
  match s with
  | EmptyString => (EmptyString, None)
  | String a s' =>
      if Ascii.eqb a c then (EmptyString, Some s')
      else let '(b, r) := split_first c s' in (String a b, r)
  end.

(** The line grammar in the words of the specification: the line is split
    on its first bar into an icon token and the remainder, which is the
    label; a line with neither is dropped. *)
Definition spec_iconLabelOfLine (line : string) : option IconLabel :=
  let '(before, after) := split_first "|" line in
  let icon := Js.trim before in
  let label := Js.trim (default "" after) in
  if Js.is_empty label && Js.is_empty icon then None
  else Some (mkIconLabel icon label).

(** The same with the remainder normalised: its pieces between bars are
    trimmed and joined again by a bar between two spaces. *)
Definition normalised_iconLabelOfLine (line : string) : option IconLabel :=
  let '(before, after) := split_first "|" line in
  let icon := Js.trim before in
  let label :=
    match after with
    | Some rem => Js.trim (Js.join " | " (map Js.trim (Js.split "|" rem)))
    | None => ""
    end in
  if Js.is_empty label && Js.is_empty icon then None
  else Some (mkIconLabel icon label).

(** [parseIconLabelLines(v, max)] *)
Definition parseIconLabelLines (v : raw) (max : option nat) : list IconLabel :=
  let lines := splitLines v max in
  omap iconLabelOfLine lines.

(** [parseIconTextPair(v)]: the pair [(icon, text)], [None] for [null]. *)
Definition parseIconTextPair (v : raw) : option (string * string) :=
  let raw := asTrimmedString v in
  if Js.is_empty raw then None
  else
    let parts := map Js.trim (Js.split "|" raw) in
    let icon := hd "" parts in
    let text := Js.trim (Js.join " | " (tl parts)) in
    if Js.is_empty text && Js.is_empty icon then None
    else Some (icon, text).

(** The pattern [/^[a-z0-9][a-z0-9-]{0,40}$/i] of the navigation ids. *)
Definition is_alnum (a : ascii) : bool :=
  let n := nat_of_ascii a in
  (Nat.leb 48 n && Nat.leb n 57) || (Nat.leb 65 n && Nat.leb n 90)
  || (Nat.leb 97 n && Nat.leb n 122).

Definition is_nav_id (s : string) : bool :=
  match s with
  | EmptyString => false
  | String a rest =>
      is_alnum a
      && forallb (fun b => is_alnum b || Ascii.eqb b "-") (list_ascii_of_string rest)
      && Nat.leb (String.length rest) 40
  end.

(** The pattern [/^[^\s@]+@[^\s@]+\.[^\s@]+$/] of the contact form: one
    [@], no white space, and after the [@] a dot that is neither first nor
    last. *)
Definition is_plain (s : string) : bool :=
  negb (Js.is_empty s)
  && forallb (fun a => negb (Js.is_space a) && negb (Ascii.eqb a "@"))
             (list_ascii_of_string s).

(** Some dot of [s] is not its last character. *)
Fixpoint dot_before_last (s : string) : bool :=
  match s with
  | EmptyString => false
  | String a s' =>
      (Ascii.eqb a "." && negb (Js.is_empty s')) || dot_before_last s'
  end.

Definition is_email (s : string) : bool :=
  match Js.split "@" s with
  | [l; d] =>
      is_plain l && is_plain d
      && match d with String _ rest => dot_before_last rest | EmptyString => false end
  | _ => false
  end.

(* ================================================================== *)
(** ** Requests, responses, and the route handlers *)
(* ================================================================== *)

Record request : Type := Request {
  session_user : bool;                  (* req.session.user is set *)
  session_csrfToken : option string;    (* req.session.csrfToken *)
  body : gmap string raw;               (* req.body *)
  param_id : string;                    (* req.params.id *)
}.

Definition body_field (req : request) (k : string) : raw :=
  default RUndef (body req !! k).

Inductive response : Type :=
| Redirect (url : string)
| SendJson (status : nat) (ok : bool) (message : string)
| Unhandled (e : error).      (* the handler's promise rejected *)

(** [assertCsrf(req)] *)
Definition assertCsrf (req : request) : bool :=
  match session_csrfToken req, body_field req "_csrf" with
  | Some expected, RStr got =>
      negb (Js.is_empty expected) && negb (Js.is_empty got) && String.eqb expected got
  | _, _ => false
  end.

Definition EDITABLE_SECTIONS : list string :=
  ["meta"; "nav"; "hero"; "about"; "techstack"; "projects"; "casestudies";
   "experience"; "certifications"; "blog"; "github"; "contact"; "footer"].

(** A handler runs on the world until it has answered: [inl r] once the
    response [r] is sent, [inr a] while it goes on with [a]. *)
Definition handler (A : Type) : Type := world -> (response + A) * world.

Definition h_ret {A} (a : A) : handler A := fun w => (inr a, w).

Definition h_bind {A B} (m : handler A) (k : A -> handler B) : handler B :=
  fun w =>
    match m w with
    | (inl r, w') => (inl r, w')
    | (inr a, w') => k a w'
    end.

Notation "x <- m ;; k" := (h_bind m (fun x => k))
  (at level 100, m at next level, right associativity).
Notation "m ;; k" := (h_bind m (fun _ => k))
  (at level 100, right associativity).

(** [return res.redirect(...)] and the like. *)
Definition reply {A} (r : response) : handler A := fun w => (inl r, w).

(** [if (c) return r;] *)
Definition reply_if (c : bool) (r : response) : handler unit :=
  if c then reply r else h_ret tt.

Definition run_handler (h : handler response) (w : world) : response * world :=
  match h w with
  | (inl r, w') => (r, w')
  | (inr r, w') => (r, w')
  end.

(** [requireAuth] in front of a handler. *)
Definition requireAuth (req : request) (h : handler response) : handler response :=
  if session_user req then h else reply (Redirect "/admin/login").

Section Routes.
Context `{JsonCodec}.

(** [await readJson(p, fallback)] *)
Definition await_read (p : string) (fallback : value) : handler value :=
  fun w =>
    match readJson (w_disk w) p fallback with
    | inl e => (inl (Unhandled e), w)
    | inr v => (inr v, w)
    end.

(** [await writeJsonAtomic(p, v)] *)
Definition await_write (p : string) (v : value) : handler unit :=
  fun w =>
    match writeJsonAtomic p v w with
    | (Fulfilled, w') => (inr tt, w')
    | (Rejected e, w') => (inl (Unhandled e), w')
    end.

(** [const site = await readJson(SITE_JSON_PATH, null);
     if (!site || typeof site !== 'object') return res.redirect(url);] *)
Definition read_site (url : string) : handler value :=
  site <- await_read SITE_JSON_PATH JNull ;;
  reply_if (negb (truthy site) || negb (is_object_type site)) (Redirect url) ;;
  h_ret site.

(** [const next = Object.assign({}, site[name]); next.k1 = v1; ...;
     site[name] = next; await writeJsonAtomic(SITE_JSON_PATH, site);] *)
Definition merge_section (name : string) (fields : list (string * value))
    (site : value) : value :=
  let next := set_fields fields (own_props (get name site)) in
  set_prop name (JObj next) site.

Definition save_section (name : string) (fields : list (string * value))
    (site : value) : handler unit :=
  await_write SITE_JSON_PATH (merge_section name fields site).

Definition too_long (s : string) (max : nat) : bool := Nat.ltb max (String.length s).

(** [app.post('/admin/hero', requireAuth, ...)] *)
Definition post_admin_hero (req : request) : handler response :=
  requireAuth req (
  reply_if (negb (assertCsrf req)) (Redirect "/admin?page=hero&error=Invalid+session") ;;
  site <- read_site "/admin?page=hero&error=Missing+site.json" ;;
  let site_hero :=
    match get "hero" site with
    | Some h => if truthy h && is_object_type h then Some h else Some (JObj ∅)
    | None => Some (JObj ∅)
    end in
  let enabled := parseEnabled (body_field req "enabled") in
  let greeting := trimmedOrEmpty (body_field req "greeting") in
  let firstName := trimmedOrEmpty (body_field req "firstName") in
  let lastName := trimmedOrEmpty (body_field req "lastName") in
  let description := trimmedOrEmpty (body_field req "description") in
  let scrollText := trimmedOrEmpty (body_field req "scrollText") in
  let titlesRaw :=
    let t := body_field req "titles" in if raw_truthy t then to_String t else "" in
  let titles :=
    take 12 (Js.filter_nonempty (map Js.trim (Js.split Js.LF titlesRaw))) in
  let cta1Label := trimmedOrEmpty (body_field req "cta1Label") in
  let cta1Href := trimmedOrEmpty (body_field req "cta1Href") in
  let cta2Label := trimmedOrEmpty (body_field req "cta2Label") in
  let cta2Href := trimmedOrEmpty (body_field req "cta2Href") in
  reply_if (too_long greeting 80) (Redirect "/admin?page=hero&error=Greeting+too+long") ;;
  reply_if (Js.is_empty firstName) (Redirect "/admin?page=hero&error=First+name+is+required") ;;
  reply_if (Js.is_empty lastName) (Redirect "/admin?page=hero&error=Last+name+is+required") ;;
  reply_if (too_long firstName 40) (Redirect "/admin?page=hero&error=First+name+too+long") ;;
  reply_if (too_long lastName 40) (Redirect "/admin?page=hero&error=Last+name+too+long") ;;
  reply_if (too_long description 320) (Redirect "/admin?page=hero&error=Description+too+long") ;;
  reply_if (too_long scrollText 40) (Redirect "/admin?page=hero&error=Scroll+text+too+long") ;;
  reply_if (too_long cta1Label 40 || too_long cta2Label 40)
           (Redirect "/admin?page=hero&error=CTA+text+too+long") ;;
  reply_if (too_long cta1Href 240 || too_long cta2Href 240)
           (Redirect "/admin?page=hero&error=CTA+URL+too+long") ;;
  let hero := own_props site_hero in
  let currentCtas := match hero !! "ctas" with Some (JArr l) => l | _ => [] end in
  let cta (i : nat) (style lbl href : string) : gmap string value :=
    let current :=
      match currentCtas !! i with
      | Some c => if truthy c then Some c else None       (* currentCtas[i] || {} *)
      | None => None
      end in
    let c := assign (list_to_map [("style", JStr style); ("icon", JStr "")])
                    (own_props current) in
    let c := if Js.is_empty lbl then c else <["label" := JStr lbl]> c in
    if Js.is_empty href then c else <["href" := JStr href]> c in
  let cta1 := cta 0 "primary" cta1Label cta1Href in
  let cta2 := cta 1 "outline" cta2Label cta2Href in
  let ctas :=
    List.filter (fun c => truthy_opt (c !! "label") || truthy_opt (c !! "href"))
                [cta1; cta2] in
  await_write SITE_JSON_PATH
    (set_prop "hero"
       (JObj (set_fields
                [("enabled", JBool enabled); ("greeting", JStr greeting);
                 ("firstName", JStr firstName); ("lastName", JStr lastName);
                 ("description", JStr description); ("scrollText", JStr scrollText);
                 ("titles", strs titles); ("ctas", JArr (map JObj ctas))]
                hero))
       site) ;;
  h_ret (Redirect "/admin?page=hero&saved=1")).

(** [app.post('/admin/meta', requireAuth, ...)] *)
Definition post_admin_meta (req : request) : handler response :=
  requireAuth req (
  reply_if (negb (assertCsrf req)) (Redirect "/admin?page=meta&error=Invalid+session") ;;
  let title := asTrimmedString (body_field req "title") in
  reply_if (Js.is_empty title) (Redirect "/admin?page=meta&error=Title+is+required") ;;
  reply_if (too_long title 120) (Redirect "/admin?page=meta&error=Title+too+long") ;;
  let description := asTrimmedString (body_field req "description") in
  let ogImage := asTrimmedString (body_field req "ogImage") in
  reply_if (too_long description 240) (Redirect "/admin?page=meta&error=Description+too+long") ;;
  reply_if (too_long ogImage 300) (Redirect "/admin?page=meta&error=OG+image+URL+too+long") ;;
  site <- read_site "/admin?page=meta&error=Missing+site.json" ;;
  await_write SITE_JSON_PATH
    (set_prop "meta"
       (JObj (assign (own_props (get "meta" site))
                     (list_to_map [("title", JStr title); ("description", JStr description);
                                   ("ogImage", JStr ogImage)])))
       site) ;;
  h_ret (Redirect "/admin?page=meta&saved=1")).

(** [asTrimmedString(x && x[k])] *)
Definition ats (k : string) (x : raw) : string := asTrimmedString (and_field k x).

(** [app.post('/admin/nav', requireAuth, ...)] *)
Definition post_admin_nav (req : request) : handler response :=
  requireAuth req (
  reply_if (negb (assertCsrf req)) (Redirect "/admin?page=nav&error=Invalid+session") ;;
  let logoText := asTrimmedString (body_field req "logoText") in
  reply_if (Js.is_empty logoText) (Redirect "/admin?page=nav&error=Logo+text+is+required") ;;
  reply_if (too_long logoText 80) (Redirect "/admin?page=nav&error=Logo+text+too+long") ;;
  let linksRaw := normalizeArray (body_field req "links") in
  let links :=
    take 20 (omap (fun l =>
      let id := ats "id" l in
      let label := ats "label" l in
      if Js.is_empty id || Js.is_empty label then None
      else if negb (is_nav_id id) then None
      else Some (obj [("id", JStr id); ("label", JStr label)])) linksRaw) in
  site <- read_site "/admin?page=nav&error=Missing+site.json" ;;
  await_write SITE_JSON_PATH
    (set_prop "nav"
       (JObj (assign (own_props (get "nav" site))
                     (list_to_map [("logoText", JStr logoText); ("links", JArr links)])))
       site) ;;
  h_ret (Redirect "/admin?page=nav&saved=1")).

(** [x && typeof x === 'object' ? x : {}] *)
Definition object_or_empty (x : raw) : raw :=
  match x with
  | RArr _ | RObj _ => x
  | _ => RObj ∅
  end.

(** [app.post('/admin/about', requireAuth, ...)] *)
Definition post_admin_about (req : request) : handler response :=
  requireAuth req (
  reply_if (negb (assertCsrf req)) (Redirect "/admin?page=about&error=Invalid+session") ;;
  let enabled := parseEnabled (body_field req "enabled") in
  let number := asTrimmedString (body_field req "number") in
  let title := asTrimmedString (body_field req "title") in
  let paragraphsHtml := splitBlankParagraphs (body_field req "paragraphs") (Some 10) in
  let resume := object_or_empty (body_field req "resume") in
  let resumeLabel := asTrimmedString (field "label" resume) in
  let resumeHref := asTrimmedString (field "href" resume) in
  let resumeIcon := asTrimmedString (field "icon" resume) in
  let info :=
    take 20 (omap (fun it =>
      let label := ats "label" it in
      let value := ats "value" it in
      if Js.is_empty label || Js.is_empty value then None
      else Some (obj [("label", JStr label); ("value", JStr value)]))
      (normalizeArray (body_field req "info"))) in
  let stats :=
    take 12 (omap (fun s =>
      let icon := ats "icon" s in
      let countRaw := ats "count" s in
      let count := if Js.is_empty countRaw then None else Number_finite countRaw in
      let suffix := ats "suffix" s in
      let label := ats "label" s in
      if Js.is_empty label then None
      else Some (obj [("icon", JStr icon); ("count", JNum (default num_zero count));
                      ("suffix", JStr suffix); ("label", JStr label)]))
      (normalizeArray (body_field req "stats"))) in
  reply_if (too_long number 10) (Redirect "/admin?page=about&error=Number+too+long") ;;
  reply_if (Js.is_empty title) (Redirect "/admin?page=about&error=Title+is+required") ;;
  reply_if (too_long title 40) (Redirect "/admin?page=about&error=Title+too+long") ;;
  reply_if (too_long resumeLabel 60) (Redirect "/admin?page=about&error=Resume+label+too+long") ;;
  reply_if (too_long resumeHref 240) (Redirect "/admin?page=about&error=Resume+URL+too+long") ;;
  reply_if (too_long resumeIcon 80) (Redirect "/admin?page=about&error=Resume+icon+too+long") ;;
  site <- read_site "/admin?page=about&error=Missing+site.json" ;;
  save_section "about"
    [("enabled", JBool enabled); ("number", JStr number); ("title", JStr title);
     ("paragraphsHtml", strs paragraphsHtml); ("info", JArr info);
     ("resume", obj [("label", JStr resumeLabel); ("href", JStr resumeHref);
                     ("icon", JStr resumeIcon)]);
     ("stats", JArr stats)]
    site ;;
  h_ret (Redirect "/admin?page=about&saved=1")).

Definition iconLabel_json (x : IconLabel) : value :=
  obj [("icon", JStr (icon x)); ("label", JStr (label x))].

(** [app.post('/admin/techstack', requireAuth, ...)] *)
Definition post_admin_techstack (req : request) : handler response :=
  requireAuth req (
  reply_if (negb (assertCsrf req)) (Redirect "/admin?page=techstack&error=Invalid+session") ;;
  let enabled := parseEnabled (body_field req "enabled") in
  let number := asTrimmedString (body_field req "number") in
  let title := asTrimmedString (body_field req "title") in
  let sphereTags := splitLines (body_field req "sphereTags") (Some 80) in
  let categories :=
    take 12 (omap (fun c =>
      let icon := ats "icon" c in
      let catTitle := ats "title" c in
      let items := parseIconLabelLines (and_field "itemsLines" c) (Some 60) in
      if Js.is_empty catTitle then None
      else Some (obj [("icon", JStr icon); ("title", JStr catTitle);
                      ("items", JArr (map iconLabel_json items))]))
      (normalizeArray (body_field req "categories"))) in
  reply_if (too_long number 10) (Redirect "/admin?page=techstack&error=Number+too+long") ;;
  reply_if (Js.is_empty title) (Redirect "/admin?page=techstack&error=Title+is+required") ;;
  reply_if (too_long title 40) (Redirect "/admin?page=techstack&error=Title+too+long") ;;
  site <- read_site "/admin?page=techstack&error=Missing+site.json" ;;
  save_section "techstack"
    [("enabled", JBool enabled); ("number", JStr number); ("title", JStr title);
     ("sphereTags", strs sphereTags); ("categories", JArr categories)]
    site ;;
  h_ret (Redirect "/admin?page=techstack&saved=1")).

(** The callback mapped over [splitLines(req.body.filtersLines, 30)]. *)
Definition filterOfLine (line : string) : option value :=
  let parts := map Js.trim (Js.split "|" line) in
  let label := hd "" parts in
  let value := Js.trim (Js.join " | " (tl parts)) in
  if Js.is_empty label || Js.is_empty value then None
  else Some (obj [("label", JStr label); ("value", JStr value)]).

(** The callback mapped over [normalizeArray(req.body.cards)]. *)
Definition projectCard (p : raw) : option value :=
  let category := ats "category" p in
  let frontIcon := ats "frontIcon" p in
  let frontTitle := ats "frontTitle" p in
  let frontDesc := ats "frontDesc" p in
  let backTitle := ats "backTitle" p in
  let backDesc := ats "backDesc" p in
  let tech := splitCsv (and_field "techCsv" p) (Some 20) in
  let linkType := let t := ats "linkType" p in if Js.is_empty t then "link" else t in
  let linkLabel := ats "linkLabel" p in
  let linkHref := ats "linkHref" p in
  let linkIcon := ats "linkIcon" p in
  if Js.is_empty frontTitle then None
  else
    let card : gmap string value :=
      list_to_map [("category", JStr category); ("frontIcon", JStr frontIcon);
                   ("frontTitle", JStr frontTitle); ("frontDesc", JStr frontDesc);
                   ("backTitle", JStr backTitle); ("backDesc", JStr backDesc);
                   ("tech", strs tech)] in
    let card :=
      if negb (Js.is_empty linkLabel) || negb (Js.is_empty linkHref)
         || negb (Js.is_empty linkIcon)
      then
        if String.eqb linkType "status"
        then <["link" := obj [("type", JStr "status"); ("icon", JStr linkIcon);
                              ("label", JStr linkLabel)]]> card
        else <["link" := obj [("href", JStr linkHref); ("icon", JStr linkIcon);
                              ("label", JStr linkLabel)]]> card
      else card in
    Some (JObj card).

(** [app.post('/admin/projects', requireAuth, ...)] *)
Definition post_admin_projects (req : request) : handler response :=
  requireAuth req (
  reply_if (negb (assertCsrf req)) (Redirect "/admin?page=projects&error=Invalid+session") ;;
  let enabled := parseEnabled (body_field req "enabled") in
  let number := asTrimmedString (body_field req "number") in
  let title := asTrimmedString (body_field req "title") in
  let filters := omap filterOfLine (splitLines (body_field req "filtersLines") (Some 30)) in
  let cards := take 40 (omap projectCard (normalizeArray (body_field req "cards"))) in
  reply_if (too_long number 10) (Redirect "/admin?page=projects&error=Number+too+long") ;;
  reply_if (Js.is_empty title) (Redirect "/admin?page=projects&error=Title+is+required") ;;
  reply_if (too_long title 60) (Redirect "/admin?page=projects&error=Title+too+long") ;;
  site <- read_site "/admin?page=projects&error=Missing+site.json" ;;
  save_section "projects"
    [("enabled", JBool enabled); ("number", JStr number); ("title", JStr title);
     ("filters", JArr filters); ("cards", JArr cards)]
    site ;;
  h_ret (Redirect "/admin?page=projects&saved=1")).

(** [app.post('/admin/casestudies', requireAuth, ...)] *)
Definition post_admin_casestudies (req : request) : handler response :=
  requireAuth req (
  reply_if (negb (assertCsrf req)) (Redirect "/admin?page=casestudies&error=Invalid+session") ;;
  let enabled := parseEnabled (body_field req "enabled") in
  let number := asTrimmedString (body_field req "number") in
  let title := asTrimmedString (body_field req "title") in
  let subtitle := asTrimmedString (body_field req "subtitle") in
  let cards :=
    take 20 (omap (fun c =>
      let icon := ats "icon" c in
      let tag := ats "tag" c in
      let cardTitle := ats "title" c in
      let challenge := ats "challenge" c in
      let architecture := splitCsv (and_field "architectureCsv" c) (Some 30) in
      let impact := splitLines (and_field "impactLines" c) (Some 20) in
      let tech := splitCsv (and_field "techCsv" c) (Some 30) in
      if Js.is_empty cardTitle then None
      else Some (obj [("icon", JStr icon); ("tag", JStr tag); ("title", JStr cardTitle);
                      ("challenge", JStr challenge); ("architecture", strs architecture);
                      ("impact", strs impact); ("tech", strs tech)]))
      (normalizeArray (body_field req "cards"))) in
  reply_if (too_long number 10) (Redirect "/admin?page=casestudies&error=Number+too+long") ;;
  reply_if (Js.is_empty title) (Redirect "/admin?page=casestudies&error=Title+is+required") ;;
  reply_if (too_long title 60) (Redirect "/admin?page=casestudies&error=Title+too+long") ;;
  reply_if (too_long subtitle 120) (Redirect "/admin?page=casestudies&error=Subtitle+too+long") ;;
  site <- read_site "/admin?page=casestudies&error=Missing+site.json" ;;
  save_section "casestudies"
    [("enabled", JBool enabled); ("number", JStr number); ("title", JStr title);
     ("subtitle", JStr subtitle); ("cards", JArr cards)]
    site ;;
  h_ret (Redirect "/admin?page=casestudies&saved=1")).

(** [app.post('/admin/experience', requireAuth, ...)] *)
Definition post_admin_experience (req : request) : handler response :=
  requireAuth req (
  reply_if (negb (assertCsrf req)) (Redirect "/admin?page=experience&error=Invalid+session") ;;
  let enabled := parseEnabled (body_field req "enabled") in
  let number := asTrimmedString (body_field req "number") in
  let title := asTrimmedString (body_field req "title") in
  let items :=
    take 30 (omap (fun it =>
      let role := ats "role" it in
      let company := ats "company" it in
      let date := ats "date" it in
      let location := ats "location" it in
      let details := splitLines (and_field "detailsLines" it) (Some 40) in
      let tags := splitCsv (and_field "tagsCsv" it) (Some 30) in
      if Js.is_empty role || Js.is_empty company then None
      else Some (obj [("role", JStr role); ("company", JStr company); ("date", JStr date);
                      ("location", JStr location); ("details", strs details);
                      ("tags", strs tags)]))
      (normalizeArray (body_field req "items"))) in
  reply_if (too_long number 10) (Redirect "/admin?page=experience&error=Number+too+long") ;;
  reply_if (Js.is_empty title) (Redirect "/admin?page=experience&error=Title+is+required") ;;
  reply_if (too_long title 60) (Redirect "/admin?page=experience&error=Title+too+long") ;;
  site <- read_site "/admin?page=experience&error=Missing+site.json" ;;
  save_section "experience"
    [("enabled", JBool enabled); ("number", JStr number); ("title", JStr title);
     ("items", JArr items)]
    site ;;
  h_ret (Redirect "/admin?page=experience&saved=1")).

Definition iconText_json (x : string * string) : value :=
  obj [("icon", JStr x.1); ("text", JStr x.2)].

(** [app.post('/admin/certifications', requireAuth, ...)] *)
Definition post_admin_certifications (req : request) : handler response :=
  requireAuth req (
  reply_if (negb (assertCsrf req))
           (Redirect "/admin?page=certifications&error=Invalid+session") ;;
  let enabled := parseEnabled (body_field req "enabled") in
  let number := asTrimmedString (body_field req "number") in
  let title := asTrimmedString (body_field req "title") in
  let cards :=
    take 30 (omap (fun c =>
      let ribbonText := ats "ribbonText" c in
      let ribbonVariant := ats "ribbonVariant" c in
      let icon := ats "icon" c in
      let cardTitle := ats "title" c in
      let desc := ats "desc" c in
      let meta1 := parseIconTextPair (and_field "meta1" c) in
      let meta2 := parseIconTextPair (and_field "meta2" c) in
      let meta := omap id [meta1; meta2] in
      if Js.is_empty cardTitle then None
      else
        let out : gmap string value :=
          list_to_map [("icon", JStr icon); ("title", JStr cardTitle); ("desc", JStr desc);
                       ("meta", JArr (map iconText_json meta))] in
        Some (JObj (if Js.is_empty ribbonText then out
                    else <["ribbon" := obj [("text", JStr ribbonText);
                                            ("variant", JStr ribbonVariant)]]> out)))
      (normalizeArray (body_field req "cards"))) in
  reply_if (too_long number 10) (Redirect "/admin?page=certifications&error=Number+too+long") ;;
  reply_if (Js.is_empty title) (Redirect "/admin?page=certifications&error=Title+is+required") ;;
  reply_if (too_long title 60) (Redirect "/admin?page=certifications&error=Title+too+long") ;;
  site <- read_site "/admin?page=certifications&error=Missing+site.json" ;;
  save_section "certifications"
    [("enabled", JBool enabled); ("number", JStr number); ("title", JStr title);
     ("cards", JArr cards)]
    site ;;
  h_ret (Redirect "/admin?page=certifications&saved=1")).

(** [app.post('/admin/blog', requireAuth, ...)] *)
Definition post_admin_blog (req : request) : handler response :=
  requireAuth req (
  reply_if (negb (assertCsrf req)) (Redirect "/admin?page=blog&error=Invalid+session") ;;
  let enabled := parseEnabled (body_field req "enabled") in
  let number := asTrimmedString (body_field req "number") in
  let title := asTrimmedString (body_field req "title") in
  let subtitle := asTrimmedString (body_field req "subtitle") in
  let posts :=
    take 30 (omap (fun p =>
      let icon := ats "icon" p in
      let category := ats "category" p in
      let date := ats "date" p in
      let postTitle := ats "title" p in
      let excerpt := ats "excerpt" p in
      let href := ats "href" p in
      if Js.is_empty postTitle then None
      else Some (obj [("icon", JStr icon); ("category", JStr category); ("date", JStr date);
                      ("title", JStr postTitle); ("excerpt", JStr excerpt);
                      ("href", JStr href)]))
      (normalizeArray (body_field req "posts"))) in
  reply_if (too_long number 10) (Redirect "/admin?page=blog&error=Number+too+long") ;;
  reply_if (Js.is_empty title) (Redirect "/admin?page=blog&error=Title+is+required") ;;
  reply_if (too_long title 60) (Redirect "/admin?page=blog&error=Title+too+long") ;;
  reply_if (too_long subtitle 160) (Redirect "/admin?page=blog&error=Subtitle+too+long") ;;
  site <- read_site "/admin?page=blog&error=Missing+site.json" ;;
  save_section "blog"
    [("enabled", JBool enabled); ("number", JStr number); ("title", JStr title);
     ("subtitle", JStr subtitle); ("posts", JArr posts)]
    site ;;
  h_ret (Redirect "/admin?page=blog&saved=1")).

(** [app.post('/admin/github', requireAuth, ...)] *)
Definition post_admin_github (req : request) : handler response :=
  requireAuth req (
  reply_if (negb (assertCsrf req)) (Redirect "/admin?page=github&error=Invalid+session") ;;
  let enabled := parseEnabled (body_field req "enabled") in
  let number := asTrimmedString (body_field req "number") in
  let title := asTrimmedString (body_field req "title") in
  let username := asTrimmedString (body_field req "username") in
  let tagline := asTrimmedString (body_field req "tagline") in
  let profileUrl := asTrimmedString (body_field req "profileUrl") in
  let stats :=
    take 10 (omap (fun s =>
      let icon := ats "icon" s in
      let value := ats "value" s in
      let label := ats "label" s in
      if Js.is_empty label then None
      else Some (obj [("icon", JStr icon); ("value", JStr value); ("label", JStr label)]))
      (normalizeArray (body_field req "stats"))) in
  let pinned :=
    take 12 (omap (fun r =>
      let href := ats "href" r in
      let icon := ats "icon" r in
      let name := ats "name" r in
      let desc := ats "desc" r in
      let stars := ats "stars" r in
      let langName := ats "langName" r in
      let langClass := ats "langClass" r in
      if Js.is_empty name then None
      else Some (obj [("href", JStr href); ("icon", JStr icon); ("name", JStr name);
                      ("desc", JStr desc);
                      ("lang", obj [("name", JStr langName); ("class", JStr langClass)]);
                      ("stars", JStr stars)]))
      (normalizeArray (body_field req "pinned"))) in
  reply_if (too_long number 10) (Redirect "/admin?page=github&error=Number+too+long") ;;
  reply_if (Js.is_empty title) (Redirect "/admin?page=github&error=Title+is+required") ;;
  reply_if (too_long title 60) (Redirect "/admin?page=github&error=Title+too+long") ;;
  reply_if (too_long username 40) (Redirect "/admin?page=github&error=Username+too+long") ;;
  reply_if (too_long tagline 120) (Redirect "/admin?page=github&error=Tagline+too+long") ;;
  reply_if (too_long profileUrl 240) (Redirect "/admin?page=github&error=Profile+URL+too+long") ;;
  site <- read_site "/admin?page=github&error=Missing+site.json" ;;
  save_section "github"
    [("enabled", JBool enabled); ("number", JStr number); ("title", JStr title);
     ("username", JStr username); ("tagline", JStr tagline);
     ("profileUrl", JStr profileUrl); ("stats", JArr stats); ("pinned", JArr pinned)]
    site ;;
  h_ret (Redirect "/admin?page=github&saved=1")).

(** [app.post('/admin/contact', requireAuth, ...)] *)
Definition post_admin_contact (req : request) : handler response :=
  requireAuth req (
  reply_if (negb (assertCsrf req)) (Redirect "/admin?page=contact&error=Invalid+session") ;;
  let enabled := parseEnabled (body_field req "enabled") in
  let number := asTrimmedString (body_field req "number") in
  let title := asTrimmedString (body_field req "title") in
  let description := asTrimmedString (body_field req "description") in
  let details :=
    take 12 (omap (fun d =>
      let icon := ats "icon" d in
      let label := ats "label" d in
      let value := ats "value" d in
      let href := ats "href" d in
      if Js.is_empty label || Js.is_empty value then None
      else Some (obj [("icon", JStr icon); ("label", JStr label); ("value", JStr value);
                      ("href", JStr href)]))
      (normalizeArray (body_field req "details"))) in
  let socials :=
    take 12 (omap (fun s =>
      let href := ats "href" s in
      let label := ats "label" s in
      let icon := ats "icon" s in
      if Js.is_empty href || Js.is_empty label then None
      else Some (obj [("href", JStr href); ("label", JStr label); ("icon", JStr icon)]))
      (normalizeArray (body_field req "socials"))) in
  let form := object_or_empty (body_field req "form") in
  let nameLabel := asTrimmedString (field "nameLabel" form) in
  let emailLabel := asTrimmedString (field "emailLabel" form) in
  let subjectLabel := asTrimmedString (field "subjectLabel" form) in
  let messageLabel := asTrimmedString (field "messageLabel" form) in
  let buttonLabel := asTrimmedString (field "buttonLabel" form) in
  reply_if (too_long number 10) (Redirect "/admin?page=contact&error=Number+too+long") ;;
  reply_if (Js.is_empty title) (Redirect "/admin?page=contact&error=Title+is+required") ;;
  reply_if (too_long title 60) (Redirect "/admin?page=contact&error=Title+too+long") ;;
  reply_if (too_long description 500)
           (Redirect "/admin?page=contact&error=Description+too+long") ;;
  site <- read_site "/admin?page=contact&error=Missing+site.json" ;;
  save_section "contact"
    [("enabled", JBool enabled); ("number", JStr number); ("title", JStr title);
     ("description", JStr description); ("details", JArr details);
     ("socials", JArr socials);
     ("form", obj [("nameLabel", JStr nameLabel); ("emailLabel", JStr emailLabel);
                   ("subjectLabel", JStr subjectLabel);
                   ("messageLabel", JStr messageLabel);
                   ("buttonLabel", JStr buttonLabel)])]
    site ;;
  h_ret (Redirect "/admin?page=contact&saved=1")).

(** [app.post('/admin/footer', requireAuth, ...)] *)
Definition post_admin_footer (req : request) : handler response :=
  requireAuth req (
  reply_if (negb (assertCsrf req)) (Redirect "/admin?page=footer&error=Invalid+session") ;;
  let enabled := parseEnabled (body_field req "enabled") in
  let logoText := asTrimmedString (body_field req "logoText") in
  let line1 := asTrimmedString (body_field req "line1") in
  let links :=
    take 12 (omap (fun l =>
      let href := ats "href" l in
      let icon := ats "icon" l in
      let label := ats "label" l in
      if Js.is_empty href || Js.is_empty label then None
      else Some (obj [("href", JStr href); ("icon", JStr icon); ("label", JStr label)]))
      (normalizeArray (body_field req "links"))) in
  reply_if (Js.is_empty logoText) (Redirect "/admin?page=footer&error=Logo+text+is+required") ;;
  reply_if (too_long logoText 80) (Redirect "/admin?page=footer&error=Logo+text+too+long") ;;
  reply_if (too_long line1 120) (Redirect "/admin?page=footer&error=Line+too+long") ;;
  site <- read_site "/admin?page=footer&error=Missing+site.json" ;;
  save_section "footer"
    [("enabled", JBool enabled); ("logoText", JStr logoText); ("line1", JStr line1);
     ("links", JArr links)]
    site ;;
  h_ret (Redirect "/admin?page=footer&saved=1")).

(** [String(v || '')] *)
Definition stringOrEmpty (v : raw) : string :=
  if raw_truthy v then to_String v else "".

(** [app.post('/admin/section/:id', requireAuth, ...)]. The section id has
    passed [EDITABLE_SECTIONS.has], so [encodeURIComponent] leaves it as it
    is. *)
Definition post_admin_section (req : request) : handler response :=
  requireAuth req (
  reply_if (negb (assertCsrf req)) (Redirect "/admin?error=Invalid+session") ;;
  let sectionId := param_id req in
  reply_if (negb (existsb (String.eqb sectionId) EDITABLE_SECTIONS))
           (Redirect "/admin?error=Unknown+section") ;;
  let raw := stringOrEmpty (body_field req "sectionJson") in
  match JSON_parse raw with
  | None => reply (Redirect ("/admin?page=" +:+ sectionId +:+ "&error=Invalid+JSON"))
  | Some (JObj parsed) =>
      site <- read_site "/admin?error=Missing+site.json" ;;
      let enabled := parseEnabled (body_field req "enabled") in
      let parsed :=
        if negb (String.eqb sectionId "meta") && negb (String.eqb sectionId "nav")
        then <["enabled" := JBool enabled]> parsed
        else parsed in
      await_write SITE_JSON_PATH (set_prop sectionId (JObj parsed) site) ;;
      h_ret (Redirect ("/admin?page=" +:+ sectionId +:+ "&saved=1"))
  | Some _ =>
      reply (Redirect ("/admin?page=" +:+ sectionId +:+ "&error=Section+must+be+an+object"))
  end).

(** [app.post('/admin/site', requireAuth, ...)]: the whole document is
    replaced by the submitted one. *)
Definition post_admin_site (req : request) : handler response :=
  requireAuth req (
  reply_if (negb (assertCsrf req)) (Redirect "/admin?error=Invalid+session") ;;
  let raw := stringOrEmpty (body_field req "siteJson") in
  match JSON_parse raw with
  | None => reply (Redirect "/admin?error=Invalid+JSON")
  | Some parsed =>
      reply_if (negb (truthy parsed) || negb (is_object_type parsed))
               (Redirect "/admin?error=Invalid+JSON") ;;
      reply_if (negb (truthy_opt (get "meta" parsed))
                || negb (truthy_opt (get "hero" parsed))
                || negb (truthy_opt (get "about" parsed)))
               (Redirect "/admin?error=Missing+required+fields") ;;
      await_write SITE_JSON_PATH parsed ;;
      h_ret (Redirect "/admin?page=raw&saved=1")
  end).

(** What [/api/contact] takes from outside the store: the random id, the
    clock, and how the mail goes. *)
Inductive mail_outcome : Type :=
| NoTransport                       (* buildMailer() returned null *)
| MissingEnv (name : string)        (* requireEnv threw *)
| MailSent
| MailFailed.

Record contact_env : Type := ContactEnv {
  submissionId : string;
  createdAt : string;
  mail : mail_outcome;
}.

(** [await appendSubmission(s)] and [await patchSubmission(id, patch)] *)
Definition await_promise (f : world -> promise * world) : handler unit :=
  fun w =>
    match f w with
    | (Fulfilled, w') => (inr tt, w')
    | (Rejected e, w') => (inl (Unhandled e), w')
    end.

Definition status_patch (status : string) : gmap string value :=
  {[ "status" := JStr status ]}.

(** [app.post('/api/contact', contactLimiter, ...)] *)
Definition post_api_contact (env : contact_env) (req : request) : handler response :=
  let name := trimmedOrEmpty (body_field req "name") in
  let email := trimmedOrEmpty (body_field req "email") in
  let subject := trimmedOrEmpty (body_field req "subject") in
  let message := trimmedOrEmpty (body_field req "message") in
  reply_if (Js.is_empty name || Js.is_empty email || Js.is_empty subject
            || Js.is_empty message)
           (SendJson 400 false "Missing required fields.") ;;
  reply_if (too_long name 80 || too_long email 160 || too_long subject 140
            || too_long message 4000)
           (SendJson 400 false "Input too long.") ;;
  reply_if (negb (is_email email)) (SendJson 400 false "Invalid email.") ;;
  await_promise (appendSubmission
    (obj [("id", JStr (submissionId env)); ("createdAt", JStr (createdAt env));
          ("name", JStr name); ("email", JStr email); ("subject", JStr subject);
          ("message", JStr message); ("status", JStr "received")])) ;;
  match mail env with
  | NoTransport =>
      await_promise (patchSubmission (submissionId env) (status_patch "email_not_configured")) ;;
      h_ret (SendJson 500 false "Email is not configured.")
  | MissingEnv name =>
      await_promise (patchSubmission (submissionId env) (status_patch "email_not_configured")) ;;
      h_ret (SendJson 500 false ("Missing required env var: " +:+ name))
  | MailSent =>
      await_promise (patchSubmission (submissionId env) (status_patch "sent")) ;;
      h_ret (SendJson 200 true "")
  | MailFailed =>
      await_promise (patchSubmission (submissionId env) (status_patch "send_failed")) ;;
      h_ret (SendJson 500 false "Failed to send email.")
  end.

(** The form routes, one per section. *)
Inductive form_route : Type :=
| RMeta | RNav | RHero | RAbout | RTechstack | RProjects | RCasestudies
| RExperience | RCertifications | RBlog | RGithub | RContact | RFooter.

Definition section_of (r : form_route) : string :=
  match r with
  | RMeta => "meta" | RNav => "nav" | RHero => "hero" | RAbout => "about"
  | RTechstack => "techstack" | RProjects => "projects"
  | RCasestudies => "casestudies" | RExperience => "experience"
  | RCertifications => "certifications" | RBlog => "blog" | RGithub => "github"
  | RContact => "contact" | RFooter => "footer"
  end.

Definition post_admin (r : form_route) : request -> handler response :=
  match r with
  | RMeta => post_admin_meta | RNav => post_admin_nav | RHero => post_admin_hero
  | RAbout => post_admin_about | RTechstack => post_admin_techstack
  | RProjects => post_admin_projects | RCasestudies => post_admin_casestudies
  | RExperience => post_admin_experience
  | RCertifications => post_admin_certifications | RBlog => post_admin_blog
  | RGithub => post_admin_github | RContact => post_admin_contact
  | RFooter => post_admin_footer
  end.

(** Where a form route redirects once the section is saved. *)
Definition saved_url (r : form_route) : string :=
  "/admin?page=" +:+ section_of r +:+ "&saved=1".



(** The text fields a route checks for length, as it reads them from the
    request, each with its maximum. *)
Definition top (k : string) (req : request) : string :=
  asTrimmedString (body_field req k).
Definition top_or_empty (k : string) (req : request) : string :=
  trimmedOrEmpty (body_field req k).


Definition contact_caps : list ((request -> string) * nat) :=
  [(top_or_empty "name", 80); (top_or_empty "email", 160);
   (top_or_empty "subject", 140); (top_or_empty "message", 4000)].

(** The fields a form route refuses to take empty. *)
Definition required (r : form_route) : list (request -> string) :=
  match r with
  | RNav | RFooter => [top "logoText"]
  | RHero => [top_or_empty "firstName"; top_or_empty "lastName"]
  | _ => [top "title"]
  end.

End Routes.

(* ================================================================== *)
(** ** The other routes and helpers *)
(* ================================================================== *)

(** Every route that writes the document: the thirteen forms, the
    per-section JSON route and the whole-document one. *)
Inductive admin_route : Type :=
| AForm (r : form_route)
| ASection
| ASite.

Section AdminRoutes.
Context `{JsonCodec}.

Definition post_admin_any (a : admin_route) : request -> handler response :=
  match a with
  | AForm r => post_admin r
  | ASection => post_admin_section
  | ASite => post_admin_site
  end.

End AdminRoutes.

(** The answer of a route that has saved. *)
Definition saved_reply (a : admin_route) (req : request) : response :=
  match a with
  | AForm r => Redirect (saved_url r)
  | ASection => Redirect ("/admin?page=" +:+ param_id req +:+ "&saved=1")
  | ASite => Redirect "/admin?page=raw&saved=1"
  end.

Section Enabled.
Context `{JsNumber}.

(** [isSectionEnabled(site, sectionId)] *)
Definition isSectionEnabled (site : value) (sectionId : string) : bool :=
  (* site && site[sectionId]: a falsy site is the section looked at *)
  match (if truthy site then get sectionId site else Some site) with
  | None => true
  | Some section =>
      if negb (truthy section) || negb (is_object_type section) then true
      else match get "enabled" section with
           | Some (JBool false) => false       (* section.enabled !== false *)
           | _ => true
           end
  end.

(** The sections counted by the dashboard of [GET /admin]. *)
Definition FLAGGED_SECTIONS : list string :=
  ["hero"; "about"; "techstack"; "projects"; "casestudies"; "experience";
   "certifications"; "blog"; "github"; "contact"; "footer"].

(** [counts.enabledSections] *)
Definition enabledSections (site : value) : nat :=
  length (List.filter (isSectionEnabled site) FLAGGED_SECTIONS).

End Enabled.

(** ** The mail body *)

Module Html.

(** The double quote and the apostrophe. *)
Definition QUOT : ascii := ascii_of_nat 34.
Definition APOS : ascii := ascii_of_nat 39.

(** [s.replaceAll(c, r)] for a one-character pattern [c] and a replacement
    [r] without dollar sign. *)
Fixpoint replaceAll (c : ascii) (r : string) (s : string) : string :=
  match s with
  | EmptyString => EmptyString
  | String a s' =>
      (if Ascii.eqb a c then r else String a EmptyString) +:+ replaceAll c r s'
  end.

(** [escapeHtml(s)] for a string [s]: the five passes, in the order of the
    source. *)
Definition escapeHtml (s : string) : string :=
  replaceAll APOS "&#39;"
    (replaceAll QUOT "&quot;"
       (replaceAll ">" "&gt;"
          (replaceAll "<" "&lt;"
             (replaceAll "&" "&amp;" s)))).

(** [escapeHtml(message).replaceAll('\n', '<br/>')] *)
Definition safeMessage (message : string) : string :=
  replaceAll Js.LF "<br/>" (escapeHtml message).

(** The characters the passes replace. *)
Definition is_special (a : ascii) : bool :=
  Ascii.eqb a "&" || Ascii.eqb a "<" || Ascii.eqb a ">" || Ascii.eqb a QUOT
  || Ascii.eqb a APOS.

End Html.

(** ** The base path *)

(** [p.slice(0, -1)] *)
Fixpoint drop_last (s : string) : string :=
  match s with
  | EmptyString => EmptyString
  | String a s' =>
      match s' with
      | EmptyString => EmptyString
      | _ => String a (drop_last s')
      end
  end.

(** [normalizeBasePath(basePath)] for a string, as [PUBLIC_BASE_PATH] is. *)
Definition normalizeBasePath (basePath : string) : string :=
  let raw := Js.trim basePath in
  if Js.is_empty raw || String.eqb raw "/" then ""
  else
    let p := if Js.startsWith "/" raw then raw else "/" +:+ raw in
    if Js.endsWith "/" p then drop_last p else p.

(** [withBasePath(p)] for a string [p], the module-level [BASE_PATH] being
    made an argument. *)
Definition withBasePath (BASE_PATH p : string) : string :=
  let pathPart := p in
  if Js.is_empty BASE_PATH then pathPart
  else BASE_PATH +:+ (if Js.startsWith "/" pathPart then "" else "/") +:+ pathPart.

(** ** Sessions and their token *)

(** [req.session]: whether a user is signed in, and the token. *)
Record session : Type := Session {
  sess_user : bool;
  sess_csrfToken : option string;
}.

(** [ensureCsrf(req)] on the session of the request ([None]: the request
    has no session); [fresh] is what
    [crypto.randomBytes(24).toString('hex')] would give. The result is the
    value returned ([None] for [null]) and the session afterwards. *)
Definition ensureCsrf (fresh : string) (s : option session)
  : option string * option session :=
  match s with
  | None => (None, None)
  | Some ss =>
      let missing :=                               (* !req.session.csrfToken *)
        match sess_csrfToken ss with
        | Some t => Js.is_empty t
        | None => true
        end in
      if missing then (Some fresh, Some (Session (sess_user ss) (Some fresh)))
      else (sess_csrfToken ss, s)
  end.

(** A request made on a session. *)
Definition on_session (ss : session) (body : gmap string raw) (id : string) : request :=
  Request (sess_user ss) (sess_csrfToken ss) body id.

(** ** The contact form, from the form to the log *)

Section ContactOutcome.
Context `{JsNumber}.

(** The record of a submission, as [/api/contact] writes it, with the
    status it has at a given moment. *)
Definition contact_record (env : contact_env) (req : request) (status : string) : value :=
  obj [("id", JStr (submissionId env)); ("createdAt", JStr (createdAt env));
       ("name", JStr (top_or_empty "name" req));
       ("email", JStr (top_or_empty "email" req));
       ("subject", JStr (top_or_empty "subject" req));
       ("message", JStr (top_or_empty "message" req));
       ("status", JStr status)].

End ContactOutcome.

(** The status [/api/contact] patches into the record, and its answer, for
    each way the mail can go. *)
Definition contact_status (m : mail_outcome) : string :=
  match m with
  | NoTransport | MissingEnv _ => "email_not_configured"
  | MailSent => "sent"
  | MailFailed => "send_failed"
  end.

Definition contact_reply (m : mail_outcome) : response :=
  match m with
  | NoTransport => SendJson 500 false "Email is not configured."
  | MissingEnv name => SendJson 500 false ("Missing required env var: " +:+ name)
  | MailSent => SendJson 200 true ""
  | MailFailed => SendJson 500 false "Failed to send email."
  end.

(** The four fields are there, within their caps, and the address has the
    shape of one. *)
Definition contact_valid (req : request) : bool :=
  forallb (fun c => negb (Js.is_empty (c.1 req)) && negb (too_long (c.1 req) c.2))
          contact_caps
  && is_email (top_or_empty "email" req).

Section ContactTry.
Context `{JsonCodec}.



End ContactTry.

(* ================================================================== *)
(** ** Signing in and the dashboard *)
(* ================================================================== *)

(** [hasUsersFile(users)] *)
Definition hasUsersFile `{JsNumber} (users : value) : bool :=
  match users with JArr (_ :: _) => true | _ => false end.

(** [(u) => u && u.username === username] *)
Definition has_username `{JsNumber} (username : string) (u : value) : bool :=
  truthy u &&
  match get "username" u with
  | Some (JStr x) => String.eqb x username
  | _ => false
  end.

(** What [POST /admin/login] does: the answer and, when it was set, the
    [username] of [req.session.user]; or the rejection of
    [bcrypt.compare]. *)
Inductive login_outcome : Type :=
| LoginAnswer (r : response) (user : option string)
| LoginCrash.

Section Login.
Context `{JsonCodec}.

(** [bcrypt.compare(password, hash)], awaited: [None] when it rejects;
    [hash] is [None] for [undefined]. *)
Variable bcrypt_compare : string -> option value -> option bool.

(** [app.post('/admin/login', loginLimiter, ...)], the limiter having let
    the request through. *)
Definition post_admin_login (req : request) (d : disk) : login_outcome :=
  if negb (assertCsrf req)
  then LoginAnswer (Redirect "/admin/login?error=Invalid+session") None
  else
    match readJson d USERS_JSON_PATH (JArr []) with
    | inl e => LoginAnswer (Unhandled e) None
    | inr users =>
        if negb (hasUsersFile users)
        then LoginAnswer (Redirect "/admin/login?error=No+admin+user+found") None
        else
          let username := trimmedOrEmpty (body_field req "username") in
          let password := stringOrEmpty (body_field req "password") in
          match List.find (has_username username)
                          (match users with JArr l => l | _ => [] end) with
          | None => LoginAnswer (Redirect "/admin/login?error=Invalid+credentials") None
          | Some user =>
              match bcrypt_compare password (get "passwordHash" user) with
              | None => LoginCrash
              | Some false =>
                  LoginAnswer (Redirect "/admin/login?error=Invalid+credentials") None
              | Some true => LoginAnswer (Redirect "/admin") (Some username)
              end
          end
    end.

End Login.

Definition EDITABLE_PAGES : list string :=
  ["dashboard"; "submissions"; "meta"; "nav"; "hero"; "about"; "techstack";
   "projects"; "casestudies"; "experience"; "certifications"; "blog"; "github";
   "contact"; "footer"; "raw"].

(** [activePage] of [GET /admin], from [req.query.page]. *)
Definition activePage (page_q : raw) : string :=
  let page := if raw_truthy page_q then to_String page_q else "dashboard" in
  if existsb (String.eqb page) EDITABLE_PAGES then page else "dashboard".

Section Dashboard.
Context `{JsNumber}.

(** [submissionsArr.slice(-10).reverse()] *)
Definition recentSubmissions (submissionsArr : list value) : list value :=
  reverse (lastn 10 submissionsArr).

(** [selectedSubmission] of [GET /admin], from [req.query.view]; [None] is
    [null]. *)
Definition selectedSubmission (view_q : raw) (submissionsArr : list value)
  : option value :=
  let viewSubmissionId := if raw_truthy view_q then to_String view_q else "" in
  if Js.is_empty viewSubmissionId then None
  else List.find (has_id viewSubmissionId) submissionsArr.

End Dashboard.

(* ================================================================== *)
(** ** A reference runtime *)
(* ================================================================== *)

(** An instance of the runtime interface, used to run the model on
    concrete requests: integers for numbers, and a printer and a parser for
    JSON texts indented by two spaces (strings with the short escapes for
    the quote, the backslash, LF, CR and TAB). *)
Module Ref.

(** The double quote, character 34. *)
Notation DQ := (Ascii false true false false false true false false).

Definition is_digit (a : ascii) : bool :=
  let n := nat_of_ascii a in Nat.leb 48 n && Nat.leb n 57.

(** The longest prefix of digits, and what follows it. *)
Fixpoint digits_of (s : string) : string * string :=
  match s with
  | String a s' =>
      if is_digit a
      then let '(ds, rest) := digits_of s' in (String a ds, rest)
      else (EmptyString, s)
  | EmptyString => (EmptyString, EmptyString)
  end.

Definition print_N (n : N) : string := NilZero.string_of_uint (N.to_uint n).

Definition print_Z (z : Z) : string :=
  match z with
  | Zneg p => "-" +:+ print_N (Npos p)
  | _ => print_N (Z.to_N z)
  end.

Definition parse_N (s : string) : option (N * string) :=
  let '(ds, rest) := digits_of s in
  match ds with
  | EmptyString => None
  | _ => match NilZero.uint_of_string ds with
         | Some d => Some (N.of_uint d, rest)
         | None => None
         end
  end.

Definition parse_Z (s : string) : option (Z * string) :=
  match s with
  | String "-" s' =>
      match parse_N s' with
      | Some (Npos p, rest) => Some (Zneg p, rest)
      | _ => None
      end
  | _ =>
      match parse_N s with
      | Some (n, rest) => Some (Z.of_N n, rest)
      | None => None
      end
  end.

#[export] Instance ref_number : JsNumber := {|
  number := Z;
  num_zero := 0%Z;
  num_is_zero := Z.eqb 0;
|}.

Definition TAB : ascii := ascii_of_nat 9.
Definition CR : ascii := ascii_of_nat 13.

Fixpoint escape (s : string) : string :=
  match s with
  | EmptyString => EmptyString
  | String a s' =>
      if Ascii.eqb a DQ then String "\" (String DQ (escape s'))
      else if Ascii.eqb a "\" then String "\" (String "\" (escape s'))
      else if Ascii.eqb a Js.LF then String "\" (String "n" (escape s'))
      else if Ascii.eqb a CR then String "\" (String "r" (escape s'))
      else if Ascii.eqb a TAB then String "\" (String "t" (escape s'))
      else String a (escape s')
  end.

Definition quote (s : string) : string := String DQ (escape s +:+ String DQ EmptyString).

Definition unescape (a : ascii) : option ascii :=
  if Ascii.eqb a DQ then Some DQ
  else if Ascii.eqb a "\" then Some "\"%char
  else if Ascii.eqb a "n" then Some Js.LF
  else if Ascii.eqb a "r" then Some CR
  else if Ascii.eqb a "t" then Some TAB
  else None.

(** The text after an opening quote, up to the closing one. *)
Fixpoint parse_chars (s : string) : option (string * string) :=
  match s with
  | EmptyString => None
  | String a s' =>
      if Ascii.eqb a DQ then Some (EmptyString, s')
      else if Ascii.eqb a "\" then
        match s' with
        | String e s'' =>
            match unescape e, parse_chars s'' with
            | Some c, Some (str, rest) => Some (String c str, rest)
            | _, _ => None
            end
        | EmptyString => None
        end
      else
        match parse_chars s' with
        | Some (str, rest) => Some (String a str, rest)
        | None => None
        end
  end.

Fixpoint spaces (n : nat) : string :=
  match n with 0 => EmptyString | S n' => String " " (spaces n') end.

(** A line feed and the indentation of the next line. *)
Definition nl (ind : nat) : string := String Js.LF (spaces ind).

(** The items of a non-empty array or object, one per line. *)
Fixpoint lines_of (ind : nat) (items : list string) : string :=
  match items with
  | [] => EmptyString
  | [x] => x
  | x :: rest => x +:+ "," +:+ nl ind +:+ lines_of ind rest
  end.

Definition member (kv : string * string) : string := quote kv.1 +:+ ": " +:+ kv.2.

Fixpoint print (ind : nat) (v : value) : string :=
  match v with
  | JNull => "null"
  | JBool true => "true"
  | JBool false => "false"
  | JNum n => print_Z n
  | JStr s => quote s
  | JArr l =>
      match l with
      | [] => "[]"
      | _ => "[" +:+ nl (ind + 2) +:+ lines_of (ind + 2) (map (print (ind + 2)) l)
             +:+ nl ind +:+ "]"
      end
  | JObj o =>
      match map_to_list (print (ind + 2) <$> o) with
      | [] => "{}"
      | ms => "{" +:+ nl (ind + 2) +:+ lines_of (ind + 2) (map member ms)
              +:+ nl ind +:+ "}"
      end
  end.

Fixpoint skip_ws (s : string) : string :=
  match s with
  | String a s' => if Js.is_space a then skip_ws s' else s
  | EmptyString => EmptyString
  end.

(** [expect p s]: [s] without its prefix [p]. *)
Fixpoint expect (p s : string) : option string :=
  match p, s with
  | EmptyString, _ => Some s
  | String a p', String b s' => if Ascii.eqb a b then expect p' s' else None
  | _, EmptyString => None
  end.

Definition is_digit_or_minus (a : ascii) : bool := is_digit a || Ascii.eqb a "-".

(** Recursive descent; [fuel] bounds the number of nested calls. Elements
    and members are read after the opening bracket and up to the closing
    one. *)
Fixpoint parse_value (fuel : nat) (s : string) : option (value * string) :=
  match fuel with
  | 0 => None
  | S fuel' =>
      match skip_ws s with
      | EmptyString => None
      | String a r =>
          if is_digit_or_minus a then
            '(z, r') ← parse_Z (String a r); Some (JNum z, r')
          else if Ascii.eqb a "n" then r' ← expect "ull" r; Some (JNull, r')
          else if Ascii.eqb a "t" then r' ← expect "rue" r; Some (JBool true, r')
          else if Ascii.eqb a "f" then r' ← expect "alse" r; Some (JBool false, r')
          else if Ascii.eqb a DQ then
            '(str, r') ← parse_chars r; Some (JStr str, r')
          else if Ascii.eqb a "[" then
            match skip_ws r with
            | String b r' =>
                if Ascii.eqb b "]" then Some (JArr [], r')
                else '(l, r') ← parse_elems fuel' r; Some (JArr l, r')
            | EmptyString => None
            end
          else if Ascii.eqb a "{" then
            match skip_ws r with
            | String "}" r' => Some (JObj ∅, r')
            | _ =>
                '(ms, r') ← parse_members fuel' r;
                Some (JObj (list_to_map (reverse ms)), r')   (* the last duplicate wins *)
            end
          else None
      end
  end
with parse_elems (fuel : nat) (s : string) : option (list value * string) :=
  match fuel with
  | 0 => None
  | S fuel' =>
      '(v, r) ← parse_value fuel' s;
      match skip_ws r with
      | String "," r' => '(l, r'') ← parse_elems fuel' r'; Some (v :: l, r'')
      | String "]" r' => Some ([v], r')
      | _ => None
      end
  end
with parse_members (fuel : nat) (s : string) : option (list (string * value) * string) :=
  match fuel with
  | 0 => None
  | S fuel' =>
      match skip_ws s with
      | String DQ r =>
          '(k, r1) ← parse_chars r;
          match skip_ws r1 with
          | String ":" r2 =>
              '(v, r3) ← parse_value fuel' r2;
              match skip_ws r3 with
              | String "," r4 => '(ms, r5) ← parse_members fuel' r4; Some ((k, v) :: ms, r5)
              | String "}" r4 => Some ([(k, v)], r4)
              | _ => None
              end
          | _ => None
          end
      | _ => None
      end
  end.

Definition parse (s : string) : option value :=
  match parse_value (S (String.length s)) s with
  | Some (v, rest) =>
      match skip_ws rest with
      | EmptyString => Some v
      | _ => None
      end
  | None => None
  end.

(** The number of constructors of a value. *)
Fixpoint vsize (v : value) : nat :=
  match v with
  | JArr l => S (list_sum (map vsize l))
  | JObj o => S (map_fold (fun _ x acc => vsize x + acc) 0 o)
  | _ => 1
  end.

#[export] Instance ref_codec : JsonCodec := {|
  JSON_stringify := print 0;
  JSON_parse := parse;
  Number_finite s :=
    match parse_Z s with
    | Some (z, EmptyString) => Some z
    | _ => None
    end;
|}.

(** Predicates on texts used to state what the parser reads back. *)
Definition all_digits (s : string) : Prop :=
  Forall (fun a => is_digit a = true) (list_ascii_of_string s).

Definition no_digit_ahead (s : string) : Prop :=
  match s with String a _ => is_digit a = false | EmptyString => True end.

Definition all_space (s : string) : Prop :=
  Forall (fun a => Js.is_space a = true) (list_ascii_of_string s).

Definition value_start (a : ascii) : bool :=
  is_digit_or_minus a
  || Ascii.eqb a "n" || Ascii.eqb a "t" || Ascii.eqb a "f"
  || Ascii.eqb a DQ || Ascii.eqb a "[" || Ascii.eqb a "{".

(** The parser reads back the printed [v], whatever the indentation, the
    white space before it and the text after it, given fuel for its
    length. *)
Definition parses (v : value) : Prop :=
  forall ind ws rest fuel,
    all_space ws -> no_digit_ahead rest ->
    String.length (ws +:+ print ind v) < fuel ->
    parse_value fuel (ws +:+ print ind v +:+ rest) = Some (v, rest).

End Ref.

(* ================================================================== *)
(** ** Sample data *)
(* ================================================================== *)

(** A small document, a session, and a few requests, on the reference
    runtime. *)
Module Sample.
Import Ref.

Definition token : string := "f3a9c2".

(** A form posted by the signed-in administrator. *)
Definition form (id : string) (fields : list (string * raw)) : request :=
  Request true (Some token) (<["_csrf" := RStr token]> (list_to_map fields)) id.

Definition meta0 : gmap string value :=
  <["title" := JStr "Portfolio"]> {[ "keywords" := JStr "design, code" ]}.

Definition hero0 : gmap string value :=
  <["badge" := JStr "open to work"]>
    (<["enabled" := JBool false]> {[ "firstName" := JStr "Ada" ]}).

Definition site0 : gmap string value :=
  <["meta" := JObj meta0]> {[ "hero" := JObj hero0 ]}.

Definition disk0 : disk :=
  Disk {[ SITE_JSON_PATH := JSON_stringify (JObj site0) +:+ Js.NL ]} ∅.

Definition w0 : world := World disk0 Fulfilled.

(** The same disk when the device has no room left for the temporary file
    of the submission log. *)
Definition disk_full : disk :=
  Disk (files disk0)
       {[ (fs_kind_code KWriteFile, SUBMISSIONS_JSON_PATH +:+ ".tmp") := "ENOSPC" ]}.

Definition w_full : world := World disk_full Fulfilled.

(** A disk on which the document cannot be read. *)
Definition disk_locked : disk :=
  Disk (files disk0) {[ (fs_kind_code KRead, SITE_JSON_PATH) := "EACCES" ]}.

Definition submission (id status : string) : gmap string value :=
  <["id" := JStr id]> {[ "status" := JStr status ]}.

Definition log0 : list value :=
  [JObj (submission "s1" "queued"); JObj (submission "s2" "queued")].

Definition disk_log : disk :=
  Disk {[ SUBMISSIONS_JSON_PATH := JSON_stringify (JArr log0) +:+ Js.NL ]} ∅.

Definition w_log : world := World disk_log Fulfilled.

(** A disk whose document does not parse. *)
Definition disk_garbled : disk := Disk {[ SITE_JSON_PATH := "{ title: " ]} ∅.

Definition num (n : Z) : value := @JNum ref_number n.

(** Three hundred records, numbered in order of arrival. *)
Definition subs300 : list value := map (fun i => num (Z.of_nat i)) (seq 0 300).





(** [/admin/meta] with a new title. *)
Definition req_meta : request := form "" [("title", RStr "  Ada Lovelace  ")].




Definition env0 : contact_env := ContactEnv "m1" "2024-05-01T10:00:00.000Z" MailSent.

(** [/admin/section/hero] with the payload [{ title: ..., enabled: false }]
    and the box ticked. *)
Definition payload_hero : gmap string value :=
  <["title" := JStr "Hello"]> {[ "enabled" := JBool false ]}.

Definition req_section_hero : request :=
  form "hero" [("sectionJson", RStr (JSON_stringify (JObj payload_hero)));
               ("enabled", RArr [RStr "0"; RStr " 1 "])].



End Sample.

(* ================================================================== *)
(** ** More sample data *)
(* ================================================================== *)

Module Cases.
Import Ref.

(** A disk whose submission log is not JSON. *)
Definition disk_bad_log : disk := Disk {[ SUBMISSIONS_JSON_PATH := "<html>" ]} ∅.

Definition w_bad_log : world := World disk_bad_log Fulfilled.

Definition w_garbled : world := World Sample.disk_garbled Fulfilled.

(** A visitor, and an administrator whose form lacks the token. *)
Definition req_visitor : request := Request false None ∅ "".

Definition req_no_token : request :=
  Request true (Some Sample.token) {[ "title" := RStr "Ada" ]} "".

(** [/admin/hero] with a first name of white space. *)
Definition req_blank_name : request :=
  Sample.form "" [("firstName", RStr "   "); ("lastName", RStr "Lovelace")].

(** A whole document, and [/admin/site] submitting it. *)
Definition doc1 : gmap string value :=
  <["meta" := JObj Sample.meta0]>
    (<["hero" := JObj Sample.hero0]> {[ "about" := JObj {[ "title" := JStr "About" ]} ]}).

Definition req_site : request :=
  Sample.form "" [("siteJson", RStr (JSON_stringify (JObj doc1)))].

(** [/admin/nav] with a good link, and one whose id has a space. *)
Definition req_nav : request :=
  Sample.form ""
    [("logoText", RStr " AL ");
     ("links", RArr [RObj (<["id" := RStr "about"]> {[ "label" := RStr " About " ]});
                     RObj (<["id" := RStr "my work"]> {[ "label" := RStr "Work" ]})])].

(** Two messages for [/api/contact]: a good one, and one whose address has
    no dot after the at sign. *)
Definition contact (email : string) : request :=
  Request false None
    (list_to_map [("name", RStr "  Ada "); ("email", RStr email);
                  ("subject", RStr "Hello"); ("message", RStr "A note.")]) "".

Definition req_contact : request := contact "ada@example.org".

Definition s3 : value := JObj (Sample.submission "s3" "received").

End Cases.

(* ================================================================== *)
(** * Properties *)
(* ================================================================== *)

(** ** The store *)

Lemma string_length_app (s t : string) :
  String.length (s +:+ t) = String.length s + String.length t.
Proof. induction s as [|a s IH]; simpl; [done | by rewrite IH]. Qed.

(** The temporary sibling is never the target itself. *)
Lemma tmp_path_ne (p : string) : p +:+ ".tmp" ≠ p.
Proof.
  intros Heq. apply (f_equal String.length) in Heq.
  rewrite string_length_app in Heq. simpl in Heq. lia.
Qed.

Lemma exec_call_faults (c : fs_call) (d d' : disk) :
  exec_call c d = inr d' -> faults d' = faults d.
Proof.
  destruct c; simpl; unfold fs_mkdir, fs_writeFile, fs_rename;
    repeat case_match; intros; simplify_eq; done.
Qed.

Lemma run_calls_faults (cs : list fs_call) (d d' : disk) (r : promise) :
  run_calls cs d = (r, d') -> faults d' = faults d.
Proof.
  revert d. induction cs as [|c cs IH]; intros d; simpl.
  - by intros [= _ <-].
  - destruct (exec_call c d) as [e|d1] eqn:Hc.
    + by intros [= _ <-].
    + intros Hrun. rewrite (IH _ Hrun). by eapply exec_call_faults.
Qed.

Section StoreFacts.
Context `{JsonCodec}.

(** A fulfilled write leaves the serialised value, and nothing else new,
    at the target. *)
Lemma write_body_fulfilled (p : string) (v : value) (d d' : disk) :
  run_calls (write_body p v) d = (Fulfilled, d') ->
  files d' = <[p := JSON_stringify v +:+ Js.NL]> (delete (p +:+ ".tmp") (files d)).
Proof.
  unfold write_body, run_calls, exec_call, fs_mkdir, fs_writeFile, fs_rename, fault.
  simpl.
  destruct (faults d !! (1, dirname p)); [done|].
  destruct (faults d !! (2, p +:+ ".tmp")); [done|]. simpl.
  destruct (faults d !! (3, p)); [done|]. rewrite lookup_insert_eq.
  intros [= <-]. simpl. by rewrite delete_insert_eq.
Qed.

(** A rejected write leaves the target as it was: it may have left the
    temporary sibling behind, nothing more. *)
Lemma write_body_rejected (p : string) (v : value) (d d' : disk) (e : error) :
  run_calls (write_body p v) d = (Rejected e, d') ->
  files d' !! p = files d !! p.
Proof.
  unfold write_body, run_calls, exec_call, fs_mkdir, fs_writeFile, fs_rename, fault.
  simpl.
  destruct (faults d !! (1, dirname p)); [by intros [= _ <-]|].
  destruct (faults d !! (2, p +:+ ".tmp")); [by intros [= _ <-]|]. simpl.
  destruct (faults d !! (3, p)).
  - intros [= _ <-]. simpl. by rewrite lookup_insert_ne by apply tmp_path_ne.
  - rewrite lookup_insert_eq. done.
Qed.

Lemma healthy_faults (d d' : disk) (p : string) :
  faults d' = faults d -> healthy d' p = healthy d p.
Proof. intros Hf. unfold healthy, fault. by rewrite Hf. Qed.

(** On a healthy disk the body of a write runs to its end. *)
Lemma write_body_healthy (p : string) (v : value) (d d' : disk) (r : promise) :
  healthy d p = true -> run_calls (write_body p v) d = (r, d') -> r = Fulfilled.
Proof.
  unfold healthy, write_body, run_calls, exec_call, fs_mkdir, fs_writeFile, fs_rename.
  destruct (fault d KMkdir (dirname p)) eqn:Hm; [done|].
  destruct (fault d KWriteFile (p +:+ ".tmp")) eqn:Hw; [done|].
  destruct (fault d KRename p) eqn:Hr; [done|]. intros _.
  unfold fault in *. cbn [files faults]. rewrite Hr, lookup_insert_eq.
  by intros [= <- _].
Qed.

Lemma writeJsonAtomic_faults (p : string) (v : value) (w w' : world) (r : promise) :
  writeJsonAtomic p v w = (r, w') -> faults (w_disk w') = faults (w_disk w).
Proof.
  unfold writeJsonAtomic. destruct (writeQueue w).
  - destruct (run_calls _ _) as [r1 d1] eqn:Hrun. intros [= _ <-]. simpl.
    by eapply run_calls_faults.
  - by intros [= _ <-].
Qed.

Lemma writeJsonAtomic_fulfilled (p : string) (v : value) (w w' : world) :
  writeJsonAtomic p v w = (Fulfilled, w') ->
  writeQueue w = Fulfilled /\ writeQueue w' = Fulfilled
  /\ files (w_disk w') !! p = Some (JSON_stringify v +:+ Js.NL).
Proof.
  unfold writeJsonAtomic. destruct (writeQueue w) eqn:Hq; [|done].
  destruct (run_calls _ _) as [r1 d1] eqn:Hrun. intros [= -> <-]. simpl.
  split; [done|]. split; [done|].
  rewrite (write_body_fulfilled _ _ _ _ Hrun). by rewrite lookup_insert_eq.
Qed.

(** Whatever a write does, the promise it returns is the new queue. *)
Lemma writeJsonAtomic_queue (p : string) (v : value) (w w' : world) (r : promise) :
  writeJsonAtomic p v w = (r, w') -> writeQueue w' = r.
Proof.
  unfold writeJsonAtomic. destruct (writeQueue w) eqn:Hq.
  - destruct (run_calls _ _) as [r1 d1]. by intros [= <- <-].
  - by intros [= <- <-].
Qed.

Lemma writeJsonAtomic_rejected (p : string) (v : value) (w w' : world) (e : error) :
  writeJsonAtomic p v w = (Rejected e, w') ->
  files (w_disk w') !! p = files (w_disk w) !! p.
Proof.
  unfold writeJsonAtomic. destruct (writeQueue w) eqn:Hq.
  - destruct (run_calls _ _) as [r1 d1] eqn:Hrun. intros [= -> <-]. simpl.
    by eapply write_body_rejected.
  - by intros [= _ <-].
Qed.

(** What [readJson] returns once the file holds a serialised value. *)
Lemma readJson_stored `{!JsonLawful} (d : disk) (p : string) (v fallback : value) :
  fault d KRead p = None ->
  files d !! p = Some (JSON_stringify v +:+ Js.NL) ->
  readJson d p fallback = inr v.
Proof.
  intros Hf Hp. unfold readJson, fs_readFile. rewrite Hf, Hp.
  by rewrite parse_stringify.
Qed.

(** C5. [readJson] returns the fallback, without throwing, when the file
    does not exist and when its contents do not parse; any other failure of
    the read (a permission error, say) is thrown to the caller. *)
Theorem readJson_fallback_or_throw (d : disk) (filePath : string) (fallback : value) :
  (fault d KRead filePath = None -> files d !! filePath = None ->
     readJson d filePath fallback = inr fallback)
  /\ (forall raw, fs_readFile d filePath = inr raw -> JSON_parse raw = None ->
        readJson d filePath fallback = inr fallback)
  /\ (forall code, fs_readFile d filePath = inl (FsError code) -> code ≠ "ENOENT" ->
        readJson d filePath fallback = inl (FsError code)).
Proof.
  unfold readJson. split; [|split].
  - intros Hf Hp. unfold fs_readFile. by rewrite Hf, Hp.
  - intros raw -> ->. done.
  - intros code -> Hne. apply String.eqb_neq in Hne. by rewrite Hne.
Qed.

(** C2. A write that completed, followed by a read of the same path,
    returns the written document, whatever the fallback; and a write
    completes when the queue has not failed and none of its calls is set to
    fail. *)
Theorem write_then_read `{!JsonLawful} (filePath : string) (D fallback : value)
    (w : world) :
  fault (w_disk w) KRead filePath = None ->
  (forall w', writeJsonAtomic filePath D w = (Fulfilled, w') ->
     readJson (w_disk w') filePath fallback = inr D)
  /\ (writeQueue w = Fulfilled -> healthy (w_disk w) filePath = true ->
      (writeJsonAtomic filePath D w).1 = Fulfilled).
Proof.
  intros Hf. split.
  - intros w' Hw.
    destruct (writeJsonAtomic_fulfilled _ _ _ _ Hw) as (_ & _ & Hfile).
    apply readJson_stored; [|done].
    unfold fault in *. by rewrite (writeJsonAtomic_faults _ _ _ _ _ Hw).
  - intros Hq Hh. unfold writeJsonAtomic. rewrite Hq.
    destruct (run_calls (write_body filePath D) (w_disk w)) as [r d'] eqn:Hrun.
    simpl. by eapply write_body_healthy.
Qed.

(** C1, as the code has it. The queue does not advance past a failure: once
    a queued write has failed, every write chained after it is rejected
    with the error of the failed one, and its body is not run, whatever
    file it is for. *)
Theorem failed_write_blocks_queue (p1 p2 : string) (v1 v2 : value)
    (w w1 w2 : world) (e : error) (r : promise) :
  writeJsonAtomic p1 v1 w = (Rejected e, w1) ->
  writeJsonAtomic p2 v2 w1 = (r, w2) ->
  r = Rejected e /\ w2 = w1.
Proof.
  intros H1 H2. apply writeJsonAtomic_queue in H1.
  unfold writeJsonAtomic in H2. rewrite H1 in H2. by simplify_eq.
Qed.

End StoreFacts.

(** ** The promise chain *)



Section ChainFacts.
Context `{JsonCodec}.

Implicit Types (ts : list task) (t : task) (d : disk) (q r : promise).














(** Behind a rejected promise nothing runs: every operation is skipped
    with the same error and the disk is not touched. *)
Lemma consistent_rejected e d ts d' :
  consistent (Rejected e) d ts d' ->
  d' = d /\ Forall (fun t => t_state t = Waiting \/ t_state t = Done (Rejected e)) ts.
Proof.
  intros Hc. remember (Rejected e) as q eqn:Hq. revert Hq.
  induction Hc as [q d ts Hall | q d t0 ts r d1 d' Ht0 Hs _ IH | d t0 ts pre rest d' Ht0 Hb Hr Hall];
    intros Hq; [| |done]; subst q.
  - split; [done|]. eapply Forall_impl; [done|]. naive_solver.
  - simpl in Hs. simplify_eq. destruct (IH eq_refl) as [-> Hall].
    split; [done|]. constructor; [by right | done].
Qed.















End ChainFacts.

(** ** The submission log *)

Lemma lastn_length {A} (n : nat) (l : list A) : length (lastn n l) = Nat.min n (length l).
Proof. unfold lastn. rewrite length_drop. lia. Qed.

Lemma lastn_app_lastn {A} (n : nat) (l1 l2 : list A) :
  lastn n (lastn n l1 ++ l2) = lastn n (l1 ++ l2).
Proof.
  unfold lastn. rewrite !length_app, length_drop.
  destruct (decide (length l1 <= n)) as [Hle|Hgt].
  - replace (length l1 - n) with 0 by lia. simpl. do 2 f_equal. lia.
  - replace (length l1 - (length l1 - n) + length l2 - n) with (length l2) by lia.
    replace (length l1 + length l2 - n) with ((length l1 - n) + length l2) by lia.
    rewrite <-drop_drop. f_equal. rewrite drop_app_le by lia. done.
Qed.


Lemma findIndex_first {A} (p : A -> bool) (l : list A) (i : nat) (x : A) :
  l !! i = Some x -> p x = true ->
  (forall j y, j < i -> l !! j = Some y -> p y = false) ->
  findIndex p l = Some i.
Proof.
  revert i. induction l as [|a l IH]; intros [|i]; simpl; try done.
  - by intros [= ->] ->.
  - intros Hi Hpx Hbefore. rewrite (Hbefore 0 a) by (done || lia).
    rewrite (IH i); [done | done | done |].
    intros j y Hj Hy. apply (Hbefore (S j) y); [lia | done].
Qed.

Section LogFacts.
Context `{JsonCodec} `{!JsonLawful}.

Lemma load_log_files (d d' : disk) :
  faults d' = faults d ->
  files d' !! SUBMISSIONS_JSON_PATH = files d !! SUBMISSIONS_JSON_PATH ->
  load_log d' = load_log d.
Proof.
  intros Hf Hp. unfold load_log, readJson, fs_readFile, fault. by rewrite Hf, Hp.
Qed.

Lemma load_log_stored (d : disk) (l : list value) :
  fault d KRead SUBMISSIONS_JSON_PATH = None ->
  files d !! SUBMISSIONS_JSON_PATH = Some (JSON_stringify (JArr l) +:+ Js.NL) ->
  load_log d = inr l.
Proof.
  intros Hf Hp. unfold load_log. by rewrite (readJson_stored _ _ (JArr l)).
Qed.

Lemma load_log_readJson (d : disk) (l : list value) :
  load_log d = inr l ->
  exists current, readJson d SUBMISSIONS_JSON_PATH (JArr []) = inr current
    /\ l = match current with JArr l => l | _ => [] end.
Proof.
  unfold load_log. destruct (readJson _ _ _) as [e|current]; [done|].
  intros Hl. exists current. split; [done|]. by destruct current; simplify_eq.
Qed.

(** After a write to the log: the written list when it was fulfilled, the
    old one when it was rejected. *)
Lemma write_log (l0 l : list value) (w w' : world) (r : promise) :
  fault (w_disk w) KRead SUBMISSIONS_JSON_PATH = None ->
  load_log (w_disk w) = inr l0 ->
  writeJsonAtomic SUBMISSIONS_JSON_PATH (JArr l) w = (r, w') ->
  fault (w_disk w') KRead SUBMISSIONS_JSON_PATH = None
  /\ load_log (w_disk w') = inr (match r with Fulfilled => l | Rejected _ => l0 end).
Proof.
  intros Hf Hl0 Hw.
  pose proof (writeJsonAtomic_faults _ _ _ _ _ Hw) as Hfaults.
  assert (fault (w_disk w') KRead SUBMISSIONS_JSON_PATH = None) as Hf'.
  { unfold fault in *. by rewrite Hfaults. }
  split; [done|]. destruct r as [|e].
  - apply load_log_stored; [done|].
    by destruct (writeJsonAtomic_fulfilled _ _ _ _ Hw) as (_ & _ & ?).
  - rewrite <-Hl0. apply load_log_files; [done|].
    by eapply writeJsonAtomic_rejected.
Qed.

(** One append: the record goes last and the list is cut from the front. *)
Lemma appendSubmission_log (s : value) (l0 : list value) (w w' : world) (r : promise) :
  fault (w_disk w) KRead SUBMISSIONS_JSON_PATH = None ->
  load_log (w_disk w) = inr l0 ->
  appendSubmission s w = (r, w') ->
  fault (w_disk w') KRead SUBMISSIONS_JSON_PATH = None
  /\ load_log (w_disk w') =
       inr (match r with Fulfilled => lastn 250 (l0 ++ [s]) | Rejected _ => l0 end).
Proof.
  intros Hf Hl0 Ha. unfold appendSubmission in Ha.
  destruct (load_log_readJson _ _ Hl0) as (current & Hread & ->).
  rewrite Hread in Ha. cbv zeta in Ha.
  set (l0 := match current with JArr l => l | _ => [] end) in *.
  assert ((if Nat.ltb 250 (length (l0 ++ [s]))
           then drop (length (l0 ++ [s]) - 250) (l0 ++ [s]) else (l0 ++ [s])%list)
          = lastn 250 (l0 ++ [s])) as Hkeep.
  { unfold lastn. destruct (Nat.ltb_spec 250 (length (l0 ++ [s]))); [done|].
    by replace (length (l0 ++ [s]) - 250) with 0 by lia. }
  rewrite Hkeep in Ha.
  destruct (write_log l0 _ _ _ _ Hf Hl0 Ha) as [Hf' Hl']. split; [done|].
  rewrite Hl'. by destruct r.
Qed.

Lemma appendAll_log (subs l0 : list value) (w w' : world) (r : promise) :
  fault (w_disk w) KRead SUBMISSIONS_JSON_PATH = None ->
  load_log (w_disk w) = inr l0 ->
  appendAll subs w = (r, w') ->
  exists l', load_log (w_disk w') = inr l'
    /\ (length l0 <= 250 -> length l' <= 250)
    /\ (r = Fulfilled ->
        l' = match subs with [] => l0 | _ => lastn 250 (l0 ++ subs) end).
Proof.
  revert l0 w. induction subs as [|s subs IH]; intros l0 w Hf Hl0; simpl.
  - intros [= <- <-]. by exists l0.
  - destruct (appendSubmission s w) as [r1 w1] eqn:Ha.
    destruct (appendSubmission_log _ _ _ _ _ Hf Hl0 Ha) as [Hf1 Hl1].
    destruct r1 as [|e].
    + intros Hrest. destruct (IH _ _ Hf1 Hl1 Hrest) as (l' & Hl' & Hlen & Heq).
      exists l'. split; [done|]. split.
      * intros _. apply Hlen. rewrite lastn_length. lia.
      * intros Hr. rewrite (Heq Hr). destruct subs as [|s2 subs]; [done|].
        rewrite lastn_app_lastn. by rewrite <-app_assoc.
    + intros [= <- <-]. exists l0. by split.
Qed.

(** C4. Appends made one after the other: a log within the bound stays
    within it; what is kept after fulfilled appends is the old log followed
    by the new records, cut from the front down to 250; after 300 of them
    the log is exactly the last 250 records appended, in order. *)
Theorem append_keeps_last_250 (subs l0 : list value) (w w' : world) (r : promise) :
  fault (w_disk w) KRead SUBMISSIONS_JSON_PATH = None ->
  load_log (w_disk w) = inr l0 ->
  appendAll subs w = (r, w') ->
  exists l', load_log (w_disk w') = inr l'
    /\ (length l0 <= 250 -> length l' <= 250)
    /\ (r = Fulfilled -> subs ≠ [] ->
        l' = drop (length (l0 ++ subs) - 250) (l0 ++ subs))
    /\ (r = Fulfilled -> length subs = 300 ->
        l' = drop 50 subs /\ length l' = 250).
Proof.
  intros Hf Hl0 Ha.
  destruct (appendAll_log _ _ _ _ _ Hf Hl0 Ha) as (l' & Hl' & Hlen & Heq).
  exists l'. split; [done|]. split; [done|]. split.
  - intros Hr Hne. rewrite (Heq Hr). by destruct subs.
  - intros Hr H300. rewrite (Heq Hr).
    destruct subs as [|s subs]; [done|]. unfold lastn.
    rewrite length_app, H300.
    replace (length l0 + 300 - 250) with (length l0 + 50) by lia.
    rewrite drop_app_add'  by done. split; [done|].
    rewrite length_drop. lia.
Qed.

Lemma has_id_obj (id : string) (rec : gmap string value) :
  rec !! "id" = Some (JStr id) -> has_id id (JObj rec) = true.
Proof. intros Hid. unfold has_id. simpl. by rewrite Hid, String.eqb_refl. Qed.


End LogFacts.

(** ** The icon/label lines *)

Lemma split_first_None (c : ascii) (s b : string) :
  split_first c s = (b, None) -> b = s.
Proof.
  revert b. induction s as [|a s IH]; intros b; simpl.
  - by intros [= <-].
  - destruct (Ascii.eqb a c); [done|].
    destruct (split_first c s) as [b' r']. intros [= <- ->]. by rewrite (IH b').
Qed.

(** Splitting on every [c] is splitting on the first one, then splitting
    what follows. *)
Lemma split_split_first (c : ascii) (s : string) :
  Js.split c s =
  (split_first c s).1 ::
    match (split_first c s).2 with Some rem => Js.split c rem | None => [] end.
Proof.
  induction s as [|a s IH]; simpl; [done|].
  destruct (Ascii.eqb a c); [done|].
  rewrite IH. by destruct (split_first c s) as [b [rem|]].
Qed.

Lemma trimEnd_idem (s : string) : Js.trimEnd (Js.trimEnd s) = Js.trimEnd s.
Proof.
  induction s as [|a s IH]; simpl; [done|].
  destruct (Js.trimEnd s) as [|b r] eqn:Hs.
  - destruct (Js.is_space a) eqn:Ha; simpl; [done | by rewrite Ha].
  - simpl in *. by rewrite IH.
Qed.

Lemma trimStart_trimEnd (s : string) :
  Js.trimStart (Js.trimEnd (Js.trimStart s)) = Js.trimEnd (Js.trimStart s).
Proof.
  induction s as [|a s IH]; simpl; [done|].
  destruct (Js.is_space a) eqn:Ha; [done|]. simpl.
  destruct (Js.trimEnd s); simpl; rewrite ?Ha; simpl; by rewrite ?Ha.
Qed.

Lemma trim_idem (s : string) : Js.trim (Js.trim s) = Js.trim s.
Proof. unfold Js.trim. by rewrite trimStart_trimEnd, trimEnd_idem. Qed.

Lemma iconLabelOfLine_normalised (line : string) :
  iconLabelOfLine line = normalised_iconLabelOfLine line.
Proof.
  unfold iconLabelOfLine, normalised_iconLabelOfLine.
  rewrite split_split_first. by destruct (split_first "|" line) as [b [rem|]].
Qed.

(** C8, as the code has it. The lines are cut at their first bar: the icon
    is the trimmed text before it, the label comes from the remainder,
    whose pieces between further bars are trimmed and joined again by
    [" | "]; a line with neither icon nor label is dropped. For a line with
    at most one bar the label is the trimmed remainder itself, and the two
    lines of the specification parse as it says. *)
Theorem icon_label_lines :
  (forall v max,
      parseIconLabelLines v max = omap normalised_iconLabelOfLine (splitLines v max))
  /\ (forall line,
        (forall rem, (split_first "|" line).2 = Some rem ->
                     (split_first "|" rem).2 = None) ->
        iconLabelOfLine line = spec_iconLabelOfLine line)
  /\ parseIconLabelLines (RStr "fa-star | Gold Tier") None
     = [mkIconLabel "fa-star" "Gold Tier"]
  /\ parseIconLabelLines (RStr "justtext") None = [mkIconLabel "justtext" ""].
Proof.
  split; [|split; [|split; reflexivity]].
  - intros v max. unfold parseIconLabelLines.
    induction (splitLines v max) as [|line lines IH]; [done|].
    cbn [omap list_omap] in *. by rewrite IH, iconLabelOfLine_normalised.
  - intros line Hone. rewrite iconLabelOfLine_normalised.
    unfold normalised_iconLabelOfLine, spec_iconLabelOfLine.
    destruct (split_first "|" line) as [b [rem|]]; simpl in *; [|done].
    specialize (Hone rem eq_refl). rewrite split_split_first, Hone.
    destruct (split_first "|" rem) as [b' r'] eqn:Hrem. simpl in *. subst r'.
    apply split_first_None in Hrem as ->. simpl. by rewrite trim_idem.
Qed.

(** ** The routes *)

Lemma set_fields_frame `{JsNumber} (fields : list (string * value))
    (o : gmap string value) (k : string) :
  k ∉ fields.*1 -> set_fields fields o !! k = o !! k.
Proof.
  unfold set_fields. revert o.
  induction fields as [|[k1 v1] fields IH]; intros o Hk; simpl; [done|].
  apply not_elem_of_cons in Hk as [Hne Hk].
  rewrite IH by done. by rewrite lookup_insert_ne.
Qed.


Lemma site_ok `{JsNumber} (site : value) :
  negb (truthy site) || negb (is_object_type site) = false ->
  truthy site = true /\ is_object_type site = true.
Proof. by destruct (truthy site), (is_object_type site). Qed.

Section RouteFacts.
Context `{JsonCodec}.

Lemma bind_reply_if {A} (c : bool) (r : response) (k : unit -> handler A) (w : world) :
  h_bind (reply_if c r) k w = if c then (inl r, w) else k tt w.
Proof. by destruct c. Qed.

Lemma bind_read_site {A} (url : string) (k : value -> handler A) (w : world) :
  h_bind (read_site url) k w =
  match readJson (w_disk w) SITE_JSON_PATH JNull with
  | inl e => (inl (Unhandled e), w)
  | inr site =>
      if negb (truthy site) || negb (is_object_type site)
      then (inl (Redirect url), w)
      else k site w
  end.
Proof.
  unfold read_site, h_bind, await_read.
  destruct (readJson _ _ _) as [e|site]; [done|].
  by destruct (negb (truthy site) || negb (is_object_type site)).
Qed.

Lemma bind_await_write {A} (p : string) (v : value) (k : unit -> handler A) (w : world) :
  h_bind (await_write p v) k w =
  match writeJsonAtomic p v w with
  | (Fulfilled, w') => k tt w'
  | (Rejected e, w') => (inl (Unhandled e), w')
  end.
Proof.
  unfold h_bind, await_write. by destruct (writeJsonAtomic p v w) as [[|e] w'].
Qed.

End RouteFacts.

(** Walks a handler that produced the result [H] speaks of. At a guard
    whose condition is known the walk takes that branch; at any other
    guard, at the read of the document and at the write it splits, and
    [exit] closes the branch in which the handler answers and stops. *)
Ltac walk_with H exit :=
  repeat first
    [ rewrite bind_reply_if in H;
      lazymatch type of H with
      | context [if ?c then (inl _, _) else _] =>
          let Hc := fresh "Hc" in
          destruct c eqn:Hc; [cbv beta iota in H; exit |]
      | (_, _) = _ => exit
      | _ => idtac
      end
    | rewrite bind_read_site in H;
      first
        [ match goal with
          | Hk : readJson _ _ _ = inr ?s,
            Hok : negb (truthy ?s) || negb (is_object_type ?s) = false |- _ =>
              rewrite Hk, Hok in H; cbv beta iota in H
          end
        | match type of H with
          | context [readJson ?d ?p ?f] =>
              let Hr := fresh "Hread" in
              let site := fresh "site" in
              let Hs := fresh "Hsite" in
              destruct (readJson d p f) as [?|site] eqn:Hr;
                [cbv beta iota in H; exit |];
              destruct (negb (truthy site) || negb (is_object_type site)) eqn:Hs;
                [cbv beta iota in H; exit |]
          end ]
    | rewrite bind_await_write in H;
      match type of H with
      | context [writeJsonAtomic ?p ?v ?w] =>
          let Hw := fresh "Hwrite" in
          destruct (writeJsonAtomic p v w) as [[|?] ?] eqn:Hw;
            [| cbv beta iota in H; exit]
      end ].

Ltac open_route :=
  unfold post_admin, run_handler, post_admin_meta, post_admin_nav, post_admin_hero,
    post_admin_about, post_admin_techstack, post_admin_projects,
    post_admin_casestudies, post_admin_experience, post_admin_certifications,
    post_admin_blog, post_admin_github, post_admin_contact, post_admin_footer,
    requireAuth, save_section, merge_section;
  cbv zeta.

Section FormRoutes.
Context `{JsonCodec}.


Lemma readJson_object_no_fault (d : disk) (p : string) (o : gmap string value) :
  readJson d p JNull = inr (JObj o) -> fault d KRead p = None.
Proof.
  unfold readJson, fs_readFile. destruct (fault d KRead p) as [code|]; [|done].
  by destruct (String.eqb code "ENOENT").
Qed.

(** The document a route has written is the one the next read finds. *)
Lemma site_written `{!JsonLawful} (o : gmap string value) (v : value) (w w' : world) :
  readJson (w_disk w) SITE_JSON_PATH JNull = inr (JObj o) ->
  writeJsonAtomic SITE_JSON_PATH v w = (Fulfilled, w') ->
  readJson (w_disk w') SITE_JSON_PATH JNull = inr v.
Proof.
  intros Hread%readJson_object_no_fault Hw.
  destruct (writeJsonAtomic_fulfilled _ _ _ _ Hw) as (_ & _ & Hfile).
  apply readJson_stored; [|done].
  unfold fault in *. by rewrite (writeJsonAtomic_faults _ _ _ _ _ Hw).
Qed.



End FormRoutes.


Section SectionRoute.
Context `{JsonCodec}.

(** What a saved section comes down to. *)
Lemma section_route_saved (req : request) (w w' : world) :
  run_handler (post_admin_section req) w
  = (Redirect ("/admin?page=" +:+ param_id req +:+ "&saved=1"), w') ->
  exists parsed site,
    existsb (String.eqb (param_id req)) EDITABLE_SECTIONS = true
    /\ JSON_parse (stringOrEmpty (body_field req "sectionJson")) = Some (JObj parsed)
    /\ readJson (w_disk w) SITE_JSON_PATH JNull = inr site
    /\ truthy site = true /\ is_object_type site = true
    /\ writeJsonAtomic SITE_JSON_PATH
         (set_prop (param_id req)
            (JObj (if negb (String.eqb (param_id req) "meta")
                      && negb (String.eqb (param_id req) "nav")
                   then <["enabled" := JBool (parseEnabled (body_field req "enabled"))]> parsed
                   else parsed))
            site) w
       = (Fulfilled, w').
Proof.
  unfold run_handler, post_admin_section, requireAuth. cbv zeta.
  destruct (session_user req); [|done].
  rewrite bind_reply_if. destruct (negb (assertCsrf req)); [done|].
  rewrite bind_reply_if.
  destruct (existsb (String.eqb (param_id req)) EDITABLE_SECTIONS) eqn:Hid; [|done].
  simpl negb. cbv iota.
  destruct (JSON_parse _) as [[| | | | |parsed]|] eqn:Hparse;
    try (unfold reply; cbv beta iota; intros [= Heq _];
         by do 2 apply (inj (String.app _)) in Heq).
  rewrite bind_read_site.
  destruct (readJson _ _ _) as [e|site] eqn:Hread; [done|].
  destruct (negb (truthy site) || negb (is_object_type site)) eqn:Hsite; [done|].
  rewrite bind_await_write.
  destruct (writeJsonAtomic _ _ _) as [[|e] w1] eqn:Hw; [|done].
  cbv [h_ret]. intros [= <-].
  destruct (site_ok _ Hsite) as [? ?].
  by exists parsed, site.
Qed.


End SectionRoute.

(** ** The length caps *)


Ltac fix_saved_url :=
  repeat match goal with
         | |- context [saved_url ?r] =>
             let u := eval vm_compute in (saved_url r) in change (saved_url r) with u
         end.


Section Caps.
Context `{JsonCodec}.





End Caps.

(** ** The reference runtime keeps its promise *)

Module RefFacts.
Import Ref.

Lemma append_nil_l (t : string) : "" +:+ t = t.
Proof. reflexivity. Qed.

Lemma append_cons (a : ascii) (s t : string) : String a s +:+ t = String a (s +:+ t).
Proof. reflexivity. Qed.

Lemma append_assoc (a b c : string) : (a +:+ b) +:+ c = a +:+ (b +:+ c).
Proof.
  induction a as [|x a IH]; [done|]. rewrite !append_cons. by rewrite IH.
Qed.

Lemma append_nil_r (a : string) : a +:+ "" = a.
Proof.
  induction a as [|x a IH]; [done|]. rewrite append_cons. by rewrite IH.
Qed.

(** Numbers *)

Lemma digits_of_app (ds rest : string) :
  all_digits ds -> no_digit_ahead rest -> digits_of (ds +:+ rest) = (ds, rest).
Proof.
  unfold all_digits. induction ds as [|a ds IH]; intros Hds Hrest.
  - rewrite append_nil_l.
    destruct rest as [|b rest]; simpl in *; [done | by rewrite Hrest].
  - apply Forall_cons in Hds as [Ha Hds]. rewrite append_cons. simpl.
    by rewrite Ha, IH.
Qed.

Lemma all_digits_uint (d : Decimal.uint) : all_digits (NilEmpty.string_of_uint d).
Proof. unfold all_digits. induction d; simpl; by constructor. Qed.

Lemma print_N_digits (n : N) : all_digits (print_N n) /\ print_N n ≠ "".
Proof.
  unfold print_N, NilZero.string_of_uint.
  destruct (N.to_uint n) eqn:Hn; simpl;
    (split; [first [by repeat constructor | constructor; [done | apply all_digits_uint]] | done]).
Qed.

Lemma to_uint_nonnil (n : N) : N.to_uint n ≠ Decimal.Nil.
Proof.
  destruct n as [|p]; [done|]. simpl.
  apply DecimalPos.Unsigned.to_uint_nonnil.
Qed.

Lemma parse_print_N (n : N) (rest : string) :
  no_digit_ahead rest -> parse_N (print_N n +:+ rest) = Some (n, rest).
Proof.
  intros Hrest. unfold parse_N.
  destruct (print_N_digits n) as [Hd Hne].
  rewrite (digits_of_app _ _ Hd Hrest).
  destruct (print_N n) eqn:Hp; [done|]. rewrite <-Hp. unfold print_N.
  rewrite NilZero.usu by apply to_uint_nonnil.
  by rewrite DecimalN.Unsigned.of_to.
Qed.

Lemma print_N_head (n : N) :
  exists a s, print_N n = String a s /\ is_digit a = true.
Proof.
  destruct (print_N_digits n) as [Hd Hne].
  destruct (print_N n) as [|a s]; [done|].
  exists a, s. split; [done|]. unfold all_digits in Hd. simpl in Hd.
  by apply Forall_cons in Hd as [? _].
Qed.

Lemma digit_not_minus (a : ascii) : is_digit a = true -> Ascii.eqb a "-" = false.
Proof.
  destruct (Ascii.eqb_spec a "-") as [->|]; [|done]. by vm_compute.
Qed.

Lemma parse_print_Z (z : Z) (rest : string) :
  no_digit_ahead rest -> parse_Z (print_Z z +:+ rest) = Some (z, rest).
Proof.
  intros Hrest. destruct z as [|p|p]; simpl.
  - change (print_N 0) with "0". rewrite append_cons, append_nil_l.
    unfold parse_Z, parse_N. simpl.
    destruct rest as [|b rest]; simpl in *; [done|]. by rewrite Hrest.
  - destruct (print_N_head (N.pos p)) as (a & s & Hp & Ha).
    unfold parse_Z. rewrite Hp, append_cons.
    pose proof (digit_not_minus a Ha) as Hm.
    destruct a as [[] [] [] [] [] [] [] []]; try done;
      rewrite <-append_cons, <-Hp, parse_print_N by done; done.
  - rewrite append_nil_l. by rewrite parse_print_N.
Qed.



(** Strings *)

Lemma parse_chars_escape (s rest : string) :
  parse_chars (escape s +:+ String DQ rest) = Some (s, rest).
Proof.
  induction s as [|a s IH]; [done|]. simpl.
  destruct (Ascii.eqb_spec a DQ) as [->|Hq].
  { rewrite !append_cons. simpl. by rewrite IH. }
  destruct (Ascii.eqb_spec a "\") as [->|Hb].
  { rewrite !append_cons. simpl. by rewrite IH. }
  destruct (Ascii.eqb_spec a Js.LF) as [->|Hn].
  { rewrite !append_cons. simpl. by rewrite IH. }
  destruct (Ascii.eqb_spec a CR) as [->|Hr].
  { rewrite !append_cons. simpl. by rewrite IH. }
  destruct (Ascii.eqb_spec a TAB) as [->|Ht].
  { rewrite !append_cons. simpl. by rewrite IH. }
  rewrite append_cons. simpl.
  apply Ascii.eqb_neq in Hq, Hb. by rewrite Hq, Hb, IH.
Qed.

Lemma parse_chars_quote (s rest : string) :
  exists body, quote s +:+ rest = String DQ body
               /\ parse_chars body = Some (s, rest).
Proof.
  unfold quote. rewrite append_cons, append_assoc. eexists. split; [done|].
  rewrite append_cons, append_nil_l. apply parse_chars_escape.
Qed.

(** White space *)

Lemma skip_ws_app (ws s : string) : all_space ws -> skip_ws (ws +:+ s) = skip_ws s.
Proof.
  unfold all_space. induction ws as [|a ws IH]; [done|].
  cbn [list_ascii_of_string]. intros [Ha Hws]%Forall_cons.
  rewrite append_cons. cbn [skip_ws]. by rewrite Ha, IH.
Qed.

Lemma all_space_spaces (n : nat) : all_space (spaces n).
Proof. unfold all_space. induction n; simpl; by constructor. Qed.

Lemma all_space_nl (n : nat) : all_space (nl n).
Proof. unfold nl, all_space. simpl. constructor; [done | apply all_space_spaces]. Qed.

Lemma length_nl (n : nat) : String.length (nl n) = S n.
Proof. unfold nl. simpl. f_equal. induction n; simpl; congruence. Qed.

Lemma no_digit_ahead_nl (n : nat) (s : string) : no_digit_ahead (nl n +:+ s).
Proof. unfold nl. by rewrite append_cons. Qed.

(** The first character of a printed value. *)

Lemma value_start_facts (a : ascii) :
  value_start a = true -> Js.is_space a = false /\ Ascii.eqb a "]" = false.
Proof. destruct a as [[] [] [] [] [] [] [] []]; by vm_compute. Qed.

Lemma print_Z_head (z : Z) :
  exists a s, print_Z z = String a s /\ is_digit_or_minus a = true.
Proof.
  destruct z as [|p|p].
  - by exists "0"%char, "".
  - destruct (print_N_head (N.pos p)) as (a & s & Hp & Ha).
    exists a, s. split; [done|]. unfold is_digit_or_minus. by rewrite Ha.
  - by eexists "-"%char, _.
Qed.

Lemma print_head (ind : nat) (v : value) :
  exists a s, print ind v = String a s /\ value_start a = true.
Proof.
  destruct v as [|[]|z|s|l|o]; simpl; try by eexists _, _.
  - destruct (print_Z_head z) as (a & s & Hp & Ha).
    exists a, s. split; [done|]. unfold value_start. by rewrite Ha.
  - destruct l; by eexists _, _.
  - destruct (map_to_list _); by eexists _, _.
Qed.

(** Induction on values *)

Lemma vsize_lookup (o : gmap string value) (k : string) (v : value) :
  o !! k = Some v -> vsize v < vsize (JObj o).
Proof.
  simpl. revert k v.
  apply (map_fold_weak_ind
           (fun r (m : gmap string value) => forall k v, m !! k = Some v -> vsize v < S r)).
  - intros k v. by rewrite lookup_empty.
  - intros i x m r Hi IH k v. rewrite lookup_insert.
    case_decide as Hk; [intros [= <-]; lia|].
    intros Hv. specialize (IH _ _ Hv). lia.
Qed.

Lemma vsize_elem (l : list value) (v : value) : v ∈ l -> vsize v < vsize (JArr l).
Proof.
  simpl. induction 1 as [v l|v x l _ IH]; simpl; lia.
Qed.

Lemma value_ind' (P : value -> Prop) :
  P JNull -> (forall b, P (JBool b)) -> (forall n : Z, P (JNum n)) ->
  (forall s, P (JStr s)) ->
  (forall l, Forall P l -> P (JArr l)) ->
  (forall o : gmap string value, map_Forall (fun _ => P) o -> P (JObj o)) ->
  forall v, P v.
Proof.
  intros Hnull Hbool Hnum Hstr Harr Hobj v.
  remember (vsize v) as n eqn:Hn. revert v Hn.
  induction (lt_wf n) as [n _ IH]. intros v ->.
  destruct v as [|b|z|s|l|o]; auto.
  - apply Harr. apply Forall_forall. intros x Hx.
    by eapply IH; [apply vsize_elem|].
  - apply Hobj. intros k x Hk. by eapply IH; [eapply vsize_lookup|].
Qed.


Ltac lens :=
  repeat first
    [ rewrite string_length_app in *
    | rewrite length_nl in *
    | progress cbn [String.length] in * ];
  lia.

Lemma skip_ws_head (a : ascii) (s : string) :
  Js.is_space a = false -> skip_ws (String a s) = String a s.
Proof. intros Ha. simpl. by rewrite Ha. Qed.

Lemma skip_ws_print (ws : string) (ind : nat) (v : value) (rest : string) :
  all_space ws ->
  exists a s, print ind v = String a s /\ value_start a = true
              /\ skip_ws (ws +:+ print ind v +:+ rest) = String a (s +:+ rest).
Proof.
  intros Hws. destruct (print_head ind v) as (a & s & Hp & Ha).
  exists a, s. split; [done|]. split; [done|].
  rewrite skip_ws_app by done. rewrite Hp, append_cons.
  apply skip_ws_head. by apply value_start_facts.
Qed.

Lemma parse_elems_lines (l : list value) :
  Forall parses l -> l ≠ [] ->
  forall ind ind' ws rest fuel,
    all_space ws ->
    String.length (ws +:+ lines_of ind (map (print ind) l) +:+ nl ind' +:+ "]") < fuel ->
    parse_elems fuel (ws +:+ lines_of ind (map (print ind) l) +:+ nl ind' +:+ "]" +:+ rest)
    = Some (l, rest).
Proof.
  induction l as [|x l IH]; [done|].
  intros [Hx Hl]%Forall_cons _ ind ind' ws rest fuel Hws Hlen.
  destruct fuel as [|f]; [lia|]. cbn [parse_elems].
  destruct l as [|y l].
  - cbn [map lines_of] in *.
    rewrite (Hx ind ws (nl ind' +:+ "]" +:+ rest) f Hws (no_digit_ahead_nl _ _))
      by lens.
    cbn [mbind option_bind].
    rewrite skip_ws_app by apply all_space_nl.
    by rewrite append_cons, append_nil_l.
  - cbn [map lines_of] in *. rewrite !append_assoc in *.
    rewrite (Hx ind ws _ f Hws) by (done || lens).
    cbn [mbind option_bind]. rewrite append_cons, append_nil_l.
    rewrite skip_ws_head by done.
    rewrite (IH Hl ltac:(done) ind ind' (nl ind) rest f (all_space_nl _)) by lens.
    done.
Qed.


Lemma lines_of_cons (ind : nat) (a : string) (items : list string) :
  items ≠ [] ->
  lines_of ind (a :: items) = a +:+ "," +:+ nl ind +:+ lines_of ind items.
Proof. by destruct items. Qed.

Lemma parse_members_lines (L : list (string * value)) :
  Forall (fun kv => parses kv.2) L -> L ≠ [] ->
  forall ind ind' ws rest fuel,
    all_space ws ->
    String.length (ws +:+ lines_of ind (map member (prod_map id (print ind) <$> L))
                   +:+ nl ind' +:+ "}") < fuel ->
    parse_members fuel
      (ws +:+ lines_of ind (map member (prod_map id (print ind) <$> L))
       +:+ nl ind' +:+ "}" +:+ rest)
    = Some (L, rest).
Proof.
  induction L as [|[k x] L IH]; [done|].
  intros [Hx HL]%Forall_cons _ ind ind' ws rest fuel Hws Hlen.
  destruct fuel as [|f]; [lia|]. cbn [parse_members].
  rewrite skip_ws_app by done.
  assert (all_space " ") as Hsp by (by repeat constructor).
  rewrite fmap_cons in *. cbn [map prod_map fst snd id] in *.
  unfold member at 1. unfold member at 1 in Hlen. cbn [fst snd] in *.
  destruct (decide (L = [])) as [->|HLne].
  - cbn [fmap list_fmap map lines_of] in *.
    rewrite !append_assoc in *.
    destruct (parse_chars_quote k (": " +:+ print ind x +:+ nl ind' +:+ "}" +:+ rest))
      as (body & -> & Hbody).
    rewrite skip_ws_head by done. rewrite Hbody. cbn [mbind option_bind].
    rewrite !append_cons, append_nil_l. rewrite skip_ws_head by done.
    change (String " " ?s) with (" " +:+ s).
    rewrite (Hx ind " " _ f Hsp (no_digit_ahead_nl _ _)) by lens.
    cbn [mbind option_bind]. rewrite skip_ws_app by apply all_space_nl.
    by rewrite ?append_cons, ?append_nil_l.
  - assert (map member (prod_map id (print ind) <$> L) ≠ []) as Hne
      by (by destruct L).
    rewrite (lines_of_cons _ _ _ Hne) in *.
    set (tail := lines_of ind (map member (prod_map id (print ind) <$> L))) in *.
    rewrite !append_assoc in *.
    match goal with
    | |- context [quote k +:+ ?more] =>
        destruct (parse_chars_quote k more) as (body & -> & Hbody)
    end.
    rewrite skip_ws_head by done. rewrite Hbody. cbn [mbind option_bind].
    rewrite !append_cons, !append_nil_l. rewrite skip_ws_head by done.
    change (String " " ?s) with (" " +:+ s).
    rewrite (Hx ind " " _ f Hsp) by (done || lens).
    cbn [mbind option_bind].
    rewrite skip_ws_head by done.
    subst tail. change (String "}" rest) with ("}" +:+ rest).
    rewrite (IH HL HLne ind ind' (nl ind) rest f (all_space_nl _)) by lens.
    done.
Qed.

Lemma lines_head (ind : nat) (x : value) (l : list value) (more : string) :
  exists a s, lines_of ind (map (print ind) (x :: l)) +:+ more = String a s
              /\ value_start a = true.
Proof.
  destruct (print_head ind x) as (a & s & Hp & Ha).
  destruct l; cbn [map lines_of]; rewrite Hp, ?append_cons; by eexists _, _.
Qed.

Lemma members_head (ind : nat) (L : list (string * value)) (more : string) :
  L ≠ [] ->
  exists s, lines_of ind (map member (prod_map id (print ind) <$> L)) +:+ more
            = String DQ s.
Proof.
  destruct L as [|[k x] L]; [done|]. intros _.
  rewrite fmap_cons. cbn [map]. unfold member at 1, quote.
  destruct (map member (prod_map id (print ind) <$> L));
    cbn [lines_of]; rewrite !append_cons; by eexists.
Qed.

Lemma parse_print (v : value) : parses v.
Proof.
  induction v as [|b|z|s|l IH|o IH] using value_ind';
    intros ind ws rest fuel Hws Hrest Hlen;
    (destruct fuel as [|f]; [lia|]); cbn [parse_value].
  - rewrite skip_ws_app by done. by destruct rest.
  - rewrite skip_ws_app by done. by destruct b, rest.
  - rewrite skip_ws_app by done.
    destruct (print_Z_head z) as (a & s & Hp & Ha).
    cbn [print]. rewrite Hp, append_cons. rewrite skip_ws_head.
    2:{ apply value_start_facts. unfold value_start. by rewrite Ha. }
    rewrite Ha, <-append_cons, <-Hp, parse_print_Z by done. done.
  - rewrite skip_ws_app by done. cbn [print].
    destruct (parse_chars_quote s rest) as (body & -> & Hbody).
    rewrite skip_ws_head by done. cbn -[parse_chars]. by rewrite Hbody.
  - rewrite skip_ws_app by done. cbn [print] in *. destruct l as [|x l].
    + by rewrite !append_cons, append_nil_l.
    + remember (lines_of (ind + 2) (map (print (ind + 2)) (x :: l))) as items eqn:Hitems.
      rewrite !append_assoc in *. rewrite append_cons, append_nil_l in *.
      rewrite skip_ws_head by done.
      cbn -[parse_elems skip_ws print lines_of nl String.append].
      rewrite skip_ws_app by apply all_space_nl.
      destruct (lines_head (ind + 2) x l (nl ind +:+ "]" +:+ rest))
        as (a & s' & Hhead & Ha).
      rewrite <-Hitems in Hhead. destruct (value_start_facts a Ha) as [Hsp Hclose].
      rewrite Hhead, skip_ws_head, Hclose by done. rewrite <-Hhead, Hitems.
      rewrite (parse_elems_lines (x :: l) IH ltac:(done) (ind + 2) ind (nl (ind + 2)) rest f
                 (all_space_nl _)) by (subst items; lens).
      done.
  - rewrite skip_ws_app by done. cbn [print] in *.
    rewrite map_to_list_fmap in *.
    assert (list_to_map (reverse (map_to_list o)) = o) as Hback.
    { rewrite <-(list_to_map_to_list o) at 2. apply list_to_map_proper.
      - rewrite fmap_reverse, reverse_Permutation. apply NoDup_fst_map_to_list.
      - apply reverse_Permutation. }
    assert (Forall (fun kv => parses kv.2) (map_to_list o)) as HL.
    { apply Forall_forall. intros [k x] Hkx%elem_of_map_to_list. by apply (IH k x). }
    destruct (map_to_list o) as [|kv L] eqn:HLo.
    + cbn [fmap list_fmap]. rewrite !append_cons, append_nil_l.
      rewrite skip_ws_head by done.
      cbn -[list_to_map]. simpl in Hback. by rewrite <-Hback.
    + rewrite fmap_cons in *. cbv iota in *. rewrite <-fmap_cons in *.
      remember (kv :: L) as L' eqn:HL'.
      assert (L' ≠ []) as Hne by by subst L'.
      rewrite !append_assoc in *. rewrite append_cons, append_nil_l in *.
      rewrite skip_ws_head by done.
      cbn -[parse_members skip_ws print lines_of nl String.append list_to_map
            fmap reverse].
      rewrite skip_ws_app by apply all_space_nl.
      destruct (members_head (ind + 2) L' (nl ind +:+ "}" +:+ rest) Hne)
        as (s' & Hhead).
      rewrite Hhead, skip_ws_head by done. cbv iota. rewrite <-Hhead.
      rewrite (parse_members_lines L' HL Hne (ind + 2) ind (nl (ind + 2)) rest f
                 (all_space_nl _)) by lens.
      cbn [mbind option_bind]. by rewrite Hback.
Qed.

Lemma ref_parse_stringify (v : value) : parse (print 0 v +:+ Js.NL) = Some v.
Proof.
  unfold parse.
  pose proof (parse_print v 0 "" Js.NL (S (String.length (print 0 v +:+ Js.NL)))) as Hp.
  rewrite !append_nil_l in Hp. rewrite Hp; [done | by constructor | done |].
  rewrite string_length_app. lia.
Qed.

(** The reference codec is lawful. *)
Lemma ref_lawful : @JsonLawful ref_number ref_codec.
Proof. exact ref_parse_stringify. Qed.

End RefFacts.

(* ================================================================== *)
(** ** The other routes and helpers: properties *)
(* ================================================================== *)

(** ** More on strings *)

Lemma list_ascii_app (s t : string) :
  list_ascii_of_string (s +:+ t) = (list_ascii_of_string s ++ list_ascii_of_string t)%list.
Proof.
  induction s as [|a s IH]; [done|].
  rewrite RefFacts.append_cons. cbn [list_ascii_of_string]. by rewrite IH.
Qed.

Section StoreMore.
Context `{JsonCodec}.

(** X1. A write through the queue touches two paths at most. Whatever the
    outcome, the fault table and every file other than the target and its
    temporary sibling are as before. A fulfilled write leaves the target
    with the serialised value and no temporary file; a rejected one leaves
    the target as it was. *)
Theorem write_touches_only_target (p : string) (v : value) (w w' : world) (r : promise) :
  writeJsonAtomic p v w = (r, w') ->
  faults (w_disk w') = faults (w_disk w)
  /\ (forall q, q ≠ p -> q ≠ p +:+ ".tmp" ->
        files (w_disk w') !! q = files (w_disk w) !! q)
  /\ (r = Fulfilled ->
        files (w_disk w') !! p = Some (JSON_stringify v +:+ Js.NL)
        /\ files (w_disk w') !! (p +:+ ".tmp") = None)
  /\ (forall e, r = Rejected e -> files (w_disk w') !! p = files (w_disk w) !! p).
Proof.
  intros Hw. split; [by eapply writeJsonAtomic_faults|].
  unfold writeJsonAtomic in Hw. destruct (writeQueue w) as [|e0].
  - destruct (run_calls (write_body p v) (w_disk w)) as [r1 d1] eqn:Hrun.
    injection Hw as <- <-. cbn [w_disk].
    split; [|split].
    + intros q Hq Htmp. revert Hrun.
      unfold write_body, run_calls, exec_call, fs_mkdir, fs_writeFile, fs_rename.
      destruct (fault (w_disk w) KMkdir (dirname p)); [by intros [= _ <-]|].
      destruct (fault (w_disk w) KWriteFile (p +:+ ".tmp")); [by intros [= _ <-]|].
      unfold fault. cbn [files faults].
      destruct (faults (w_disk w) !! (fs_kind_code KRename, p)).
      * intros [= _ <-]. cbn [files]. by rewrite lookup_insert_ne.
      * rewrite lookup_insert_eq. intros [= _ <-]. cbn [files].
        rewrite lookup_insert_ne by done. rewrite lookup_delete_ne by done.
        by rewrite lookup_insert_ne.
    + intros ->. rewrite (write_body_fulfilled _ _ _ _ Hrun).
      split; [by rewrite lookup_insert_eq|].
      rewrite lookup_insert_ne by (intros Heq; by apply (tmp_path_ne p)).
      by rewrite lookup_delete_eq.
    + intros e ->. by eapply write_body_rejected.
  - injection Hw as <- <-. split; [done|]. split; [done|]. done.
Qed.

End StoreMore.

Section LogMore.
Context `{JsonCodec} `{!JsonLawful}.

Lemma load_log_not_array (d : disk) (v : value) :
  readJson d SUBMISSIONS_JSON_PATH (JArr []) = inr v ->
  match v with JArr (_ :: _) => False | _ => True end ->
  load_log d = inr [].
Proof.
  intros Hr Hv. unfold load_log. rewrite Hr. by destruct v as [| | | |[|x l]|].
Qed.

(** X2. The log file is trusted only when it parses to an array. When it
    is missing, when its contents do not parse, and when they parse to
    anything but an array, a fulfilled append leaves a log made of the new
    record alone (what the file held is not kept), and a patch is
    fulfilled without writing. *)
Theorem append_restarts_unusable_log (s : value) (id : string)
    (patch : gmap string value) (w w' : world) :
  fault (w_disk w) KRead SUBMISSIONS_JSON_PATH = None ->
  match files (w_disk w) !! SUBMISSIONS_JSON_PATH with
  | None => True
  | Some raw => match JSON_parse raw with Some (JArr _) => False | _ => True end
  end ->
  appendSubmission s w = (Fulfilled, w') ->
  load_log (w_disk w') = inr [s] /\ patchSubmission id patch w = (Fulfilled, w).
Proof.
  intros Hf Hfile Happ.
  assert (exists v, readJson (w_disk w) SUBMISSIONS_JSON_PATH (JArr []) = inr v
                    /\ match v with JArr (_ :: _) => False | _ => True end)
    as (v & Hread & Hv).
  { unfold readJson, fs_readFile. rewrite Hf.
    destruct (files (w_disk w) !! SUBMISSIONS_JSON_PATH) as [raw|]; [|by eexists].
    destruct (JSON_parse raw) as [[| | | |l|]|]; try done; by eexists. }
  split.
  - destruct (appendSubmission_log s [] w w' Fulfilled Hf) as [_ Hlog];
      [by eapply load_log_not_array | done |].
    by rewrite Hlog.
  - unfold patchSubmission. rewrite Hread.
    by destruct v as [| | | |[|x l]|].
Qed.

End LogMore.

Section Gate.
Context `{JsonCodec}.

(** X3. No admin route writes for a visitor. Without a signed-in session
    the answer is the redirect to the login page; with a session but
    without the session's token in the form the answer is a redirect whose
    reason is the session; in both cases the disk and the queue are as
    before. So a route that changed anything was called with a session and
    its token. *)
Theorem admin_routes_need_session_and_token (a : admin_route) (req : request)
    (w w' : world) (resp : response) :
  run_handler (post_admin_any a req) w = (resp, w') ->
  (session_user req = false -> resp = Redirect "/admin/login" /\ w' = w)
  /\ (session_user req = true -> assertCsrf req = false ->
      w' = w /\ exists url, resp = Redirect url
                            /\ Js.endsWith "error=Invalid+session" url = true)
  /\ (w' ≠ w -> session_user req = true /\ assertCsrf req = true).
Proof.
  intros Hrun.
  assert ((session_user req = false -> resp = Redirect "/admin/login" /\ w' = w)
          /\ (session_user req = true -> assertCsrf req = false ->
              w' = w /\ exists url, resp = Redirect url
                                    /\ Js.endsWith "error=Invalid+session" url = true))
    as [Huser Hcsrf].
  { split.
    - intros Hu. revert Hrun.
      destruct a as [r| |]; [destruct r| |]; cbn [post_admin_any]; open_route;
        unfold post_admin_section, post_admin_site, requireAuth;
        rewrite Hu; by intros [= <- <-].
    - intros Hu Hc. revert Hrun.
      destruct a as [r| |]; [destruct r| |]; cbn [post_admin_any]; open_route;
        unfold post_admin_section, post_admin_site, requireAuth, run_handler;
        rewrite Hu, bind_reply_if, Hc; cbn [negb];
        intros [= <- <-]; (split; [done|]); eexists; (split; [reflexivity|]);
        by vm_compute. }
  split; [done|]. split; [done|].
  intros Hne. destruct (session_user req) eqn:Hu.
  - split; [done|]. destruct (assertCsrf req) eqn:Hc; [done|].
    by destruct (Hcsrf eq_refl eq_refl).
  - by destruct (Huser eq_refl).
Qed.

End Gate.

(** [walk_with] for a run on a document known to be unusable. *)
Ltac walk_no_doc H Hk Hbad exit :=
  repeat first
    [ rewrite bind_reply_if in H;
      lazymatch type of H with
      | context [if ?c then (inl _, _) else _] =>
          let Hc := fresh "Hc" in
          destruct c eqn:Hc; [cbv beta iota in H; exit |]
      | (_, _) = _ => exit
      | _ => idtac
      end
    | rewrite bind_read_site, Hk, Hbad in H; cbv beta iota in H; exit ].

Section NoDocument.
Context `{JsonCodec}.

(** X4. The forms and the per-section route edit a document, they do not
    create one. When what [readJson] gives for [data/site.json] is falsy
    (the fallback [null] of a missing or unparsable file) or is not of
    type object, the route answers with a redirect that is not the one of
    a save, and the disk and the queue are as before. *)
Theorem routes_need_a_document (a : admin_route) (req : request) (site : value)
    (w w' : world) (resp : response) :
  a ≠ ASite ->
  readJson (w_disk w) SITE_JSON_PATH JNull = inr site ->
  truthy site = false \/ is_object_type site = false ->
  run_handler (post_admin_any a req) w = (resp, w') ->
  w' = w /\ resp ≠ saved_reply a req /\ exists url, resp = Redirect url.
Proof.
  intros Ha Hread Hsite Hrun.
  assert (negb (truthy site) || negb (is_object_type site) = true) as Hbad.
  { destruct Hsite as [-> | ->]; [done | by rewrite orb_true_r]. }
  destruct a as [r| |]; [| |done]; cbn [post_admin_any saved_reply] in *.
  - destruct r; fix_saved_url; revert Hrun; open_route;
      (destruct (session_user req); [|by intros [= <- <-]; eauto]); intros Hrun;
      walk_no_doc Hrun Hread Hbad ltac:(idtac; by simplify_eq; eauto).
  - revert Hrun. unfold run_handler, post_admin_section, requireAuth. cbv zeta.
    destruct (session_user req); [|by intros [= <- <-]; eauto].
    rewrite bind_reply_if.
    destruct (negb (assertCsrf req)); [by intros [= <- <-]; eauto|].
    rewrite bind_reply_if.
    destruct (existsb (String.eqb (param_id req)) EDITABLE_SECTIONS);
      [|by intros [= <- <-]; eauto].
    simpl negb. cbv iota.
    destruct (JSON_parse _) as [[| | | | |parsed]|];
      try (unfold reply; cbv beta iota; intros [= <- <-];
           split; [done|]; split; [|by eauto]; intros [= Heq];
           by do 2 apply (inj (String.app _)) in Heq).
    rewrite bind_read_site, Hread, Hbad. intros [= <- <-]. by eauto.
Qed.

End NoDocument.

Section Required.
Context `{JsonCodec}.

(** X5. A form with a required field left empty (the title of a section,
    the logo text of the navigation and of the footer, the two names of
    the hero), or holding white space only, is not saved: the disk and the
    queue are as before and the answer is not the one of a save. *)
Theorem form_routes_require_fields (r : form_route) (req : request) (w w' : world)
    (g : request -> string) (resp : response) :
  g ∈ required r -> g req = "" ->
  run_handler (post_admin r req) w = (resp, w') ->
  w' = w /\ resp ≠ Redirect (saved_url r).
Proof.
  intros Hin Hempty Hrun.
  assert (Js.is_empty (g req) = true) as He by by rewrite Hempty.
  clear Hempty. revert Hrun.
  destruct r; cbn [required] in Hin;
    repeat (apply elem_of_cons in Hin as [->|Hin]);
    try (by apply elem_of_nil in Hin);
    unfold top, top_or_empty in He;
    fix_saved_url; open_route;
    (destruct (session_user req); [|by intros [= <- <-]]); intros Hrun;
    rewrite ?He in Hrun;
    walk_with Hrun ltac:(idtac; by simplify_eq).
Qed.

End Required.

Section SiteRoute.
Context `{JsonCodec} `{!JsonLawful}.

(** X6. The whole-document route. When it reports a save, the submitted
    text parsed to an object whose [meta], [hero] and [about] are truthy,
    and that object is the document from then on, whatever the document
    was before (the route does not read it). When it answers with any
    other redirect, the disk and the queue are as before. *)
Theorem site_route_replaces_document (req : request) (w w' : world) (resp : response) :
  run_handler (post_admin_site req) w = (resp, w') ->
  (resp = Redirect "/admin?page=raw&saved=1" ->
     exists o,
       JSON_parse (stringOrEmpty (body_field req "siteJson")) = Some (JObj o)
       /\ truthy_opt (o !! "meta") = true /\ truthy_opt (o !! "hero") = true
       /\ truthy_opt (o !! "about") = true
       /\ files (w_disk w') !! SITE_JSON_PATH = Some (JSON_stringify (JObj o) +:+ Js.NL)
       /\ (fault (w_disk w) KRead SITE_JSON_PATH = None ->
           readJson (w_disk w') SITE_JSON_PATH JNull = inr (JObj o)))
  /\ (forall url, resp = Redirect url -> url ≠ "/admin?page=raw&saved=1" -> w' = w).
Proof.
  unfold run_handler, post_admin_site, requireAuth. cbv zeta.
  destruct (session_user req); [|by intros [= <- <-]; (split; [discriminate|])].
  rewrite bind_reply_if. destruct (negb (assertCsrf req)); [by intros [= <- <-]; (split; [discriminate|])|].
  destruct (JSON_parse _) as [parsed|] eqn:Hparse; [|by intros [= <- <-]; (split; [discriminate|])].
  rewrite bind_reply_if.
  destruct (negb (truthy parsed) || negb (is_object_type parsed)); [by intros [= <- <-]; (split; [discriminate|])|].
  rewrite bind_reply_if.
  destruct (negb (truthy_opt (get "meta" parsed)) || negb (truthy_opt (get "hero" parsed))
            || negb (truthy_opt (get "about" parsed))) eqn:Hkeys;
    [by intros [= <- <-]; (split; [discriminate|])|].
  rewrite bind_await_write.
  destruct (writeJsonAtomic _ _ _) as [[|e] w1] eqn:Hw; [|by intros [= <- <-]; (split; [discriminate|])].
  cbv [h_ret]. intros [= <- <-]. split; [|by intros url [= <-]]. intros _.
  apply orb_false_elim in Hkeys as [[Hm Hh]%orb_false_elim Ha].
  apply negb_false_iff in Hm, Hh, Ha.
  destruct parsed as [| | | | |o]; try done. cbn [get] in *.
  exists o. repeat (split; [done|]).
  destruct (writeJsonAtomic_fulfilled _ _ _ _ Hw) as (_ & _ & Hfile).
  split; [done|]. intros Hf. apply readJson_stored; [|done].
  unfold fault in *. by rewrite (writeJsonAtomic_faults _ _ _ _ _ Hw).
Qed.

End SiteRoute.

Lemma set_fields_first `{JsNumber} (k : string) (v : value)
    (rest : list (string * value)) (o : gmap string value) :
  k ∉ rest.*1 -> set_fields ((k, v) :: rest) o !! k = Some v.
Proof.
  intros Hk. unfold set_fields. simpl. fold (set_fields rest (<[k := v]> o)).
  rewrite set_fields_frame by done. apply lookup_insert_eq.
Qed.

Lemma isSectionEnabled_flag `{JsNumber} (o next : gmap string value) (name : string)
    (b : bool) :
  next !! "enabled" = Some (JBool b) ->
  isSectionEnabled (JObj (<[name := JObj next]> o)) name = b.
Proof.
  intros Hb. unfold isSectionEnabled. cbn [truthy get].
  rewrite lookup_insert_eq. cbn [truthy is_object_type negb orb get].
  rewrite Hb. by destruct b.
Qed.

Section Visibility.
Context `{JsonCodec} `{!JsonLawful}.

(** What a saved form stores under [enabled], for the sections that have
    the flag. *)
Lemma form_route_flag (r : form_route) (req : request) (w w' : world) :
  r ≠ RMeta -> r ≠ RNav ->
  run_handler (post_admin r req) w = (Redirect (saved_url r), w') ->
  exists site next,
    readJson (w_disk w) SITE_JSON_PATH JNull = inr site
    /\ writeJsonAtomic SITE_JSON_PATH (set_prop (section_of r) (JObj next) site) w
       = (Fulfilled, w')
    /\ next !! "enabled" = Some (JBool (parseEnabled (body_field req "enabled"))).
Proof.
  intros Hmeta Hnav Hrun.
  destruct r; try done;
    match type of Hrun with
    | context [saved_url ?r] =>
        let u := eval vm_compute in (saved_url r) in change (saved_url r) with u in Hrun
    end;
    cbn [section_of]; revert Hrun; open_route;
    (destruct (session_user req); [|done]); intros Hrun;
    walk_with Hrun ltac:(idtac; done);
    cbv [h_ret] in Hrun; simplify_eq;
    (eexists _, _; split; [reflexivity|]; split; [exact Hwrite|]);
    apply set_fields_first; cbn [fmap list_fmap fst];
    intros Hin;
    repeat (apply elem_of_cons in Hin as [Hin|Hin]; [discriminate|]);
    by apply elem_of_nil in Hin.
Qed.

(** X7. The box of the form decides whether the section is shown. After a
    save through the form of a section other than [meta] and [nav], or
    through the per-section JSON route for such a section, on a document
    that is an object, [isSectionEnabled] of the stored document at that
    section is the form flag: true exactly when one of the submitted
    [enabled] values trims to ["1"]. *)
Theorem saved_flag_is_visibility (req : request) (w w' : world)
    (o : gmap string value) :
  readJson (w_disk w) SITE_JSON_PATH JNull = inr (JObj o) ->
  (forall r, r ≠ RMeta -> r ≠ RNav ->
     run_handler (post_admin r req) w = (Redirect (saved_url r), w') ->
     exists site',
       readJson (w_disk w') SITE_JSON_PATH JNull = inr site'
       /\ isSectionEnabled site' (section_of r) = parseEnabled (body_field req "enabled"))
  /\ (param_id req ≠ "meta" -> param_id req ≠ "nav" ->
      run_handler (post_admin_section req) w
      = (Redirect ("/admin?page=" +:+ param_id req +:+ "&saved=1"), w') ->
      exists site',
        readJson (w_disk w') SITE_JSON_PATH JNull = inr site'
        /\ isSectionEnabled site' (param_id req) = parseEnabled (body_field req "enabled")).
Proof.
  intros Hread. split.
  - intros r Hmeta Hnav Hrun.
    destruct (form_route_flag r req w w' Hmeta Hnav Hrun) as (site & next & Hr & Hw & Hflag).
    rewrite Hread in Hr. injection Hr as <-. cbn [set_prop] in Hw.
    eexists. split; [by eapply site_written|]. by apply isSectionEnabled_flag.
  - intros Hmeta Hnav Hrun.
    destruct (section_route_saved req w w' Hrun)
      as (parsed & site & _ & _ & Hr & _ & _ & Hw).
    rewrite Hread in Hr. injection Hr as <-.
    apply String.eqb_neq in Hmeta, Hnav. rewrite Hmeta, Hnav in Hw.
    cbn [negb andb set_prop] in Hw.
    eexists. split; [by eapply site_written|].
    apply isSectionEnabled_flag. apply lookup_insert_eq.
Qed.

End Visibility.

Module HtmlFacts.
Import Html.

Lemma replaceAll_app (c : ascii) (r s t : string) :
  replaceAll c r (s +:+ t) = replaceAll c r s +:+ replaceAll c r t.
Proof.
  induction s as [|a s IH]; [done|].
  rewrite RefFacts.append_cons. cbn [replaceAll]. rewrite IH.
  by rewrite RefFacts.append_assoc.
Qed.

Lemma escapeHtml_app (s t : string) :
  escapeHtml (s +:+ t) = escapeHtml s +:+ escapeHtml t.
Proof. unfold escapeHtml. by rewrite !replaceAll_app. Qed.

Lemma replaceAll_other (c : ascii) (r : string) (a : ascii) :
  Ascii.eqb a c = false -> replaceAll c r (String a EmptyString) = String a EmptyString.
Proof. intros Hne. cbn [replaceAll]. by rewrite Hne. Qed.

(** The five passes on one character. *)
Lemma escapeHtml_char (a : ascii) :
  escapeHtml (String a EmptyString) =
  if Ascii.eqb a "&" then "&amp;"
  else if Ascii.eqb a "<" then "&lt;"
  else if Ascii.eqb a ">" then "&gt;"
  else if Ascii.eqb a QUOT then "&quot;"
  else if Ascii.eqb a APOS then "&#39;"
  else String a EmptyString.
Proof.
  destruct (Ascii.eqb_spec a "&") as [->|H1]; [done|].
  destruct (Ascii.eqb_spec a "<") as [->|H2]; [done|].
  destruct (Ascii.eqb_spec a ">") as [->|H3]; [done|].
  destruct (Ascii.eqb_spec a QUOT) as [->|H4]; [done|].
  destruct (Ascii.eqb_spec a APOS) as [->|H5]; [done|].
  apply Ascii.eqb_neq in H1, H2, H3, H4, H5.
  unfold escapeHtml. by rewrite !replaceAll_other.
Qed.

Lemma escapeHtml_cons (a : ascii) (s : string) :
  escapeHtml (String a s) = escapeHtml (String a EmptyString) +:+ escapeHtml s.
Proof.
  rewrite <-escapeHtml_app. by rewrite RefFacts.append_cons, RefFacts.append_nil_l.
Qed.

Ltac char_cases a :=
  rewrite (escapeHtml_char a) in *;
  destruct (Ascii.eqb_spec a "&") as [->|?];
  [|destruct (Ascii.eqb_spec a "<") as [->|?];
    [|destruct (Ascii.eqb_spec a ">") as [->|?];
      [|destruct (Ascii.eqb_spec a QUOT) as [->|?];
        [|destruct (Ascii.eqb_spec a APOS) as [->|?]]]]].

Lemma escapeHtml_no_markup (s : string) :
  Forall (fun a => a ≠ "<"%char /\ a ≠ ">"%char /\ a ≠ QUOT /\ a ≠ APOS)
         (list_ascii_of_string (escapeHtml s)).
Proof.
  induction s as [|a s IH]; [constructor|].
  rewrite escapeHtml_cons, list_ascii_app. apply Forall_app. split; [|done].
  char_cases a; cbn [list_ascii_of_string]; repeat constructor; done.
Qed.

Lemma escapeHtml_inj (s t : string) : escapeHtml s = escapeHtml t -> s = t.
Proof.
  revert t. induction s as [|a s IH]; intros [|b t] Heq.
  - done.
  - rewrite escapeHtml_cons in Heq. exfalso.
    char_cases b; rewrite ?RefFacts.append_cons in Heq; discriminate.
  - rewrite escapeHtml_cons in Heq. exfalso.
    char_cases a; rewrite ?RefFacts.append_cons in Heq; discriminate.
  - rewrite (escapeHtml_cons a), (escapeHtml_cons b) in Heq.
    char_cases a; char_cases b;
      rewrite ?RefFacts.append_cons, ?RefFacts.append_nil_l in Heq;
      simplify_eq; try done; f_equal; by apply IH.
Qed.

Lemma escapeHtml_plain (s : string) :
  forallb (fun a => negb (is_special a)) (list_ascii_of_string s) = true ->
  escapeHtml s = s.
Proof.
  induction s as [|a s IH]; [done|]. cbn [list_ascii_of_string forallb].
  intros [Ha Hs]%andb_prop. rewrite escapeHtml_cons, (IH Hs).
  unfold is_special in Ha.
  char_cases a; by vm_compute in Ha.
Qed.

Lemma escapeHtml_length (s : string) : String.length s <= String.length (escapeHtml s).
Proof.
  induction s as [|a s IH]; [done|].
  rewrite escapeHtml_cons, string_length_app. cbn [String.length].
  char_cases a; cbn [String.length]; lia.
Qed.

(** X8. What goes into the markup of the mail is inert and nothing of the
    text is lost: the output of [escapeHtml] holds no angle bracket, no
    double quote and no apostrophe; two different texts give different
    outputs; the output of a text in two parts is the two outputs put
    together; a text without any of the five characters is returned as it
    is; and the output is never shorter than the text. *)
Theorem escapeHtml_inert_and_faithful :
  (forall s, Forall (fun a => a ≠ "<"%char /\ a ≠ ">"%char /\ a ≠ QUOT /\ a ≠ APOS)
                    (list_ascii_of_string (escapeHtml s)))
  /\ (forall s t, escapeHtml s = escapeHtml t -> s = t)
  /\ (forall s t, escapeHtml (s +:+ t) = escapeHtml s +:+ escapeHtml t)
  /\ (forall s, forallb (fun a => negb (is_special a)) (list_ascii_of_string s) = true ->
                escapeHtml s = s)
  /\ (forall s, String.length s <= String.length (escapeHtml s)).
Proof.
  split; [exact escapeHtml_no_markup|]. split; [exact escapeHtml_inj|].
  split; [exact escapeHtml_app|]. split; [exact escapeHtml_plain|].
  exact escapeHtml_length.
Qed.

End HtmlFacts.

(** ** More on the micro-grammars *)

Lemma split_nonnil (c : ascii) (s : string) : Js.split c s ≠ [].
Proof.
  destruct s as [|a s]; cbn [Js.split]; [done|].
  destruct (Ascii.eqb a c); [done|]. by destruct (Js.split c s).
Qed.

Lemma split_no_sep (c : ascii) (s : string) :
  Forall (fun x => c ∉ list_ascii_of_string x) (Js.split c s).
Proof.
  induction s as [|a s IH]; cbn [Js.split].
  - repeat constructor. cbn. apply not_elem_of_nil.
  - destruct (Ascii.eqb_spec a c) as [->|Hne].
    + constructor; [cbn; apply not_elem_of_nil | done].
    + pose proof (split_nonnil c s) as Hnil.
      destruct (Js.split c s) as [|h t]; [done|].
      apply Forall_cons in IH as [Hh Ht]. constructor; [|done].
      cbn [list_ascii_of_string]. by apply not_elem_of_cons.
Qed.

Lemma trimStart_chars (s : string) (a : ascii) :
  a ∈ list_ascii_of_string (Js.trimStart s) -> a ∈ list_ascii_of_string s.
Proof.
  induction s as [|b s IH]; cbn [Js.trimStart]; [done|].
  destruct (Js.is_space b); [|done].
  intros Hin. cbn [list_ascii_of_string]. by apply list_elem_of_further, IH.
Qed.

Lemma trimEnd_chars (s : string) (a : ascii) :
  a ∈ list_ascii_of_string (Js.trimEnd s) -> a ∈ list_ascii_of_string s.
Proof.
  induction s as [|b s IH]; cbn [Js.trimEnd]; [done|].
  destruct (Js.trimEnd s) as [|b' r] eqn:Hr.
  - destruct (Js.is_space b); cbn [list_ascii_of_string]; [by intros ?%elem_of_nil|].
    intros [->|?%elem_of_nil]%elem_of_cons; [|done]. apply list_elem_of_here.
  - cbn [list_ascii_of_string] in *.
    intros [->|Hin]%elem_of_cons; [apply list_elem_of_here|].
    by apply list_elem_of_further, IH.
Qed.

Lemma trim_chars (s : string) (a : ascii) :
  a ∈ list_ascii_of_string (Js.trim s) -> a ∈ list_ascii_of_string s.
Proof. unfold Js.trim. by intros ?%trimEnd_chars%trimStart_chars. Qed.

(** X9. [parseIconTextPair] reads its field by the grammar of the
    icon/label lines: it gives what the line parser gives for the trimmed
    field, and nothing for a field that is absent or blank. In a pair that
    it returns, icon and text are trimmed, not both empty, and the icon has
    no bar. *)
Theorem parseIconTextPair_is_the_line_grammar (v : raw) :
  parseIconTextPair v
  = (fun x => (icon x, label x)) <$> iconLabelOfLine (asTrimmedString v)
  /\ (asTrimmedString v = "" -> parseIconTextPair v = None)
  /\ (forall i t, parseIconTextPair v = Some (i, t) ->
        Js.trim i = i /\ Js.trim t = t /\ (i ≠ "" \/ t ≠ "")
        /\ "|"%char ∉ list_ascii_of_string i).
Proof.
  unfold parseIconTextPair, iconLabelOfLine.
  destruct (Js.is_empty (asTrimmedString v)) eqn:Hempty.
  - assert (asTrimmedString v = "") as -> by by destruct (asTrimmedString v).
    by vm_compute.
  - split; [|split].
    + by destruct (_ && _).
    + intros Hv. by rewrite Hv in Hempty.
    + intros i t.
      pose proof (split_no_sep "|" (asTrimmedString v)) as Hsep.
      pose proof (split_nonnil "|" (asTrimmedString v)) as Hnil.
      destruct (Js.split "|" (asTrimmedString v)) as [|p ps]; [done|].
      cbn [map hd tl].
      destruct (_ && _) eqn:Hboth; [done|]. intros [= <- <-].
      split; [apply trim_idem|]. split; [apply trim_idem|]. split.
      * apply andb_false_iff in Hboth as [Hb|Hb].
        -- right. intros Heq. by rewrite Heq in Hb.
        -- left. intros Heq. by rewrite Heq in Hb.
      * apply Forall_cons in Hsep as [Hp _]. by intros ?%trim_chars.
Qed.

Lemma elem_of_slice_max {A} (max : option nat) (l : list A) (x : A) :
  x ∈ Js.slice_max max l -> x ∈ l.
Proof.
  destruct max as [n|]; [|done]. cbn [Js.slice_max].
  intros (i & Hi & _)%elem_of_take. by eapply list_elem_of_lookup_2.
Qed.

Lemma length_slice_max {A} (n : nat) (l : list A) : length (Js.slice_max (Some n) l) <= n.
Proof. cbn [Js.slice_max]. rewrite length_take. lia. Qed.

(** The pieces a list field is cut into, trimmed, the empty ones dropped. *)
Lemma pieces_clean (pieces : list string) (max : option nat) (P : string -> Prop) :
  Forall P pieces -> (forall x, P x -> P (Js.trim x)) ->
  Forall (fun x => x ≠ "" /\ Js.trim x = x /\ P x)
         (Js.slice_max max (Js.filter_nonempty (map Js.trim pieces))).
Proof.
  intros Hall Htrim. apply Forall_forall. intros x Hx%elem_of_slice_max.
  unfold Js.filter_nonempty in Hx.
  apply list_elem_of_In, filter_In in Hx as [Hin Hne].
  apply list_elem_of_In, (list_elem_of_fmap Js.trim) in Hin as (y & -> & Hy).
  split; [by destruct (Js.trim y)|]. split; [apply trim_idem|].
  apply Htrim. by eapply (proj1 (Forall_forall _ _) Hall).
Qed.

(** X10. What the three list grammars return is clean: every item is
    non-empty and trimmed, an item of [splitLines] has no line feed and an
    item of [splitCsv] no comma; there are at most [max] items when a
    maximum is given; and a field that is absent or blank gives no item. *)
Theorem split_items_are_clean (v : raw) (max : option nat) :
  Forall (fun x => x ≠ "" /\ Js.trim x = x /\ Js.LF ∉ list_ascii_of_string x)
         (splitLines v max)
  /\ Forall (fun x => x ≠ "" /\ Js.trim x = x /\ ","%char ∉ list_ascii_of_string x)
            (splitCsv v max)
  /\ Forall (fun x => x ≠ "" /\ Js.trim x = x) (splitBlankParagraphs v max)
  /\ (forall n, max = Some n ->
        length (splitLines v max) <= n /\ length (splitCsv v max) <= n
        /\ length (splitBlankParagraphs v max) <= n)
  /\ (asTrimmedString v = "" ->
        splitLines v max = [] /\ splitCsv v max = []
        /\ splitBlankParagraphs v max = []).
Proof.
  unfold splitLines, splitCsv, splitBlankParagraphs.
  destruct (Js.is_empty (asTrimmedString v)) eqn:Hempty.
  - repeat split; try constructor; cbn; lia.
  - split; [|split; [|split; [|split]]].
    + apply pieces_clean; [apply split_no_sep|].
      intros x Hx Hin%trim_chars. by apply Hx.
    + apply pieces_clean; [apply split_no_sep|].
      intros x Hx Hin%trim_chars. by apply Hx.
    + eapply Forall_impl;
        [apply (pieces_clean _ _ (fun _ => True)); [by apply Forall_forall | done]|].
      intros x (Hne & Htr & _). by split.
    + intros n ->. repeat split; apply length_slice_max.
    + intros Hv. by rewrite Hv in Hempty.
Qed.

Lemma trimStart_length (s : string) : String.length (Js.trimStart s) <= String.length s.
Proof.
  induction s as [|a s IH]; [done|]. cbn [Js.trimStart].
  destruct (Js.is_space a); cbn [String.length]; lia.
Qed.

Lemma trimEnd_length (s : string) : String.length (Js.trimEnd s) <= String.length s.
Proof.
  induction s as [|a s IH]; [done|]. cbn [Js.trimEnd].
  destruct (Js.trimEnd s); [destruct (Js.is_space a)|]; cbn [String.length] in *; lia.
Qed.

(** A trimmed text starts and ends with a character that is not white
    space. *)
Lemma trimmed_ends (x : string) :
  Js.trim x = x -> Js.trimStart x = x /\ Js.trimEnd x = x.
Proof.
  intros Htrim. unfold Js.trim in Htrim.
  assert (Js.trimStart x = x) as Hs.
  { destruct x as [|a x]; [done|]. cbn [Js.trimStart] in *.
    destruct (Js.is_space a); [|done]. exfalso.
    pose proof (trimEnd_length (Js.trimStart x)) as H1.
    pose proof (trimStart_length x) as H2.
    rewrite Htrim in H1. cbn [String.length] in H1. lia. }
  split; [done|]. by rewrite Hs in Htrim.
Qed.

Lemma trimStart_app (x y : string) :
  x ≠ "" -> Js.trimStart x = x -> Js.trimStart (x +:+ y) = x +:+ y.
Proof.
  destruct x as [|a x]; [done|]. intros _. rewrite RefFacts.append_cons.
  cbn [Js.trimStart]. destruct (Js.is_space a); [|done].
  intros Heq. pose proof (trimStart_length x) as Hlen.
  rewrite Heq in Hlen. cbn [String.length] in Hlen. lia.
Qed.

Lemma trimEnd_app (y x : string) :
  x ≠ "" -> Js.trimEnd x = x -> Js.trimEnd (y +:+ x) = y +:+ x.
Proof.
  intros Hne Hx. induction y as [|a y IH]; [by rewrite RefFacts.append_nil_l|].
  rewrite RefFacts.append_cons. cbn [Js.trimEnd]. rewrite IH.
  destruct (y +:+ x) eqn:Hyx; [|done].
  destruct y; [|by rewrite RefFacts.append_cons in Hyx].
  by rewrite RefFacts.append_nil_l in Hyx.
Qed.

Lemma join_cons (sep x : string) (l : list string) :
  Js.join sep (x :: l) = match l with [] => x | _ => x +:+ sep +:+ Js.join sep l end.
Proof. by destruct l. Qed.

(** A list of trimmed, non-empty items joined by any separator is trimmed. *)
Lemma trim_join (sep : string) (items : list string) :
  Forall (fun x => x ≠ "" /\ Js.trim x = x) items ->
  Js.trim (Js.join sep items) = Js.join sep items.
Proof.
  intros Hall. destruct items as [|x items]; [done|].
  unfold Js.trim.
  assert (Js.trimStart (Js.join sep (x :: items)) = Js.join sep (x :: items)) as ->.
  { apply Forall_cons in Hall as [[Hne [Hs _]%trimmed_ends] _].
    rewrite join_cons. destruct items; [done|]. by apply trimStart_app. }
  revert x Hall. induction items as [|y items IH]; intros x Hall.
  - apply Forall_cons in Hall as [[_ [_ He]%trimmed_ends] _]. by rewrite join_cons.
  - apply Forall_cons in Hall as [_ Hall]. rewrite join_cons.
    rewrite <-RefFacts.append_assoc. apply trimEnd_app.
    + destruct items; [by apply Forall_cons in Hall as [[? _] _]|].
      rewrite join_cons. apply Forall_cons in Hall as [[Hne _] _].
      destruct y; [done|]. by rewrite RefFacts.append_cons.
    + apply IH, Hall.
Qed.

Lemma split_no_sep_id (c : ascii) (x : string) :
  c ∉ list_ascii_of_string x -> Js.split c x = [x].
Proof.
  induction x as [|a x IH]; [done|]. cbn [list_ascii_of_string Js.split].
  intros [Hne Hx]%not_elem_of_cons.
  destruct (Ascii.eqb_spec a c) as [->|_]; [done|]. by rewrite IH.
Qed.

Lemma split_app_sep (c : ascii) (x rest : string) :
  c ∉ list_ascii_of_string x ->
  Js.split c (x +:+ String c rest) = x :: Js.split c rest.
Proof.
  induction x as [|a x IH].
  - intros _. rewrite RefFacts.append_nil_l. cbn [Js.split].
    by rewrite Ascii.eqb_refl.
  - cbn [list_ascii_of_string]. intros [Hne Hx]%not_elem_of_cons.
    rewrite RefFacts.append_cons. cbn [Js.split].
    destruct (Ascii.eqb_spec a c) as [->|_]; [done|]. by rewrite IH.
Qed.

Lemma split_join (c : ascii) (items : list string) :
  items ≠ [] ->
  Forall (fun x => c ∉ list_ascii_of_string x) items ->
  Js.split c (Js.join (String c EmptyString) items) = items.
Proof.
  intros Hne Hall. induction items as [|x items IH]; [done|].
  apply Forall_cons in Hall as [Hx Hall]. rewrite join_cons.
  destruct items as [|y items]; [by apply split_no_sep_id|].
  rewrite RefFacts.append_cons, RefFacts.append_nil_l.
  rewrite split_app_sep by done. by rewrite IH.
Qed.

Lemma filter_nonempty_id (items : list string) :
  Forall (fun x => x ≠ "") items -> Js.filter_nonempty items = items.
Proof.
  induction 1 as [|x items Hx _ IH]; [done|].
  unfold Js.filter_nonempty in *. cbn [List.filter].
  rewrite IH. by destruct x.
Qed.

Lemma map_trim_id (items : list string) :
  Forall (fun x => Js.trim x = x) items -> map Js.trim items = items.
Proof. induction 1 as [|x items Hx _ IH]; [done|]. cbn [map]. by rewrite Hx, IH. Qed.

Lemma slice_max_id {A} (max : option nat) (l : list A) :
  (forall n, max = Some n -> length l <= n) -> Js.slice_max max l = l.
Proof.
  destruct max as [n|]; [|done]. intros Hn. cbn [Js.slice_max].
  apply take_ge. by apply Hn.
Qed.

(** X11. A list that is clean reads back as it was written: when the
    items are non-empty and trimmed and there are no more than the
    maximum, [splitLines] of the items joined by line feeds, and
    [splitCsv] of the items joined by commas, return the items, as long as
    no item holds the separator. *)
Theorem split_of_join (items : list string) (max : option nat) :
  Forall (fun x => x ≠ "" /\ Js.trim x = x) items ->
  (forall n, max = Some n -> length items <= n) ->
  (Forall (fun x => Js.LF ∉ list_ascii_of_string x) items ->
     splitLines (RStr (Js.join Js.NL items)) max = items)
  /\ (Forall (fun x => ","%char ∉ list_ascii_of_string x) items ->
     splitCsv (RStr (Js.join "," items)) max = items).
Proof.
  intros Hall Hmax.
  assert (forall c, Forall (fun x => c ∉ list_ascii_of_string x) items ->
            (let raw := asTrimmedString (RStr (Js.join (String c EmptyString) items)) in
             if Js.is_empty raw then []
             else Js.slice_max max
                    (Js.filter_nonempty (map Js.trim (Js.split c raw)))) = items)
    as Hgen.
  { intros c Hc. cbv zeta. unfold asTrimmedString. cbn [to_String].
    rewrite trim_join by done.
    destruct items as [|x items]; [done|].
    assert (Js.is_empty (Js.join (String c "") (x :: items)) = false) as ->.
    { apply Forall_cons in Hall as [[Hne _] _]. rewrite join_cons.
      destruct x; [done|]. destruct items; [done|]. by rewrite RefFacts.append_cons. }
    rewrite split_join by done.
    rewrite map_trim_id by (eapply Forall_impl; [exact Hall|]; by intros ? [_ ?]).
    rewrite filter_nonempty_id by (eapply Forall_impl; [exact Hall|]; by intros ? [? _]).
    by apply slice_max_id. }
  split; intros Hc; [exact (Hgen Js.LF Hc) | exact (Hgen ","%char Hc)].
Qed.

(** ** The base path *)

Lemma append_nonempty_r (x y : string) : y ≠ "" -> x +:+ y ≠ "".
Proof.
  destruct x; [by rewrite RefFacts.append_nil_l|]. by rewrite RefFacts.append_cons.
Qed.

Lemma rev_app_acc (s acc : string) :
  String.rev_app s acc = String.rev_app s "" +:+ acc.
Proof.
  revert acc. induction s as [|a s IH]; intros acc; cbn [String.rev_app].
  - by rewrite RefFacts.append_nil_l.
  - rewrite (IH (String a acc)), (IH (String a "")).
    by rewrite RefFacts.append_assoc, RefFacts.append_cons, RefFacts.append_nil_l.
Qed.

Lemma rev_cons (a : ascii) (s : string) :
  String.rev (String a s) = String.rev s +:+ String a EmptyString.
Proof. unfold String.rev. cbn [String.rev_app]. apply rev_app_acc. Qed.

Lemma endsWith1_single (c a : ascii) :
  Js.endsWith (String c EmptyString) (String a EmptyString) = Ascii.eqb c a.
Proof. unfold Js.endsWith. cbn. by rewrite andb_true_r. Qed.

Lemma endsWith1_cons (c a : ascii) (s : string) :
  s ≠ "" ->
  Js.endsWith (String c EmptyString) (String a s) = Js.endsWith (String c EmptyString) s.
Proof.
  intros Hne. unfold Js.endsWith. rewrite (rev_cons a s).
  change (String.rev (String c "")) with (String c "").
  assert (String.rev s ≠ "") as Hrev.
  { destruct s as [|b s]; [done|]. rewrite rev_cons. by apply append_nonempty_r. }
  destruct (String.rev s) as [|b r]; [done|].
  rewrite RefFacts.append_cons. cbn [Js.startsWith]. by destruct r.
Qed.

Lemma endsWith1_app (c : ascii) (x : string) :
  Js.endsWith (String c EmptyString) (x +:+ String c EmptyString) = true.
Proof.
  induction x as [|a x IH].
  - rewrite RefFacts.append_nil_l, endsWith1_single. apply Ascii.eqb_refl.
  - rewrite RefFacts.append_cons, endsWith1_cons; [done|]. by apply append_nonempty_r.
Qed.

Lemma drop_last_app (x : string) (c : ascii) : drop_last (x +:+ String c EmptyString) = x.
Proof.
  induction x as [|a x IH]; [done|].
  rewrite RefFacts.append_cons. cbn [drop_last]. rewrite IH.
  destruct (x +:+ String c "") eqn:Hx; [|done].
  by apply append_nonempty_r in Hx.
Qed.

Lemma drop_last_nonempty (a b : ascii) (s : string) : drop_last (String a (String b s)) ≠ "".
Proof. done. Qed.

Lemma startsWith1_cons (c a : ascii) (s : string) :
  Js.startsWith (String c EmptyString) (String a s) = Ascii.eqb c a.
Proof. cbn [Js.startsWith]. by rewrite andb_true_r. Qed.

Lemma normalizeBasePath_shape (b : string) :
  (normalizeBasePath b = "" \/ Js.startsWith "/" (normalizeBasePath b) = true)
  /\ (normalizeBasePath b = "" <-> Js.trim b = "" \/ Js.trim b = "/").
Proof.
  unfold normalizeBasePath. cbv zeta.
  destruct (Js.trim b) as [|a raw] eqn:Hraw; [by split; [left | split; [left|]]|].
  cbn [Js.is_empty orb].
  destruct (String.eqb_spec (String a raw) "/") as [Heq|Hne];
    [by split; [left | split; [right|]]|].
  rewrite startsWith1_cons.
  destruct (Ascii.eqb_spec "/" a) as [<-|Ha].
  - destruct raw as [|c raw]; [done|].
    destruct (Js.endsWith "/" _).
    + split; [by right | split; [by intros ?%drop_last_nonempty | by intros [?|?]]].
    + split; [by right | split; [done | by intros [?|?]]].
  - rewrite RefFacts.append_cons, RefFacts.append_nil_l.
    destruct (Js.endsWith "/" _).
    + split; [by right | split; [by intros ?%drop_last_nonempty | by intros [?|?]]].
    + split; [by right | split; [done | by intros [?|?]]].
Qed.

(** The four spellings of one base path. *)
Lemma normalizeBasePath_spellings (s : string) :
  s ≠ "" -> Js.trim s = s ->
  Js.startsWith "/" s = false -> Js.endsWith "/" s = false ->
  normalizeBasePath s = "/" +:+ s
  /\ normalizeBasePath ("/" +:+ s) = "/" +:+ s
  /\ normalizeBasePath (s +:+ "/") = "/" +:+ s
  /\ normalizeBasePath ("/" +:+ s +:+ "/") = "/" +:+ s.
Proof.
  intros Hne Htrim Hstart Hend.
  destruct (trimmed_ends s Htrim) as [Hts Hte].
  assert (Js.trim ("/" +:+ s) = "/" +:+ s) as T1.
  { unfold Js.trim. rewrite trimStart_app by done. by apply trimEnd_app. }
  assert (Js.trim (s +:+ "/") = s +:+ "/") as T2.
  { unfold Js.trim. rewrite trimStart_app by done. by apply trimEnd_app. }
  assert (Js.trim ("/" +:+ s +:+ "/") = "/" +:+ s +:+ "/") as T3.
  { unfold Js.trim. rewrite trimStart_app by done.
    apply trimEnd_app; [by apply append_nonempty_r | by apply trimEnd_app]. }
  assert (Js.endsWith "/" ("/" +:+ s) = false) as E1.
  { rewrite RefFacts.append_cons, RefFacts.append_nil_l. by rewrite endsWith1_cons. }
  destruct s as [|a s]; [done|]. rewrite startsWith1_cons in Hstart.
  unfold normalizeBasePath. cbv zeta. rewrite Htrim, T1, T2, T3.
  rewrite !RefFacts.append_cons, !RefFacts.append_nil_l in *.
  cbn [Js.is_empty orb]. rewrite !startsWith1_cons, Hstart, Ascii.eqb_refl.
  rewrite ?RefFacts.append_cons, ?RefFacts.append_nil_l.
  assert (String.eqb (String a s) "/" = false) as ->.
  { apply String.eqb_neq. intros [= -> _]. by rewrite Ascii.eqb_refl in Hstart. }
  assert (String.eqb (String "/" (String a s)) "/" = false) as -> by done.
  assert (String.eqb (String a (s +:+ "/")) "/" = false) as ->.
  { apply String.eqb_neq. intros [= -> _]. by rewrite Ascii.eqb_refl in Hstart. }
  assert (String.eqb (String "/" (String a (s +:+ "/"))) "/" = false) as -> by done.
  rewrite E1.
  change (String "/" (String a (s +:+ "/"))) with (String "/" (String a s) +:+ "/").
  rewrite endsWith1_app, drop_last_app. done.
Qed.

(** X12. The base path is canonical. [normalizeBasePath] gives the empty
    string exactly for a setting that is blank or a lone slash, and
    otherwise a string that starts with a slash; a segment written with or
    without a slash in front and with or without one behind comes out the
    same, with the slash in front only. [withBasePath] leaves a path alone
    when there is no base path, and otherwise puts the base path in front
    with one slash between, whether or not the path brings its own. *)
Theorem base_path_is_canonical :
  (forall b,
      (normalizeBasePath b = "" \/ Js.startsWith "/" (normalizeBasePath b) = true)
      /\ (normalizeBasePath b = "" <-> Js.trim b = "" \/ Js.trim b = "/"))
  /\ (forall s,
        s ≠ "" -> Js.trim s = s ->
        Js.startsWith "/" s = false -> Js.endsWith "/" s = false ->
        normalizeBasePath s = "/" +:+ s
        /\ normalizeBasePath ("/" +:+ s) = "/" +:+ s
        /\ normalizeBasePath (s +:+ "/") = "/" +:+ s
        /\ normalizeBasePath ("/" +:+ s +:+ "/") = "/" +:+ s)
  /\ (forall p, withBasePath "" p = p)
  /\ (forall base p,
        base ≠ "" ->
        withBasePath base ("/" +:+ p) = base +:+ "/" +:+ p
        /\ (Js.startsWith "/" p = false -> withBasePath base p = base +:+ "/" +:+ p)).
Proof.
  split; [exact normalizeBasePath_shape|].
  split; [exact normalizeBasePath_spellings|].
  split; [done|].
  intros base p Hbase. unfold withBasePath. cbv zeta.
  destruct base as [|a base]; [done|]. cbn [Js.is_empty]. split.
  - change ("/" +:+ p) with (String "/" p).
    by rewrite startsWith1_cons, Ascii.eqb_refl, RefFacts.append_nil_l.
  - by intros ->.
Qed.

(** ** Sessions and their token *)

(** X13. The token handed to a page is the one the next form must bring.
    On a session, [ensureCsrf] returns a token that is not empty (the one
    the session had, if it had one, a new one else), keeps who is signed
    in, and returns the same token however often it is called again; a
    request on that session passes [assertCsrf] exactly when its [_csrf]
    field is that token as a string. Without a session no token is given. *)
Theorem csrf_token_round_trip (fresh : string) (ss : session) :
  fresh ≠ "" ->
  exists t ss',
    ensureCsrf fresh (Some ss) = (Some t, Some ss')
    /\ t ≠ "" /\ sess_user ss' = sess_user ss /\ sess_csrfToken ss' = Some t
    /\ (forall t0, sess_csrfToken ss = Some t0 -> t0 ≠ "" -> t = t0 /\ ss' = ss)
    /\ (forall fresh', ensureCsrf fresh' (Some ss') = (Some t, Some ss'))
    /\ (forall fields id,
          assertCsrf (on_session ss' fields id) = true <-> fields !! "_csrf" = Some (RStr t))
    /\ ensureCsrf fresh None = (None, None).
Proof.
  intros Hfresh.
  assert (forall t s0, t ≠ "" -> sess_csrfToken s0 = Some t ->
            (forall fresh', ensureCsrf fresh' (Some s0) = (Some t, Some s0))
            /\ forall fields id,
                 assertCsrf (on_session s0 fields id) = true
                 <-> fields !! "_csrf" = Some (RStr t)) as Hkept.
  { intros t s0 Ht Htok. split.
    - intros fresh'. unfold ensureCsrf. rewrite Htok. cbv zeta.
      by destruct t.
    - intros fields id. unfold assertCsrf, on_session, body_field.
      cbn [session_csrfToken body]. rewrite Htok.
      destruct (fields !! "_csrf") as [[|got| |]|]; cbn [default]; try done.
      destruct t as [|a t]; [done|]. cbn [Js.is_empty negb andb].
      split.
      + intros [Hgot Heq]%andb_prop. apply String.eqb_eq in Heq. by rewrite Heq.
      + intros [= ->]. cbn [Js.is_empty negb andb]. apply String.eqb_refl. }
  unfold ensureCsrf at 1. cbv zeta.
  destruct ss as [u [t0|]]; cbn [sess_csrfToken sess_user].
  - destruct t0 as [|a t0]; cbn [Js.is_empty].
    + eexists fresh, _. split; [reflexivity|]. cbn [sess_user sess_csrfToken].
      repeat (split; [done|]). split; [by intros ? [= <-]|].
      destruct (Hkept fresh (Session u (Some fresh)) Hfresh eq_refl) as [? ?].
      by split; [|split].
    + eexists _, _. split; [reflexivity|]. cbn [sess_user sess_csrfToken].
      repeat (split; [done|]). split; [by intros ? [= <-]|].
      destruct (Hkept (String a t0) (Session u (Some (String a t0)))) as [? ?]; [done..|].
      by split; [|split].
  - eexists fresh, _. split; [reflexivity|]. cbn [sess_user sess_csrfToken].
    repeat (split; [done|]).
    destruct (Hkept fresh (Session u (Some fresh)) Hfresh eq_refl) as [? ?].
    by split; [|split].
Qed.

(** ** The contact form *)

Lemma is_plain_spec (x : string) :
  is_plain x = true <->
  x ≠ "" /\ Forall (fun c => Js.is_space c = false /\ c ≠ "@"%char) (list_ascii_of_string x).
Proof.
  unfold is_plain. rewrite andb_true_iff, negb_true_iff, forallb_forall. split.
  - intros [Hne Hall]. split; [by destruct x|].
    apply Forall_forall. intros c Hc%list_elem_of_In.
    destruct (andb_prop _ _ (Hall c Hc)) as [Hs Ha]. apply negb_true_iff in Hs, Ha.
    split; [done|]. by apply Ascii.eqb_neq.
  - intros [Hne Hall]. split; [by destruct x|].
    rewrite Forall_forall in Hall. intros c Hc%list_elem_of_In.
    destruct (Hall c Hc) as [Hs Ha]. apply Ascii.eqb_neq in Ha. by rewrite Hs, Ha.
Qed.

Lemma dot_before_last_split (rest : string) :
  dot_before_last rest = true <->
  exists a b, rest = a +:+ "." +:+ b /\ b ≠ "".
Proof.
  induction rest as [|c rest IH]; cbn [dot_before_last].
  - split; [done|]. intros (a & b & Heq & _). by destruct a.
  - rewrite orb_true_iff, andb_true_iff, negb_true_iff, IH. split.
    + intros [[Hc Hne]|(a & b & -> & Hb)].
      * apply Ascii.eqb_eq in Hc as ->. exists "", rest. by destruct rest.
      * exists (String c a), b. by rewrite RefFacts.append_cons.
    + intros (a & b & Heq & Hb). destruct a as [|x a].
      * rewrite RefFacts.append_nil_l in Heq. injection Heq as -> ->.
        left. by destruct b.
      * rewrite RefFacts.append_cons in Heq. injection Heq as -> ->.
        right. by exists a, b.
Qed.

Lemma split_first_Some (c : ascii) (s l d : string) :
  split_first c s = (l, Some d) -> s = l +:+ String c d.
Proof.
  revert l. induction s as [|x s IH]; intros l; cbn [split_first]; [done|].
  destruct (Ascii.eqb_spec x c) as [->|Hne].
  - by intros [= <- <-].
  - destruct (split_first c s) as [l' r']. intros [= <- ->].
    rewrite RefFacts.append_cons. f_equal. by apply IH.
Qed.

(** X14. The address pattern of the contact form, read as a shape: an
    address is accepted exactly when it is a local part, an [@], a domain
    part, a dot and an ending, the three of them non-empty and free of
    white space and of [@]. *)
Theorem email_shape (s : string) :
  let plain x :=
    x ≠ "" /\ Forall (fun c => Js.is_space c = false /\ c ≠ "@"%char)
                     (list_ascii_of_string x) in
  is_email s = true <->
  exists l a b, s = l +:+ "@" +:+ a +:+ "." +:+ b /\ plain l /\ plain a /\ plain b.
Proof.
  cbv zeta. unfold is_email. split.
  - pose proof (split_split_first "@" s) as Hsplit.
    destruct (split_first "@" s) as [l [d|]] eqn:Hfirst; cbn [fst snd] in Hsplit;
      rewrite Hsplit; [|done].
    pose proof (split_split_first "@" d) as Hsplit2.
    destruct (split_first "@" d) as [d1 [d2|]] eqn:Hsecond; cbn [fst snd] in Hsplit2;
      rewrite Hsplit2;
      [pose proof (split_nonnil "@" d2); by destruct (Js.split "@" d2)|].
    apply split_first_None in Hsecond as ->.
    intros [[Hl Hd]%andb_prop Hdot]%andb_prop.
    apply is_plain_spec in Hl, Hd. destruct Hd as [Hdne Hd].
    destruct d as [|x rest]; [done|].
    apply dot_before_last_split in Hdot as (a & b & -> & Hb).
    exists l, (String x a), b.
    change (String x (a +:+ "." +:+ b)) with (String x a +:+ "." +:+ b) in *.
    rewrite !list_ascii_app in Hd. apply Forall_app in Hd as [Ha [_ Hbb]%Forall_app].
    destruct Hl as [Hlne Hlp].
    split; [by apply split_first_Some|]. by repeat split.
  - intros (l & a & b & -> & [Hl Hlp] & [Ha Hap] & [Hb Hbp]).
    assert ("@"%char ∉ list_ascii_of_string l) as Hnl.
    { intros Hin. rewrite Forall_forall in Hlp. by destruct (Hlp _ Hin). }
    assert (Forall (fun c => Js.is_space c = false /\ c ≠ "@"%char)
                   (list_ascii_of_string (a +:+ "." +:+ b))) as Hdp.
    { rewrite !list_ascii_app. apply Forall_app. split; [done|].
      apply Forall_app. split; [|done]. by repeat constructor. }
    assert ("@"%char ∉ list_ascii_of_string (a +:+ "." +:+ b)) as Hnd.
    { intros Hin. rewrite Forall_forall in Hdp. by destruct (Hdp _ Hin). }
    change (l +:+ "@" +:+ a +:+ "." +:+ b) with (l +:+ String "@" (a +:+ "." +:+ b)).
    rewrite split_app_sep, split_no_sep_id by done.
    assert (is_plain l = true) as -> by by apply is_plain_spec.
    assert (is_plain (a +:+ "." +:+ b) = true) as ->.
    { apply is_plain_spec. split; [|done]. destruct a; [done|].
      by rewrite RefFacts.append_cons. }
    destruct a as [|x a]; [done|]. rewrite RefFacts.append_cons.
    cbn [andb]. apply dot_before_last_split. by exists a, b.
Qed.

Lemma lastn_snoc {A} (n : nat) (l : list A) (x : A) :
  0 < n -> lastn n (l ++ [x]) = (drop (S (length l) - n) l ++ [x])%list.
Proof.
  intros Hn. unfold lastn. rewrite length_app. cbn [length].
  replace (length l + 1 - n) with (S (length l) - n) by lia.
  rewrite drop_app_le by lia. done.
Qed.

Lemma findIndex_snoc {A} (p : A -> bool) (pre : list A) (x : A) :
  (forall y, y ∈ pre -> p y = false) -> p x = true ->
  findIndex p (pre ++ [x]) = Some (length pre).
Proof.
  intros Hpre Hx. apply (findIndex_first p _ _ x).
  - by rewrite lookup_app_r, Nat.sub_diag by lia.
  - done.
  - intros j y Hj Hy. rewrite lookup_app_l in Hy by done.
    apply Hpre. by eapply list_elem_of_lookup_2.
Qed.

Section ContactFacts.
Context `{JsonCodec} `{!JsonLawful}.

(** On a healthy log file an append goes through. *)
Lemma appendSubmission_healthy (s : value) (l0 : list value) (w : world) :
  writeQueue w = Fulfilled -> healthy (w_disk w) SUBMISSIONS_JSON_PATH = true ->
  fault (w_disk w) KRead SUBMISSIONS_JSON_PATH = None ->
  load_log (w_disk w) = inr l0 ->
  exists w1,
    appendSubmission s w = (Fulfilled, w1)
    /\ writeQueue w1 = Fulfilled /\ healthy (w_disk w1) SUBMISSIONS_JSON_PATH = true
    /\ fault (w_disk w1) KRead SUBMISSIONS_JSON_PATH = None
    /\ load_log (w_disk w1) = inr (lastn 250 (l0 ++ [s])).
Proof.
  intros Hq Hh Hf Hl.
  destruct (appendSubmission s w) as [r w1] eqn:Happ.
  destruct (appendSubmission_log s l0 w w1 r Hf Hl Happ) as [Hf1 Hl1].
  assert (r = Fulfilled /\ writeQueue w1 = Fulfilled
          /\ faults (w_disk w1) = faults (w_disk w)) as (-> & Hq1 & Hfaults).
  { unfold appendSubmission in Happ.
    destruct (load_log_readJson _ _ Hl) as (current & Hread & _).
    rewrite Hread in Happ. cbv zeta in Happ.
    match type of Happ with
    | writeJsonAtomic ?p ?v w = _ =>
        pose proof (writeJsonAtomic_faults _ _ _ _ _ Happ) as Hfa;
        pose proof (writeJsonAtomic_queue _ _ _ _ _ Happ) as Hqa;
        unfold writeJsonAtomic in Happ; rewrite Hq in Happ;
        destruct (run_calls (write_body p v) (w_disk w)) as [r1 d1] eqn:Hrun;
        pose proof (write_body_healthy _ _ _ _ _ Hh Hrun) as ->
    end.
    injection Happ as <- <-. by repeat split. }
  exists w1. split; [done|]. split; [done|].
  split; [by rewrite (healthy_faults _ _ _ Hfaults)|]. by split.
Qed.

(** And so does a patch of a record that is there. *)
Lemma patchSubmission_healthy (id : string) (patch : gmap string value)
    (l1 : list value) (idx : nat) (w1 : world) :
  writeQueue w1 = Fulfilled -> healthy (w_disk w1) SUBMISSIONS_JSON_PATH = true ->
  fault (w_disk w1) KRead SUBMISSIONS_JSON_PATH = None ->
  load_log (w_disk w1) = inr l1 ->
  findIndex (has_id id) l1 = Some idx ->
  exists w2,
    patchSubmission id patch w1 = (Fulfilled, w2)
    /\ load_log (w_disk w2)
       = inr (<[idx := JObj (assign (own_props (l1 !! idx)) patch)]> l1).
Proof.
  intros Hq Hh Hf Hl Hidx.
  destruct (load_log_readJson _ _ Hl) as (current & Hread & ->).
  unfold patchSubmission. rewrite Hread. cbv zeta. rewrite Hidx.
  match goal with
  | |- context [writeJsonAtomic ?p ?v w1] =>
      destruct (writeJsonAtomic p v w1) as [r w2] eqn:Hw;
      destruct (write_log _ _ _ _ _ Hf Hl Hw) as [_ Hl2];
      unfold writeJsonAtomic in Hw; rewrite Hq in Hw;
      destruct (run_calls (write_body p v) (w_disk w1)) as [r1 d1] eqn:Hrun;
      pose proof (write_body_healthy _ _ _ _ _ Hh Hrun) as ->
  end.
  injection Hw as <- <-. by eexists.
Qed.

End ContactFacts.

Section ContactRoute.
Context `{JsonCodec} `{!JsonLawful}.

Lemma contact_record_id (env : contact_env) (req : request) (st : string) :
  has_id (submissionId env) (contact_record env req st) = true.
Proof. unfold contact_record, obj. apply has_id_obj. apply lookup_insert_eq. Qed.

Lemma contact_record_patched (env : contact_env) (req : request) (st : string) :
  JObj (assign (own_props (Some (contact_record env req "received"))) (status_patch st))
  = contact_record env req st.
Proof.
  unfold contact_record, obj, assign, status_patch. cbn [own_props]. by f_equal.
Qed.

(** X15. A well-formed message ends up in the log with the fate of its
    mail. When the four fields are there, within their caps, and the
    address has the shape of one, the log file is healthy, and no record
    of the log has the id drawn for the submission, the answer is the one
    for the way the mail went (200 only when it was sent), and the log is
    the previous one followed by the record of the submission, with
    trimmed fields and the status [sent], [send_failed] or
    [email_not_configured], cut from the front to 250 records. *)
Theorem contact_records_the_outcome (env : contact_env) (req : request) (w : world)
    (l0 : list value) :
  contact_valid req = true ->
  writeQueue w = Fulfilled -> healthy (w_disk w) SUBMISSIONS_JSON_PATH = true ->
  fault (w_disk w) KRead SUBMISSIONS_JSON_PATH = None ->
  load_log (w_disk w) = inr l0 ->
  (forall s, s ∈ l0 -> has_id (submissionId env) s = false) ->
  exists w',
    run_handler (post_api_contact env req) w = (contact_reply (mail env), w')
    /\ load_log (w_disk w')
       = inr (lastn 250 (l0 ++ [contact_record env req (contact_status (mail env))])).
Proof.
  intros Hvalid Hq Hh Hf Hl Hfresh.
  unfold contact_valid in Hvalid. cbn [forallb contact_caps fst snd] in Hvalid.
  unfold top_or_empty in Hvalid.
  repeat match goal with
         | Hc : _ && _ = true |- _ => apply andb_prop in Hc as [? ?]
         | Hc : negb _ = true |- _ => apply negb_true_iff in Hc
         end.
  destruct (appendSubmission_healthy (contact_record env req "received") l0 w Hq Hh Hf Hl)
    as (w1 & Happ & Hq1 & Hh1 & Hf1 & Hl1).
  rewrite lastn_snoc in Hl1 by lia.
  set (pre := drop (S (length l0) - 250) l0) in *.
  assert (forall y, y ∈ pre -> has_id (submissionId env) y = false) as Hpre.
  { intros y Hy. apply Hfresh. subst pre.
    apply list_elem_of_lookup in Hy as [i Hi]. rewrite lookup_drop in Hi.
    by eapply list_elem_of_lookup_2. }
  assert (forall st, exists w2,
            patchSubmission (submissionId env) (status_patch st) w1 = (Fulfilled, w2)
            /\ load_log (w_disk w2)
               = inr (lastn 250 (l0 ++ [contact_record env req st]))) as Hpatch.
  { intros st.
    destruct (patchSubmission_healthy (submissionId env) (status_patch st) _ (length pre) w1
                Hq1 Hh1 Hf1 Hl1) as (w2 & Hp & Hl2).
    { apply findIndex_snoc; [done | apply contact_record_id]. }
    exists w2. split; [done|]. rewrite Hl2, lastn_snoc by lia. fold pre. f_equal.
    rewrite lookup_app_r, Nat.sub_diag by lia. cbn [lookup list_lookup].
    rewrite contact_record_patched.
    by rewrite insert_app_r_alt, Nat.sub_diag by lia. }
  unfold run_handler, post_api_contact. cbv zeta.
  rewrite bind_reply_if.
  repeat match goal with
         | Hc : Js.is_empty _ = false |- _ => rewrite Hc; clear Hc
         end.
  cbn [orb]. cbv beta iota. rewrite bind_reply_if.
  repeat match goal with
         | Hc : too_long _ _ = false |- _ => rewrite Hc; clear Hc
         end.
  cbn [orb]. cbv beta iota. rewrite bind_reply_if.
  match goal with Hc : is_email _ = true |- _ => rewrite Hc end.
  cbn [negb]. cbv beta iota.
  unfold h_bind at 1, await_promise at 1.
  change (obj _) with (contact_record env req "received"). rewrite Happ.
  destruct (mail env) as [|name| |]; cbn [contact_status contact_reply];
    match goal with
    | |- context [status_patch ?st] => destruct (Hpatch st) as (w2 & Hp & Hl2)
    end;
    unfold h_bind, await_promise; rewrite Hp; cbv [h_ret]; by exists w2.
Qed.

End ContactRoute.

Section ContactValidation.
Context `{JsonCodec}.


End ContactValidation.

Section ContactLiteral.
Context `{JsonCodec}.




End ContactLiteral.

Section NavRoute.
Context `{JsonCodec} `{!JsonLawful}.

Lemma is_nav_id_shape (id : string) :
  is_nav_id id = true ->
  1 <= String.length id <= 41
  /\ Forall (fun c => is_alnum c = true \/ c = "-"%char) (list_ascii_of_string id)
  /\ exists c rest, id = String c rest /\ is_alnum c = true.
Proof.
  destruct id as [|c rest]; [done|]. cbn [is_nav_id].
  intros [[Hc Hrest]%andb_prop Hlen%Nat.leb_le]%andb_prop.
  split; [cbn [String.length]; lia|]. split; [|by eauto].
  cbn [list_ascii_of_string]. constructor; [by left|].
  rewrite forallb_forall in Hrest. apply Forall_forall.
  intros b Hb%list_elem_of_In. specialize (Hrest b Hb).
  apply orb_prop in Hrest as [?|?%Ascii.eqb_eq]; by eauto.
Qed.

Lemma assign_first (k : string) (x : value) (fields : list (string * value))
    (a : gmap string value) :
  assign a (list_to_map ((k, x) :: fields)) !! k = Some x.
Proof.
  unfold assign. apply lookup_union_Some_l. cbn [list_to_map foldr].
  apply lookup_insert_eq.
Qed.

Lemma assign_second (k1 k : string) (x1 x : value)
    (fields : list (string * value)) (a : gmap string value) :
  k1 ≠ k ->
  assign a (list_to_map ((k1, x1) :: (k, x) :: fields)) !! k = Some x.
Proof.
  intros Hne. unfold assign. apply lookup_union_Some_l. cbn [list_to_map foldr].
  rewrite lookup_insert_ne; [|done]. apply lookup_insert_eq.
Qed.

(** X18. What [/admin/nav] stores is a navigation that can be rendered.
    After a save on a document that is an object, the [nav] section of the
    stored document has a logo text that is trimmed, not empty and of at
    most 80 characters, and at most 20 links; each link is an object of an
    id and a label, the label trimmed and not empty, the id of 1 to 41
    letters, digits and hyphens, the first of them a letter or a digit. *)
Theorem nav_route_stores_valid_links (req : request) (w w' : world)
    (o : gmap string value) :
  readJson (w_disk w) SITE_JSON_PATH JNull = inr (JObj o) ->
  run_handler (post_admin RNav req) w = (Redirect (saved_url RNav), w') ->
  exists o' nav links logo,
    readJson (w_disk w') SITE_JSON_PATH JNull = inr (JObj o')
    /\ o' !! "nav" = Some (JObj nav)
    /\ nav !! "logoText" = Some (JStr logo)
    /\ logo ≠ "" /\ Js.trim logo = logo /\ String.length logo <= 80
    /\ nav !! "links" = Some (JArr links) /\ length links <= 20
    /\ Forall (fun l => exists id label,
                 l = obj [("id", JStr id); ("label", JStr label)]
                 /\ label ≠ "" /\ Js.trim label = label
                 /\ 1 <= String.length id <= 41
                 /\ Forall (fun c => is_alnum c = true \/ c = "-"%char)
                           (list_ascii_of_string id)
                 /\ exists c rest, id = String c rest /\ is_alnum c = true)
              links.
Proof.
  intros Hread Hrun.
  change (saved_url RNav) with "/admin?page=nav&saved=1" in Hrun.
  revert Hrun. open_route.
  (destruct (session_user req); [|done]); intros Hrun.
  walk_with Hrun ltac:(idtac; done).
  cbv [h_ret] in Hrun. simplify_eq. cbn [set_prop get] in Hwrite.
  eexists _, _, _, _. split; [by eapply site_written|].
  split; [apply lookup_insert_eq|].
  split; [apply assign_first|].
  split; [intros Heq; by rewrite Heq in Hc0|].
  split; [apply trim_idem|].
  split; [unfold too_long in Hc1; by apply Nat.ltb_ge in Hc1|].
  split; [by apply assign_second|].
  split; [rewrite length_take; lia|].
  apply Forall_forall. intros l Hl.
  apply elem_of_take in Hl as (i & Hi & _). apply list_elem_of_lookup_2 in Hi.
  apply list_elem_of_omap in Hi as (x & _ & Hx). cbv beta zeta in Hx.
  destruct (Js.is_empty (ats "id" x) || Js.is_empty (ats "label" x)) eqn:Hempty; [done|].
  destruct (negb (is_nav_id (ats "id" x))) eqn:Hid; [done|].
  injection Hx as <-. apply orb_false_elim in Hempty as [Hi Hlabel].
  apply negb_false_iff in Hid.
  exists (ats "id" x), (ats "label" x). split; [done|].
  split; [intros Heq; by rewrite Heq in Hlabel|].
  split; [apply trim_idem|]. by apply is_nav_id_shape.
Qed.

End NavRoute.

Lemma find_first {A} (p : A -> bool) (l : list A) (x : A) :
  List.find p l = Some x <->
  exists i, l !! i = Some x /\ p x = true
    /\ forall j y, j < i -> l !! j = Some y -> p y = false.
Proof.
  induction l as [|a l IH]; cbn [List.find].
  - split; [done|]. by intros (i & Hi & _).
  - destruct (p a) eqn:Hpa.
    + split.
      * intros [= ->]. exists 0. split; [done|]. split; [done|]. intros; lia.
      * intros ([|i] & Hi & Hpx & Hbefore); cbn in Hi; [by simplify_eq|].
        by rewrite (Hbefore 0 a) in Hpa by (done || lia).
    + rewrite IH. split.
      * intros (i & Hi & Hpx & Hbefore). exists (S i). split; [done|].
        split; [done|]. intros [|j] y Hj Hy; cbn in Hy; [by simplify_eq|].
        apply (Hbefore j y); [lia | done].
      * intros ([|i] & Hi & Hpx & Hbefore); cbn in Hi; [simplify_eq; congruence|].
        exists i. split; [done|]. split; [done|].
        intros j y Hj Hy. apply (Hbefore (S j) y); [lia | done].
Qed.

Section LoginFacts.
Context `{JsonCodec}.

(** X19. Signing in. [POST /admin/login] puts a user into the session
    exactly when the request carries the token of its session, the users
    file holds an array, the first entry of it whose [username] is the
    submitted name (trimmed) exists, and [bcrypt.compare] accepts the
    submitted password (as it is, not trimmed) for the [passwordHash] of that
    entry; the answer is then the redirect to [/admin] and the user the
    trimmed name. Entries after the first one of a name are never tried. *)
Theorem login_sets_the_user_iff
    (bcrypt_compare : string -> option value -> option bool)
    (req : request) (d : disk) (r : response) (u : string) :
  post_admin_login bcrypt_compare req d = LoginAnswer r (Some u)
  <->
  r = Redirect "/admin"
  /\ assertCsrf req = true
  /\ u = Js.trim (stringOrEmpty (body_field req "username"))
  /\ exists users i user,
       readJson d USERS_JSON_PATH (JArr []) = inr (JArr users)
       /\ users !! i = Some user
       /\ get "username" user = Some (JStr u)
       /\ (forall j y, j < i -> users !! j = Some y -> has_username u y = false)
       /\ bcrypt_compare (stringOrEmpty (body_field req "password"))
                         (get "passwordHash" user) = Some true.
Proof.
  unfold post_admin_login. cbv zeta.
  change (trimmedOrEmpty (body_field req "username"))
    with (Js.trim (stringOrEmpty (body_field req "username"))).
  set (name := Js.trim (stringOrEmpty (body_field req "username"))).
  split.
  - destruct (assertCsrf req); [|done]. cbn [negb].
    destruct (readJson d USERS_JSON_PATH (JArr [])) as [e|users]; [done|].
    destruct (hasUsersFile users) eqn:Husers; [|done]. cbn [negb].
    destruct users as [| | | |l|]; try done.
    destruct (List.find (has_username name) l) as [user|] eqn:Hfind; [|done].
    destruct (bcrypt_compare _ _) as [[|]|] eqn:Hcmp; try done.
    intros [= <- <-]. do 3 (split; [done|]).
    apply find_first in Hfind as (i & Hi & Hname & Hbefore).
    exists l, i, user. do 2 (split; [done|]). split; [|done].
    unfold has_username in Hname. apply andb_prop in Hname as [_ Hname].
    destruct (get "username" user) as [[| | |x| |]|]; try done.
    by apply String.eqb_eq in Hname as ->.
  - intros (-> & -> & -> & users & i & user & -> & Hi & Hname & Hbefore & Hcmp).
    cbn [negb]. assert (hasUsersFile (JArr users) = true) as ->.
    { destruct users; [done | done]. }
    cbn [negb].
    assert (List.find (has_username name) users = Some user) as ->.
    { apply find_first. exists i. split; [done|]. split; [|done].
      unfold has_username. rewrite Hname, String.eqb_refl.
      destruct user; try done. }
    by rewrite Hcmp.
Qed.

End LoginFacts.

Lemma lastn_lastn {A} (n m : nat) (l : list A) :
  n <= m -> lastn n (lastn m l) = lastn n l.
Proof.
  intros Hnm. unfold lastn. rewrite length_drop, drop_drop. f_equal. lia.
Qed.

Lemma lastn_snoc_S {A} (n : nat) (l : list A) (x : A) :
  lastn (S n) (l ++ [x]) = (lastn n l ++ [x])%list.
Proof.
  unfold lastn. rewrite length_app. cbn [length].
  replace (length l + 1 - S n) with (length l - n) by lia.
  rewrite drop_app_le by lia. done.
Qed.

Lemma elem_of_lastn {A} (n : nat) (l : list A) (x : A) : x ∈ lastn n l -> x ∈ l.
Proof. apply subseteq_drop. Qed.

Lemma take_reverse_lastn {A} (n m : nat) (l : list A) :
  n <= m -> take n (reverse (lastn m l)) = reverse (lastn n l).
Proof.
  intros Hnm. rewrite <-(lastn_lastn n m l Hnm).
  generalize (lastn m l). clear l. intros l. unfold lastn.
  rewrite <-(reverse_involutive (take n (reverse l))).
  f_equal. rewrite reverse_take, reverse_involutive. f_equal.
  rewrite length_reverse. done.
Qed.

Section DashboardFacts.
Context `{JsonCodec} `{!JsonLawful}.

Lemma find_has_id_last (id : string) (l : list value) (s : value) :
  (forall x, x ∈ l -> has_id id x = false) -> has_id id s = true ->
  List.find (has_id id) (l ++ [s]) = Some s.
Proof.
  intros Hl Hs. induction l as [|a l IH]; cbn [List.find app].
  - by rewrite Hs.
  - rewrite (Hl a) by apply list_elem_of_here. apply IH.
    intros x Hx. apply Hl. by apply list_elem_of_further.
Qed.

(** X20. The newest submission leads the dashboard. On a file system that
    does not fail on the log, after an append that was fulfilled the list of
    recent submissions [GET /admin] shows is the appended record followed by
    the first nine of the list shown before, so it never has more than ten
    entries; and asking to view the id of the appended record selects that
    record, when the id is not empty and no record kept before it has it. *)
Theorem appended_submission_leads_dashboard (s : value) (l0 : list value)
    (w w' : world) :
  fault (w_disk w) KRead SUBMISSIONS_JSON_PATH = None ->
  load_log (w_disk w) = inr l0 ->
  appendSubmission s w = (Fulfilled, w') ->
  exists l1, load_log (w_disk w') = inr l1
    /\ recentSubmissions l1 = s :: take 9 (recentSubmissions l0)
    /\ length (recentSubmissions l1) <= 10
    /\ forall id, id ≠ "" -> has_id id s = true ->
         (forall x, x ∈ l0 -> has_id id x = false) ->
         selectedSubmission (RStr id) l1 = Some s.
Proof.
  intros Hf Hl0 Ha.
  destruct (appendSubmission_log _ _ _ _ _ Hf Hl0 Ha) as [_ Hl1].
  exists (lastn 250 (l0 ++ [s])). split; [done|].
  assert (recentSubmissions (lastn 250 (l0 ++ [s]))
          = s :: take 9 (recentSubmissions l0)) as Hrecent.
  { unfold recentSubmissions. rewrite lastn_lastn by lia.
    rewrite (lastn_snoc_S 9), reverse_app. cbn [reverse app].
    change (reverse [s]) with [s]. cbn [app]. f_equal.
    by rewrite take_reverse_lastn by lia. }
  split; [done|]. split.
  { rewrite Hrecent. cbn [length]. rewrite length_take. lia. }
  intros id Hid Hs Hl. unfold selectedSubmission.
  cbn [raw_truthy to_String].
  assert (Js.is_empty id = false) as Hne.
  { destruct id; [done | done]. }
  unfold raw_truthy. rewrite ?Hne. cbn [negb to_String]. rewrite ?Hne.
  rewrite <-(lastn_app_lastn 250 l0 [s]).
  assert (exists k, lastn 250 (lastn 250 l0 ++ [s]) = (k ++ [s])%list
                    /\ forall x, x ∈ k -> x ∈ l0) as (k & -> & Hk).
  { destruct (decide (length (lastn 250 l0) < 250)) as [Hlt|Hge].
    - exists (lastn 250 l0). split.
      + unfold lastn at 1. rewrite length_app. cbn [length].
        by replace (length (lastn 250 l0) + 1 - 250) with 0 by lia.
      + intros x Hx. by eapply elem_of_lastn.
    - exists (lastn 249 (lastn 250 l0)). split; [apply (lastn_snoc_S 249)|].
      intros x Hx. eapply elem_of_lastn. by eapply elem_of_lastn. }
  apply find_has_id_last; [|done]. intros x Hx. by apply Hl, Hk.
Qed.

End DashboardFacts.

Lemma activePage_listed (q : raw) : activePage q ∈ EDITABLE_PAGES.
Proof.
  unfold activePage. cbv zeta.
  destruct (existsb _ EDITABLE_PAGES) eqn:He; [|apply list_elem_of_here].
  apply existsb_exists in He as (p & Hp & ->%String.eqb_eq).
  by apply list_elem_of_In.
Qed.

Lemma activePage_of_page (p : string) :
  p ∈ EDITABLE_PAGES -> activePage (RStr p) = p.
Proof.
  intros Hp. unfold EDITABLE_PAGES in Hp.
  repeat (apply elem_of_cons in Hp as [->|Hp]; [by vm_compute|]).
  by apply elem_of_nil in Hp.
Qed.

Lemma section_is_a_page (s : string) :
  existsb (String.eqb s) EDITABLE_SECTIONS = true -> s ∈ EDITABLE_PAGES.
Proof.
  intros (p & Hp%list_elem_of_In & ->%String.eqb_eq)%existsb_exists.
  unfold EDITABLE_SECTIONS in Hp.
  repeat (apply elem_of_cons in Hp as [->|Hp];
          [apply list_elem_of_In; vm_compute; tauto|]).
  by apply elem_of_nil in Hp.
Qed.

Section SavedPage.
Context `{JsonCodec}.

(** X21. A save leads back to the page of what was saved. The dashboard
    shows a page of its list whatever the query asks for, and the page
    asked for when it is in the list. The redirect with which a form, the
    per-section route or the whole-document route reports a save names such
    a page: the section of the form, the section id of the request (which
    therefore was an editable section), or [raw]. *)
Theorem save_returns_to_its_page (a : admin_route) (req : request)
    (w w' : world) :
  run_handler (post_admin_any a req) w = (saved_reply a req, w') ->
  exists p,
    saved_reply a req = Redirect ("/admin?page=" +:+ p +:+ "&saved=1")
    /\ p = match a with
           | AForm r => section_of r
           | ASection => param_id req
           | ASite => "raw"
           end
    /\ p ∈ EDITABLE_PAGES
    /\ activePage (RStr p) = p
    /\ forall q, activePage q ∈ EDITABLE_PAGES.
Proof.
  intros Hrun. eexists. split; [|split; [reflexivity|]].
  { by destruct a. }
  assert (match a with
          | AForm r => section_of r
          | ASection => param_id req
          | ASite => "raw"
          end ∈ EDITABLE_PAGES) as Hp.
  { destruct a as [r| |].
    - apply list_elem_of_In. destruct r; vm_compute; tauto.
    - apply section_is_a_page. revert Hrun.
      unfold run_handler, post_admin_any, post_admin_section, requireAuth,
        saved_reply. cbv zeta.
      destruct (session_user req); [|by intros [=]].
      rewrite bind_reply_if.
      destruct (negb (assertCsrf req)); [by intros [=]|].
      rewrite bind_reply_if.
      destruct (existsb (String.eqb (param_id req)) EDITABLE_SECTIONS); [done|].
      by intros [=].
    - apply list_elem_of_In. vm_compute. tauto. }
  split; [done|]. split; [by apply activePage_of_page|]. apply activePage_listed.
Qed.

End SavedPage.

(* ================================================================== *)
(** ** The properties on the sample data *)
(* ================================================================== *)

(** A pair is its first component and the rest. *)
Lemma pair_fst {A B} (x : A * B) (a : A) : x.1 = a -> x = (a, x.2).
Proof. intros <-. by destruct x. Qed.


Import Ref.

(** The sample document is what [readJson] finds on the sample disk. *)
Lemma sample_site_stored :
  readJson (w_disk Sample.w0) SITE_JSON_PATH JNull = inr (JObj Sample.site0).
Proof.
  apply (readJson_stored (H1 := RefFacts.ref_lawful)).
  - vm_compute. reflexivity.
  - apply lookup_singleton_eq.
Qed.

(** The sample log is what both log functions load. *)
Lemma sample_log_stored : load_log (w_disk Sample.w_log) = inr Sample.log0.
Proof.
  apply (load_log_stored (H1 := RefFacts.ref_lawful)).
  - vm_compute. reflexivity.
  - apply lookup_singleton_eq.
Qed.

(** The device has no room for the log: the append fails, and the write of
    the document chained after it is rejected with [ENOSPC] too, although
    on its own it goes through. *)
Lemma failed_write_blocks_queue_witness :
  (appendSubmission (JObj (Sample.submission "s1" "queued")) Sample.w_full).1
  = Rejected (FsError "ENOSPC")
  /\ (writeJsonAtomic SITE_JSON_PATH (JObj Sample.meta0)
        (writeJsonAtomic SUBMISSIONS_JSON_PATH (JArr Sample.log0) Sample.w_full).2).1
     = Rejected (FsError "ENOSPC")
  /\ (writeJsonAtomic SITE_JSON_PATH (JObj Sample.meta0) Sample.w_full).1 = Fulfilled.
Proof.
  split; [vm_compute; reflexivity|]. split; [|vm_compute; reflexivity].
  apply (failed_write_blocks_queue
           SUBMISSIONS_JSON_PATH SITE_JSON_PATH (JArr Sample.log0) (JObj Sample.meta0)
           Sample.w_full
           (writeJsonAtomic SUBMISSIONS_JSON_PATH (JArr Sample.log0) Sample.w_full).2
           (writeJsonAtomic SITE_JSON_PATH (JObj Sample.meta0)
              (writeJsonAtomic SUBMISSIONS_JSON_PATH (JArr Sample.log0) Sample.w_full).2).2).
  - apply pair_fst. vm_compute. reflexivity.
  - apply surjective_pairing.
Defined.

(** A document written over the sample one is read back. *)
Lemma write_then_read_witness :
  (writeJsonAtomic SITE_JSON_PATH (JObj Sample.meta0) Sample.w0).1 = Fulfilled
  /\ readJson (w_disk (writeJsonAtomic SITE_JSON_PATH (JObj Sample.meta0) Sample.w0).2)
              SITE_JSON_PATH JNull
     = inr (JObj Sample.meta0).
Proof.
  destruct (write_then_read (H1 := RefFacts.ref_lawful)
              SITE_JSON_PATH (JObj Sample.meta0) JNull Sample.w0)
    as [Hread Hdone].
  - vm_compute. reflexivity.
  - assert ((writeJsonAtomic SITE_JSON_PATH (JObj Sample.meta0) Sample.w0).1 = Fulfilled)
      as Hw by (apply Hdone; vm_compute; reflexivity).
    split; [exact Hw|]. apply Hread. by apply pair_fst.
Defined.


(** Three hundred appends to an empty log leave the last 250 records. *)
Lemma append_keeps_last_250_witness :
  exists l',
    load_log (w_disk (appendAll Sample.subs300 Sample.w0).2) = inr l'
    /\ l' = drop 50 Sample.subs300 /\ length l' = 250.
Proof.
  destruct (append_keeps_last_250 (H1 := RefFacts.ref_lawful)
              Sample.subs300 [] Sample.w0
              (appendAll Sample.subs300 Sample.w0).2
              (appendAll Sample.subs300 Sample.w0).1)
    as (l' & Hl' & _ & _ & H300).
  - vm_compute. reflexivity.
  - vm_compute. reflexivity.
  - apply surjective_pairing.
  - exists l'. split; [exact Hl'|]. apply H300; vm_compute; reflexivity.
Defined.

(** A missing file and a garbled one give the fallback; a file that cannot
    be read throws [EACCES]. *)
Lemma readJson_fallback_or_throw_witness :
  readJson Sample.disk0 SUBMISSIONS_JSON_PATH (JArr []) = inr (JArr [])
  /\ readJson Sample.disk_garbled SITE_JSON_PATH JNull = inr JNull
  /\ readJson Sample.disk_locked SITE_JSON_PATH JNull = inl (FsError "EACCES").
Proof.
  split; [|split].
  - apply (proj1 (readJson_fallback_or_throw Sample.disk0 SUBMISSIONS_JSON_PATH (JArr [])));
      vm_compute; reflexivity.
  - apply (proj1 (proj2 (readJson_fallback_or_throw Sample.disk_garbled SITE_JSON_PATH JNull))
             "{ title: "); vm_compute; reflexivity.
  - apply (proj2 (proj2 (readJson_fallback_or_throw Sample.disk_locked SITE_JSON_PATH JNull))
             "EACCES"); [vm_compute; reflexivity | discriminate].
Defined.




(** A line with one bar. *)
Lemma icon_label_lines_witness :
  iconLabelOfLine "fa-cube | Tools" = spec_iconLabelOfLine "fa-cube | Tools".
Proof.
  apply (proj1 (proj2 icon_label_lines)).
  intros rem Hrem. vm_compute in Hrem. injection Hrem as <-.
  vm_compute. reflexivity.
Defined.

(** C8, against the specification as worded: a label with a bar of its own
    does not come out as the remainder of the line. *)
Lemma icon_label_second_bar :
  parseIconLabelLines (RStr "fa-link|docs|api") None
  = [mkIconLabel "fa-link" "docs | api"]
  /\ omap spec_iconLabelOfLine (splitLines (RStr "fa-link|docs|api") None)
     = [mkIconLabel "fa-link" "docs|api"]
  /\ parseIconLabelLines (RStr "fa-link|docs|api") None
     ≠ omap spec_iconLabelOfLine (splitLines (RStr "fa-link|docs|api") None).
Proof. repeat split; vm_compute; (reflexivity || discriminate). Qed.




(* ================================================================== *)
(** ** The other properties on the sample data *)
(* ================================================================== *)

(** A write of the document on a disk that holds the log leaves the log. *)
Lemma write_touches_only_target_witness :
  files (w_disk (writeJsonAtomic SITE_JSON_PATH (JObj Sample.meta0) Sample.w_log).2)
    !! SUBMISSIONS_JSON_PATH
  = files (w_disk Sample.w_log) !! SUBMISSIONS_JSON_PATH
  /\ files (w_disk (writeJsonAtomic SITE_JSON_PATH (JObj Sample.meta0) Sample.w_log).2)
       !! SITE_JSON_PATH
     = Some (JSON_stringify (JObj Sample.meta0) +:+ Js.NL).
Proof.
  destruct (write_touches_only_target
              SITE_JSON_PATH (JObj Sample.meta0) Sample.w_log
              (writeJsonAtomic SITE_JSON_PATH (JObj Sample.meta0) Sample.w_log).2
              (writeJsonAtomic SITE_JSON_PATH (JObj Sample.meta0) Sample.w_log).1)
    as (_ & Hframe & Hok & _).
  - apply surjective_pairing.
  - split.
    + apply Hframe; intros Heq; vm_compute in Heq; discriminate.
    + apply Hok. vm_compute. reflexivity.
Defined.

(** An append to a log that is not JSON. *)
Lemma append_restarts_unusable_log_witness :
  load_log (w_disk (appendSubmission Cases.s3 Cases.w_bad_log).2) = inr [Cases.s3]
  /\ patchSubmission "s3" (status_patch "sent") Cases.w_bad_log
     = (Fulfilled, Cases.w_bad_log).
Proof.
  apply (append_restarts_unusable_log (H1 := RefFacts.ref_lawful)).
  - vm_compute. reflexivity.
  - vm_compute. exact I.
  - apply pair_fst. vm_compute. reflexivity.
Defined.

(** A visitor and a form without the token, on [/admin/meta]. *)
Lemma admin_routes_need_session_and_token_witness :
  run_handler (post_admin RMeta Cases.req_visitor) Sample.w0
  = (Redirect "/admin/login", Sample.w0)
  /\ (run_handler (post_admin RMeta Cases.req_no_token) Sample.w0).2 = Sample.w0.
Proof.
  split.
  - destruct (proj1 (admin_routes_need_session_and_token
                       (AForm RMeta) Cases.req_visitor Sample.w0
                       (run_handler (post_admin RMeta Cases.req_visitor) Sample.w0).2
                       (run_handler (post_admin RMeta Cases.req_visitor) Sample.w0).1
                       (surjective_pairing _)) eq_refl) as [Hresp Hw].
    rewrite (surjective_pairing (run_handler _ _)). by rewrite Hresp, Hw.
  - apply (proj1 (proj2 (admin_routes_need_session_and_token
                       (AForm RMeta) Cases.req_no_token Sample.w0
                       (run_handler (post_admin RMeta Cases.req_no_token) Sample.w0).2
                       (run_handler (post_admin RMeta Cases.req_no_token) Sample.w0).1
                       (surjective_pairing _)))).
    + reflexivity.
    + vm_compute. reflexivity.
Defined.

(** [/admin/meta] when the document does not parse. *)
Lemma routes_need_a_document_witness :
  (run_handler (post_admin RMeta Sample.req_meta) Cases.w_garbled).2 = Cases.w_garbled
  /\ (run_handler (post_admin RMeta Sample.req_meta) Cases.w_garbled).1
     ≠ Redirect (saved_url RMeta).
Proof.
  destruct (routes_need_a_document
              (AForm RMeta) Sample.req_meta JNull Cases.w_garbled
              (run_handler (post_admin RMeta Sample.req_meta) Cases.w_garbled).2
              (run_handler (post_admin RMeta Sample.req_meta) Cases.w_garbled).1)
    as (Hw & Hresp & _).
  - discriminate.
  - vm_compute. reflexivity.
  - left. reflexivity.
  - apply surjective_pairing.
  - split; [exact Hw | exact Hresp].
Defined.

(** [/admin/hero] with a first name of white space. *)
Lemma form_routes_require_fields_witness :
  (run_handler (post_admin RHero Cases.req_blank_name) Sample.w0).2 = Sample.w0
  /\ (run_handler (post_admin RHero Cases.req_blank_name) Sample.w0).1
     ≠ Redirect (saved_url RHero).
Proof.
  apply (form_routes_require_fields
           RHero Cases.req_blank_name Sample.w0
           (run_handler (post_admin RHero Cases.req_blank_name) Sample.w0).2
           (top_or_empty "firstName")
           (run_handler (post_admin RHero Cases.req_blank_name) Sample.w0).1).
  - apply list_elem_of_here.
  - vm_compute. reflexivity.
  - apply surjective_pairing.
Defined.

(** [/admin/site] with a whole document. *)
Lemma site_route_replaces_document_witness :
  exists o,
    JSON_parse (stringOrEmpty (body_field Cases.req_site "siteJson")) = Some (JObj o)
    /\ readJson (w_disk (run_handler (post_admin_site Cases.req_site) Sample.w0).2)
                SITE_JSON_PATH JNull
       = inr (JObj o).
Proof.
  destruct (site_route_replaces_document (H1 := RefFacts.ref_lawful)
              Cases.req_site Sample.w0
              (run_handler (post_admin_site Cases.req_site) Sample.w0).2
              (run_handler (post_admin_site Cases.req_site) Sample.w0).1
              (surjective_pairing _)) as [Hsaved _].
  destruct Hsaved as (o & Hparse & _ & _ & _ & _ & Hread).
  - vm_compute. reflexivity.
  - exists o. split; [exact Hparse|]. apply Hread. vm_compute. reflexivity.
Defined.

(** [/admin/section/hero] with the box ticked: the section is shown. *)
Lemma saved_flag_is_visibility_witness :
  exists site',
    readJson (w_disk (run_handler (post_admin_section Sample.req_section_hero) Sample.w0).2)
             SITE_JSON_PATH JNull
    = inr site'
    /\ isSectionEnabled site' "hero" = true.
Proof.
  destruct (proj2 (saved_flag_is_visibility (H1 := RefFacts.ref_lawful)
                     Sample.req_section_hero Sample.w0
                     (run_handler (post_admin_section Sample.req_section_hero) Sample.w0).2
                     Sample.site0 sample_site_stored))
    as (site' & Hread & Hflag).
  - discriminate.
  - discriminate.
  - apply pair_fst. vm_compute. reflexivity.
  - exists site'. split; [exact Hread|].
    etrans; [exact Hflag|]. vm_compute. reflexivity.
Defined.

(** Two items, joined and split again. *)
Lemma split_of_join_witness :
  splitLines (RStr (Js.join Js.NL ["alpha"; "beta gamma"])) (Some 5)
  = ["alpha"; "beta gamma"]
  /\ splitCsv (RStr (Js.join "," ["alpha"; "beta gamma"])) (Some 5)
     = ["alpha"; "beta gamma"].
Proof.
  destruct (split_of_join ["alpha"; "beta gamma"] (Some 5)) as [Hlines Hcsv].
  - repeat (apply Forall_cons; split;
              [split; [discriminate | vm_compute; reflexivity]|]).
    by apply Forall_nil.
  - intros n [= <-]. cbn [length]. lia.
  - split; [apply Hlines | apply Hcsv];
      repeat (apply Forall_cons; split;
                [intros Hin%list_elem_of_In; vm_compute in Hin;
                 intuition discriminate|]);
      by apply Forall_nil.
Defined.

(** A session without a token gets one, and the form that brings it back
    passes. *)
Lemma csrf_token_round_trip_witness :
  exists t ss',
    ensureCsrf "a1b2c3" (Some (Session true None)) = (Some t, Some ss')
    /\ t ≠ ""
    /\ assertCsrf (on_session ss' {[ "_csrf" := RStr t ]} "") = true.
Proof.
  destruct (csrf_token_round_trip "a1b2c3" (Session true None))
    as (t & ss' & He & Hne & _ & _ & _ & _ & Hassert & _).
  - discriminate.
  - exists t, ss'. split; [exact He|]. split; [exact Hne|].
    apply Hassert. apply lookup_singleton_eq.
Defined.

(** A good message whose mail is sent, on the sample log. *)
Lemma contact_records_the_outcome_witness :
  exists w',
    run_handler (post_api_contact Sample.env0 Cases.req_contact) Sample.w_log
    = (SendJson 200 true "", w')
    /\ load_log (w_disk w')
       = inr (lastn 250 (Sample.log0 ++ [contact_record Sample.env0 Cases.req_contact "sent"])).
Proof.
  apply (contact_records_the_outcome (H1 := RefFacts.ref_lawful)
           Sample.env0 Cases.req_contact Sample.w_log Sample.log0).
  - vm_compute. reflexivity.
  - reflexivity.
  - vm_compute. reflexivity.
  - vm_compute. reflexivity.
  - exact sample_log_stored.
  - intros s Hs.
    repeat (apply elem_of_cons in Hs as [->|Hs]; [vm_compute; reflexivity|]).
    by apply elem_of_nil in Hs.
Defined.


(** [/admin/nav] with two links, one of them with a space in its id. *)
Lemma nav_route_stores_valid_links_witness :
  exists o' nav links,
    readJson (w_disk (run_handler (post_admin RNav Cases.req_nav) Sample.w0).2)
             SITE_JSON_PATH JNull
    = inr (JObj o')
    /\ o' !! "nav" = Some (JObj nav)
    /\ nav !! "links" = Some (JArr links)
    /\ length links <= 20.
Proof.
  destruct (nav_route_stores_valid_links (H1 := RefFacts.ref_lawful)
              Cases.req_nav Sample.w0
              (run_handler (post_admin RNav Cases.req_nav) Sample.w0).2
              Sample.site0 sample_site_stored)
    as (o' & nav & links & logo & Hread & Hnav & _ & _ & _ & _ & Hlinks & Hlen & _).
  - apply pair_fst. vm_compute. reflexivity.
  - exists o', nav, links. split; [exact Hread|]. split; [exact Hnav|].
    split; [exact Hlinks | exact Hlen].
Defined.

(** A third submission on the sample log. *)
Lemma appended_submission_leads_dashboard_witness :
  exists l1,
    load_log (w_disk (appendSubmission Cases.s3 Sample.w_log).2) = inr l1
    /\ recentSubmissions l1
       = [Cases.s3; JObj (Sample.submission "s2" "queued");
          JObj (Sample.submission "s1" "queued")]
    /\ selectedSubmission (RStr "s3") l1 = Some Cases.s3.
Proof.
  assert (forall s, s ∈ Sample.log0 -> has_id "s3" s = false) as Hfresh.
  { intros s Hs.
    repeat (apply elem_of_cons in Hs as [->|Hs]; [vm_compute; reflexivity|]).
    by apply elem_of_nil in Hs. }
  destruct (appended_submission_leads_dashboard (H1 := RefFacts.ref_lawful)
              Cases.s3 Sample.log0 Sample.w_log
              (appendSubmission Cases.s3 Sample.w_log).2)
    as (l1 & Hl1 & Hrecent & _ & Hsel).
  - vm_compute. reflexivity.
  - exact sample_log_stored.
  - apply pair_fst. vm_compute. reflexivity.
  - exists l1. split; [exact Hl1|]. split; [exact Hrecent|].
    apply (Hsel "s3"); [discriminate | vm_compute; reflexivity | exact Hfresh].
Defined.

(** The save of [/admin/section/hero] leads to the page [hero]. *)
Lemma save_returns_to_its_page_witness :
  param_id Sample.req_section_hero ∈ EDITABLE_PAGES
  /\ activePage (RStr (param_id Sample.req_section_hero))
     = param_id Sample.req_section_hero.
Proof.
  destruct (save_returns_to_its_page
              ASection Sample.req_section_hero Sample.w0
              (run_handler (post_admin_section Sample.req_section_hero) Sample.w0).2)
    as (p & _ & -> & Hin & Hpage & _).
  - apply pair_fst. vm_compute. reflexivity.
  - split; [exact Hin | exact Hpage].
Defined.
